(** * tctl: tag parser, scanner, freshness evaluator and dependency resolver

    A shallow embedding of the core of the tctl command line tool:
    - [pkg/tool]            the [Tool] descriptor and the [Registry];
    - [internal/scanner]    docstring extraction, the tag parser and the
                            directory walk;
    - [internal/freshness]  the freshness policy table and [Check];
    - [cmd/tctl] (get)      the recursive resolver [ensureData];
    - [internal/runner]     the choice of a runner and the Python runner;
    - [internal/config]     the registered sources and the intents that
                            [Load] gathers;
    - [internal/linter]     [lintToolFile], [lintFileForCompatibility]
                            and [checkPythonDocstring];
    - [cmd/tctl] (find, sync)  the search [findToolMatches] and the
                            validation loop of [tctl sync].

    Go strings are byte strings; they are modelled by [string], whose
    characters are the 256 byte values.  Paths follow the Unix flavour of
    [path/filepath]. *)

From Stdlib Require Import ZArith Ascii String List Lia Bool.
From stdpp Require Import base gmap sets list strings.

Local Open Scope string_scope.

(** ** The [strings] package, as far as the sources use it *)

Module strings.

(** The double quote, and the two docstring delimiters. *)
Definition dquote : ascii := "034"%char.
Definition squote : ascii := "039"%char.
Definition newline : ascii := "010"%char.

Definition ofChar (c : ascii) : string := String c EmptyString.
Definition nl : string := ofChar newline.

(** [s[n:]] and [s[:n]]. The sources only slice below [len(s)]. *)
Fixpoint dropBytes (n : nat) (s : string) : string :=
  match n, s with
  | O, _ => s
  | S n', String _ r => dropBytes n' r
  | S _, EmptyString => EmptyString
  end.

Fixpoint takeBytes (n : nat) (s : string) : string :=
  match n, s with
  | O, _ => EmptyString
  | S n', String c r => String c (takeBytes n' r)
  | S _, EmptyString => EmptyString
  end.

Fixpoint HasPrefix (s p : string) {struct p} : bool :=
  match p, s with
  | EmptyString, _ => true
  | String a p', String b s' => if Ascii.eqb a b then HasPrefix s' p' else false
  | String _ _, EmptyString => false
  end.

Definition HasSuffix (s p : string) : bool :=
  HasPrefix (String.rev s) (String.rev p).

(** Byte offset of the first occurrence of [sub] in [s]. Go returns -1
    where this returns [None]. *)
Fixpoint Index (s sub : string) : option nat :=
  if HasPrefix s sub then Some O
  else match s with
       | EmptyString => None
       | String _ r => S <$> Index r sub
       end.

Definition Contains (s sub : string) : bool :=
  match Index s sub with Some _ => true | None => false end.

Definition TrimPrefix (s p : string) : string :=
  if HasPrefix s p then dropBytes (String.length p) s else s.

Definition TrimSuffix (s p : string) : string :=
  if HasSuffix s p then takeBytes (String.length s - String.length p) s else s.

(** [asciiSpace] of the Go runtime: tab, LF, VT, FF, CR and space. *)
Definition asciiSpace (c : ascii) : bool :=
  match c with
  | "009" | "010" | "011" | "012" | "013" | " " => true
  | _ => false
  end%char.

Definition byteIn (lo hi : N) (c : ascii) : bool :=
  ((lo <=? N_of_ascii c) && (N_of_ascii c <=? hi))%N.
Definition byteIs (k : N) (c : ascii) : bool := (N_of_ascii c =? k)%N.

(** [unicode.IsSpace] on the UTF-8 encoding: the number of bytes of the
    white space rune that [s] starts with, and [0] when it starts with
    none.  Besides the six ASCII characters these are U+0085, U+00A0,
    U+1680, U+2000..U+200A, U+2028, U+2029, U+202F, U+205F and U+3000.
    Every such encoding begins with a leading byte, so an occurrence is
    always on a rune boundary of Go's decoder. *)
Definition spaceWidth (s : string) : nat :=
  match s with
  | EmptyString => 0
  | String c r =>
      if asciiSpace c then 1
      else match r with
           | String d r' =>
               if byteIs 194 c && (byteIs 133 d || byteIs 160 d) then 2
               else match r' with
                    | String e _ =>
                        if byteIs 225 c && byteIs 154 d && byteIs 128 e then 3
                        else if byteIs 226 c && byteIs 128 d &&
                                (byteIn 128 138 e || byteIs 168 e ||
                                 byteIs 169 e || byteIs 175 e) then 3
                        else if byteIs 226 c && byteIs 129 d && byteIs 159 e then 3
                        else if byteIs 227 c && byteIs 128 d && byteIs 128 e then 3
                        else 0
                    | EmptyString => 0
                    end
           | EmptyString => 0
           end
  end.

(** The same test at the end of a string, read backwards: the argument
    is the reversed string (this is what [DecodeLastRuneInString]
    finds, since the byte before the continuation bytes is a leading
    byte). *)
Definition spaceWidthRev (s : string) : nat :=
  match s with
  | EmptyString => 0
  | String c r =>
      if asciiSpace c then 1
      else match r with
           | String d r' =>
               if byteIs 194 d && (byteIs 133 c || byteIs 160 c) then 2
               else match r' with
                    | String e _ =>
                        if byteIs 225 e && byteIs 154 d && byteIs 128 c then 3
                        else if byteIs 226 e && byteIs 128 d &&
                                (byteIn 128 138 c || byteIs 168 c ||
                                 byteIs 169 c || byteIs 175 c) then 3
                        else if byteIs 226 e && byteIs 129 d && byteIs 159 c then 3
                        else if byteIs 227 e && byteIs 128 d && byteIs 128 c then 3
                        else 0
                    | EmptyString => 0
                    end
           | EmptyString => 0
           end
  end.

Fixpoint trimWith (width : string -> nat) (fuel : nat) (s : string) : string :=
  match fuel with
  | O => s
  | S fuel' =>
      match width s with
      | O => s
      | w => trimWith width fuel' (dropBytes w s)
      end
  end.

Definition TrimLeftSpace (s : string) : string :=
  trimWith spaceWidth (String.length s) s.

Definition TrimRightSpace (s : string) : string :=
  String.rev (trimWith spaceWidthRev (String.length s) (String.rev s)).

Definition TrimSpace (s : string) : string :=
  TrimRightSpace (TrimLeftSpace s).

(** [strings.Split(s, sep)] for a separator of one byte. *)
Fixpoint splitGo (sep : ascii) (cur : string) (s : string) : list string :=
  match s with
  | EmptyString => [String.rev cur]
  | String c r =>
      if Ascii.eqb c sep then String.rev cur :: splitGo sep EmptyString r
      else splitGo sep (String c cur) r
  end.

Definition SplitByte (s : string) (sep : ascii) : list string :=
  splitGo sep EmptyString s.

Definition Join (elems : list string) (sep : string) : string :=
  String.concat sep elems.

(** [strings.Fields]: the maximal runs of bytes free of white space. *)
Definition flush (cur : string) : list string :=
  match cur with EmptyString => [] | _ => [String.rev cur] end.

Fixpoint fieldsGo (fuel : nat) (cur : string) (s : string) : list string :=
  match fuel with
  | O => flush cur
  | S fuel' =>
      match s with
      | EmptyString => flush cur
      | String c r =>
          match spaceWidth s with
          | O => fieldsGo fuel' (String c cur) r
          | w => flush cur ++ fieldsGo fuel' EmptyString (dropBytes w s)
          end
      end
  end.

Definition Fields (s : string) : list string :=
  fieldsGo (S (String.length s)) EmptyString s.

End strings.

(** ** [path/filepath], Unix flavour *)

Module filepath.
Import strings.

Definition sep : ascii := "/"%char.

Definition IsAbs (path : string) : bool := HasPrefix path "/".

(** One path element met by [Clean]; [stack] holds the elements kept so
    far, the last one first.  An empty element and [.] are dropped;
    [..] removes the element before it, is dropped at the root, and is
    kept at the start of a relative path. *)
Definition cleanStep (rooted : bool) (stack : list string) (elem : string)
  : list string :=
  if String.eqb elem EmptyString || String.eqb elem "." then stack
  else if String.eqb elem ".." then
    match stack with
    | top :: below =>
        if String.eqb top ".." then elem :: stack else below
    | [] => if rooted then [] else [elem]
    end
  else elem :: stack.

Definition cleanElems (rooted : bool) (elems : list string) : list string :=
  List.rev (fold_left (cleanStep rooted) elems []).

Definition render (rooted : bool) (elems : list string) : string :=
  if rooted then "/" +:+ Join elems "/"
  else match elems with
       | [] => "."
       | _ => Join elems "/"
       end.

Definition Clean (path : string) : string :=
  if String.eqb path EmptyString then "."
  else
    let rooted := HasPrefix path "/" in
    render rooted (cleanElems rooted (SplitByte path sep)).

(** [Join]: empty leading elements are ignored; the rest is joined with
    the separator and cleaned. *)
Fixpoint Join (elem : list string) : string :=
  match elem with
  | [] => EmptyString
  | e :: elem' =>
      if String.eqb e EmptyString then Join elem'
      else Clean (strings.Join elem "/")
  end.

(** Offset just after the last separator of [path], if it has one. *)
Fixpoint afterLastSep (path : string) : option nat :=
  match path with
  | EmptyString => None
  | String c r =>
      match afterLastSep r with
      | Some i => Some (S i)
      | None => if Ascii.eqb c sep then Some 1 else None
      end
  end.

Definition Dir (path : string) : string :=
  match afterLastSep path with
  | Some i => Clean (takeBytes i path)
  | None => Clean EmptyString
  end.

(** [Ext]: from the last dot of the last element on. The scan runs over
    the reversed path and stops at the first separator. *)
Fixpoint extRev (rpath : string) (acc : string) : string :=
  match rpath with
  | EmptyString => EmptyString
  | String c r =>
      if Ascii.eqb c sep then EmptyString
      else if Ascii.eqb c "."%char then String c acc
      else extRev r (String c acc)
  end.

Definition Ext (path : string) : string :=
  extRev (String.rev path) EmptyString.

(** [filepath.Base]: the last element of a path, trailing separators
    removed first. *)
Fixpoint dropSeps (rpath : string) : string :=
  match rpath with
  | String c r => if Ascii.eqb c sep then dropSeps r else rpath
  | EmptyString => EmptyString
  end.

Fixpoint lastElemRev (rpath : string) (acc : string) : string :=
  match rpath with
  | String c r => if Ascii.eqb c sep then acc else lastElemRev r (String c acc)
  | EmptyString => acc
  end.

Definition Base (path : string) : string :=
  if String.eqb path EmptyString then "."
  else
    let path := lastElemRev (dropSeps (String.rev path)) EmptyString in
    if String.eqb path EmptyString then "/" else path.

End filepath.

(** ** [pkg/tool]: the descriptor model *)

Module tool.

Record Arg := mkArg {
  Arg_Name : string;
  Arg_Type : string;
  Arg_Required : bool;
  Arg_Default : string;
  Arg_Description : string
}.

Record Tool := mkTool {
  Name : string;
  Version : string;
  File : string;
  Language : string;
  Description : string;
  Provides : list string;
  Requires : list string;
  Output : string;
  Freshness : string;
  Capabilities : list string;
  Boundaries : list string;
  Keywords : list string;
  Interface : gmap string Arg;
  Examples : list string
}.

(** The zero value of the struct. *)
Definition zero : Tool :=
  mkTool EmptyString EmptyString EmptyString EmptyString EmptyString
         [] [] EmptyString EmptyString [] [] [] ∅ [].

Definition setName (v : string) (t : Tool) : Tool :=
  mkTool v (Version t) (File t) (Language t) (Description t) (Provides t)
         (Requires t) (Output t) (Freshness t) (Capabilities t)
         (Boundaries t) (Keywords t) (Interface t) (Examples t).
Definition setVersion (v : string) (t : Tool) : Tool :=
  mkTool (Name t) v (File t) (Language t) (Description t) (Provides t)
         (Requires t) (Output t) (Freshness t) (Capabilities t)
         (Boundaries t) (Keywords t) (Interface t) (Examples t).
Definition setFile (v : string) (t : Tool) : Tool :=
  mkTool (Name t) (Version t) v (Language t) (Description t) (Provides t)
         (Requires t) (Output t) (Freshness t) (Capabilities t)
         (Boundaries t) (Keywords t) (Interface t) (Examples t).
Definition setLanguage (v : string) (t : Tool) : Tool :=
  mkTool (Name t) (Version t) (File t) v (Description t) (Provides t)
         (Requires t) (Output t) (Freshness t) (Capabilities t)
         (Boundaries t) (Keywords t) (Interface t) (Examples t).
Definition setDescription (v : string) (t : Tool) : Tool :=
  mkTool (Name t) (Version t) (File t) (Language t) v (Provides t)
         (Requires t) (Output t) (Freshness t) (Capabilities t)
         (Boundaries t) (Keywords t) (Interface t) (Examples t).
Definition setProvides (v : list string) (t : Tool) : Tool :=
  mkTool (Name t) (Version t) (File t) (Language t) (Description t) v
         (Requires t) (Output t) (Freshness t) (Capabilities t)
         (Boundaries t) (Keywords t) (Interface t) (Examples t).
Definition setRequires (v : list string) (t : Tool) : Tool :=
  mkTool (Name t) (Version t) (File t) (Language t) (Description t)
         (Provides t) v (Output t) (Freshness t) (Capabilities t)
         (Boundaries t) (Keywords t) (Interface t) (Examples t).
Definition setOutput (v : string) (t : Tool) : Tool :=
  mkTool (Name t) (Version t) (File t) (Language t) (Description t)
         (Provides t) (Requires t) v (Freshness t) (Capabilities t)
         (Boundaries t) (Keywords t) (Interface t) (Examples t).
Definition setFreshness (v : string) (t : Tool) : Tool :=
  mkTool (Name t) (Version t) (File t) (Language t) (Description t)
         (Provides t) (Requires t) (Output t) v (Capabilities t)
         (Boundaries t) (Keywords t) (Interface t) (Examples t).
Definition setCapabilities (v : list string) (t : Tool) : Tool :=
  mkTool (Name t) (Version t) (File t) (Language t) (Description t)
         (Provides t) (Requires t) (Output t) (Freshness t) v
         (Boundaries t) (Keywords t) (Interface t) (Examples t).
Definition setBoundaries (v : list string) (t : Tool) : Tool :=
  mkTool (Name t) (Version t) (File t) (Language t) (Description t)
         (Provides t) (Requires t) (Output t) (Freshness t)
         (Capabilities t) v (Keywords t) (Interface t) (Examples t).
Definition setKeywords (v : list string) (t : Tool) : Tool :=
  mkTool (Name t) (Version t) (File t) (Language t) (Description t)
         (Provides t) (Requires t) (Output t) (Freshness t)
         (Capabilities t) (Boundaries t) v (Interface t) (Examples t).
Definition setInterface (v : gmap string Arg) (t : Tool) : Tool :=
  mkTool (Name t) (Version t) (File t) (Language t) (Description t)
         (Provides t) (Requires t) (Output t) (Freshness t)
         (Capabilities t) (Boundaries t) (Keywords t) v (Examples t).
Definition setExamples (v : list string) (t : Tool) : Tool :=
  mkTool (Name t) (Version t) (File t) (Language t) (Description t)
         (Provides t) (Requires t) (Output t) (Freshness t)
         (Capabilities t) (Boundaries t) (Keywords t) (Interface t) v.

(** [Registry]: the tools, indexed by name. *)
Record Registry := mkRegistry { Tools : gmap string Tool }.

Definition NewRegistry : Registry := mkRegistry ∅.

(** [Add] receives a pointer; [None] is the nil pointer. *)
Definition Add (r : Registry) (t : option Tool) : Registry :=
  match t with
  | Some t' =>
      if String.eqb (Name t') EmptyString then r
      else mkRegistry (<[Name t' := t']> (Tools r))
  | None => r
  end.

Definition Get (r : Registry) (name : string) : option Tool :=
  Tools r !! name.

Definition providesData (t : Tool) (data : string) : bool :=
  existsb (String.eqb data) (Provides t).

(** [FindByProvides] ranges over a Go map, whose iteration order the
    language leaves open and which may differ from one loop to the next.
    The order one loop takes is the argument [keys]: the keys of
    [r.Tools] in the order the loop meets them.  [rangeOrder] says that
    [keys] is such an order. *)
Definition rangeOrder (r : Registry) (keys : list string) : Prop :=
  keys ≡ₚ (map_to_list (Tools r)).*1.

Fixpoint findByProvidesLoop (r : Registry) (data : string)
         (keys : list string) : option Tool :=
  match keys with
  | [] => None
  | k :: keys' =>
      match Tools r !! k with
      | Some t =>
          if providesData t data then Some t
          else findByProvidesLoop r data keys'
      | None => findByProvidesLoop r data keys'
      end
  end.

Definition FindByProvides (keys : list string) (r : Registry)
           (data : string) : option Tool :=
  findByProvidesLoop r data keys.

(** [All]: the tools in the order [keys] in which the loop over the map
    meets them. *)
Definition All (keys : list string) (r : Registry) : list Tool :=
  omap (fun k => Tools r !! k) keys.

End tool.

(** ** [internal/scanner]: the Python scanner *)

Module scanner.
Import strings.

(** *** The two regular expressions of the parser

    [[,\s]+] separates keywords: [\s] of Go's regexp is tab, LF, FF, CR
    and space.  The caller drops empty pieces, so only the non-empty
    pieces between separator runs are produced here. *)
Definition reSpace (c : ascii) : bool :=
  match c with
  | "009" | "010" | "012" | "013" | " " => true
  | _ => false
  end%char.

Definition isKeywordSep (c : ascii) : bool :=
  Ascii.eqb c ","%char || reSpace c.

Fixpoint splitKeywords (cur : string) (s : string) : list string :=
  match s with
  | EmptyString => flush cur
  | String c r =>
      if isKeywordSep c then flush cur ++ splitKeywords EmptyString r
      else splitKeywords (String c cur) r
  end.

(** [\w] and the class [[\w-]]. *)
Definition isWordByte (c : ascii) : bool :=
  byteIn 48 57 c || byteIn 65 90 c || byteIn 97 122 c || Ascii.eqb c "_"%char.

Definition isNameByte (c : ascii) : bool :=
  isWordByte c || Ascii.eqb c "-"%char.

Fixpoint spanName (s : string) : string * string :=
  match s with
  | EmptyString => (EmptyString, EmptyString)
  | String c r =>
      if isNameByte c then let '(a, b) := spanName r in (String c a, b)
      else (EmptyString, s)
  end.

Definition noNewline (s : string) : bool :=
  negb (Contains s (ofChar newline)).

(** [\s*(.+)$]: the longest run of [\s] that still leaves a non-empty
    rest without a line feed. *)
Fixpoint restGroup (r : string) : option string :=
  match r with
  | EmptyString => None
  | String c r' =>
      let here := if noNewline r then Some r else None in
      if reSpace c then
        match restGroup r' with
        | Some g => Some g
        | None => here
        end
      else here
  end.

(** [^(--[\w-]+):\s*(.+)$]: the two groups of a match. *)
Definition matchInterfaceLine (s : string) : option (string * string) :=
  if HasPrefix s "--" then
    let '(nm, rest) := spanName (dropBytes 2 s) in
    match nm, rest with
    | String _ _, String c r =>
        if Ascii.eqb c ":"%char then
          match restGroup r with
          | Some g => Some ("--" +:+ nm, g)
          | None => None
          end
        else None
    | _, _ => None
    end
  else None.

(** The loop over the comma separated parts of the specification;
    [i] is the index of [part]. *)
Fixpoint specLoop (i : nat) (parts : list string)
         (acc : string * bool * string) : string * bool * string :=
  match parts with
  | [] => acc
  | part :: parts' =>
      let '(argType, required, defaultVal) := acc in
      let part := TrimSpace part in
      let acc' :=
        if Nat.eqb i 0 then (part, required, defaultVal)
        else if String.eqb part "required" then (argType, true, defaultVal)
        else if HasPrefix part "default=" then
               (argType, required, TrimPrefix part "default=")
        else acc in
      specLoop (S i) parts' acc'
  end.

Definition parseInterfaceLine (line : string) : option tool.Arg :=
  match matchInterfaceLine (TrimSpace line) with
  | None => None
  | Some (name, rest) =>
      let '(specPart, description) :=
        match Index rest " - " with
        | Some idx => (takeBytes idx rest, dropBytes (idx + 3) rest)
        | None => (rest, EmptyString)
        end in
      let parts := SplitByte specPart ","%char in
      let '(argType, required, defaultVal) :=
        specLoop 0 parts ("string", false, EmptyString) in
      Some (tool.mkArg name argType required defaultVal (TrimSpace description))
  end.

(** *** [parseDocstringTags]

    The loop variables: the descriptor under construction, the
    [inInterface] flag and the collected description lines. *)
Record ParseState := mkParseState {
  ps_tool : tool.Tool;
  ps_inInterface : bool;
  ps_descLines : list string
}.

Definition ps_init : ParseState :=
  mkParseState
    (tool.setFreshness "manual" tool.zero) false [].

Definition updTool (f : tool.Tool -> tool.Tool) (st : ParseState) : ParseState :=
  mkParseState (f (ps_tool st)) (ps_inInterface st) (ps_descLines st).

Definition setInInterface (b : bool) (st : ParseState) : ParseState :=
  mkParseState (ps_tool st) b (ps_descLines st).

(** The [switch] over the tags, on the trimmed line. *)
Definition parseTag (trimmed : string) (st : ParseState) : ParseState :=
  let t := ps_tool st in
  if HasPrefix trimmed "@tool " then
    updTool (tool.setName (TrimSpace (dropBytes 6 trimmed))) st
  else if HasPrefix trimmed "@version " then
    updTool (tool.setVersion (TrimSpace (dropBytes 9 trimmed))) st
  else if HasPrefix trimmed "@provides " then
    updTool (tool.setProvides (tool.Provides t ++ Fields (dropBytes 10 trimmed))) st
  else if HasPrefix trimmed "@requires " then
    updTool (tool.setRequires (tool.Requires t ++ Fields (dropBytes 10 trimmed))) st
  else if HasPrefix trimmed "@output " then
    updTool (tool.setOutput (TrimSpace (dropBytes 8 trimmed))) st
  else if HasPrefix trimmed "@freshness " then
    updTool (tool.setFreshness (TrimSpace (dropBytes 11 trimmed))) st
  else if HasPrefix trimmed "@capability " then
    updTool (tool.setCapabilities
               (tool.Capabilities t ++ [TrimSpace (dropBytes 12 trimmed)])) st
  else if HasPrefix trimmed "@boundary " then
    updTool (tool.setBoundaries
               (tool.Boundaries t ++ [TrimSpace (dropBytes 10 trimmed)])) st
  else if HasPrefix trimmed "@keywords " then
    let keywordsStr := TrimSpace (dropBytes 10 trimmed) in
    let keywords := splitKeywords EmptyString keywordsStr in
    let kept := List.filter (fun kw => negb (String.eqb kw EmptyString))
                            (List.map TrimSpace keywords) in
    updTool (tool.setKeywords (tool.Keywords t ++ kept)) st
  else if HasPrefix trimmed "@interface" then
    setInInterface true st
  else if HasPrefix trimmed "@example " then
    updTool (tool.setExamples
               (tool.Examples t ++ [TrimSpace (dropBytes 9 trimmed)])) st
  else if negb (HasPrefix trimmed "@") && negb (String.eqb trimmed EmptyString) then
    if String.eqb (tool.Name t) EmptyString &&
       Nat.eqb (List.length (tool.Provides t)) 0
    then mkParseState t (ps_inInterface st) (ps_descLines st ++ [trimmed])
    else st
  else st.

(** One iteration of the loop over the lines. *)
Definition parseLine (st : ParseState) (line : string) : ParseState :=
  let trimmed := TrimSpace line in
  if ps_inInterface st then
    if HasPrefix trimmed "--" then
      match parseInterfaceLine trimmed with
      | Some arg =>
          updTool (fun t => tool.setInterface
                              (<[tool.Arg_Name arg := arg]> (tool.Interface t)) t) st
      | None => st
      end
    else if HasPrefix trimmed "@" then
      parseTag trimmed (setInInterface false st)
    else st
  else parseTag trimmed st.

Definition parseLines (lines : list string) : ParseState :=
  fold_left parseLine lines ps_init.

(** The description: the second collected line when there are two. *)
Definition pickDescription (descLines : list string) (t : tool.Tool) : tool.Tool :=
  if Nat.ltb 1 (List.length descLines) then
    tool.setDescription (nth 1 descLines EmptyString) t
  else if Nat.eqb (List.length descLines) 1 then
    tool.setDescription (nth 0 descLines EmptyString) t
  else t.

(** The result is a pointer to a fresh descriptor, never nil. *)
Definition parseDocstringTags (docstring : string) : option tool.Tool :=
  let st := parseLines (SplitByte docstring newline) in
  Some (pickDescription (ps_descLines st) (ps_tool st)).

(** *** [extractPythonDocstring]

    The file is read through a [bufio.Scanner]: [fd_lines] are the
    lines it delivers, in order, and [fd_err] is what [Err] reports once
    they are used up ([None] at a clean end of file). *)
Record FileData := mkFileData {
  fd_lines : list string;
  fd_err : option string
}.

Definition tripleDouble : string :=
  String dquote (String dquote (String dquote EmptyString)).
Definition tripleSingle : string :=
  String squote (String squote (String squote EmptyString)).

(** How the reading loop is left: by [return], by [break], or because
    the scanner has no more lines. *)
Inductive LoopExit :=
| Returned (result : string)
| Broke (lines : list string)
| Exhausted (lines : list string).

Fixpoint extractLoop (input : list string) (inDocstring : bool)
         (docstringDelim : string) (lines : list string) : LoopExit :=
  match input with
  | [] => Exhausted lines
  | line :: input' =>
      let trimmed := TrimSpace line in
      if HasPrefix trimmed "#" then
        extractLoop input' inDocstring docstringDelim lines
      else if negb inDocstring then
        if HasPrefix trimmed tripleDouble || HasPrefix trimmed tripleSingle then
          let docstringDelim := takeBytes 3 trimmed in
          let rest := dropBytes 3 trimmed in
          if Contains rest docstringDelim then
            Returned (TrimSuffix rest docstringDelim)
          else extractLoop input' true docstringDelim (lines ++ [rest])
        else if negb (String.eqb trimmed EmptyString) then
          Returned EmptyString
        else extractLoop input' inDocstring docstringDelim lines
      else
        (* [Contains] followed by [Index] on the same arguments *)
        match Index line docstringDelim with
        | Some idx => Broke (lines ++ [takeBytes idx line])
        | None => extractLoop input' true docstringDelim (lines ++ [line])
        end
  end.

(** The pair (docstring, error) that the function returns. After a
    [break] the scanner has met no error yet. *)
Definition extractPythonDocstring (file : FileData) : string * option string :=
  match extractLoop (fd_lines file) false EmptyString [] with
  | Returned s => (s, None)
  | Broke lines => (Join lines nl, None)
  | Exhausted lines =>
      match fd_err file with
      | Some err => (EmptyString, Some err)
      | None => (Join lines nl, None)
      end
  end.

(** *** The file system seen by the scanner

    [fs_notExist dir] is [os.IsNotExist] of the error of [os.Stat dir];
    [fs_lstat root] is what [filepath.Walk] finds at its root: an error of
    [os.Lstat], or the tree below it; [fs_open] is [os.Open] followed by
    the line scanner. *)
#[local] Set Warnings "-register-all".
Inductive Node :=
| NFile (name : string)
| NDir (name : string) (readErr : option string) (entries : list Node)
| NBroken (name : string) (err : string).

Definition nodeName (n : Node) : string :=
  match n with
  | NFile name => name
  | NDir name _ _ => name
  | NBroken name _ => name
  end.

Record FS := mkFS {
  fs_notExist : string -> bool;
  fs_lstat : string -> string + Node;
  fs_open : string -> string + FileData
}.

(** *** [PythonScanner] *)

Definition PythonScanner_CanScan (path : string) : bool :=
  String.eqb (filepath.Ext path) ".py".

(** [Scan] returns a pointer and an error. *)
Definition PythonScanner_Scan (fs : FS) (path : string)
  : option tool.Tool * option string :=
  match fs_open fs path with
  | inl err => (None, Some err)
  | inr file =>
      match extractPythonDocstring file with
      | (_, Some err) => (None, Some err)
      | (docstring, None) =>
          if String.eqb docstring EmptyString then (None, None)
          else
            match parseDocstringTags docstring with
            | None => (None, None)
            | Some t =>
                if String.eqb (tool.Name t) EmptyString then (None, None)
                else (Some (tool.setLanguage "python" (tool.setFile path t)), None)
            end
      end
  end.

(** *** The [Scanner] interface and the registered scanners *)

Record Scanner := mkScanner {
  Language : string;
  Extensions : list string;
  CanScan : string -> bool;
  Scan : FS -> string -> option tool.Tool * option string
}.

Definition PythonScanner : Scanner :=
  mkScanner "python" [".py"] PythonScanner_CanScan PythonScanner_Scan.

(** The package variable [scanners] after [init]. *)
Definition registered : list Scanner := [PythonScanner].

Definition GetScanner (scanners : list Scanner) (path : string) : option Scanner :=
  List.find (fun s => CanScan s path) scanners.

Definition SupportedExtensions (scanners : list Scanner) : list string :=
  List.concat (List.map Extensions scanners).

Definition skipDirs : gset string :=
  list_to_set
    [".venv"; "venv"; ".env"; "env"; "node_modules"; "__pycache__"; ".git";
     ".tox"; ".nox"; ".mypy_cache"; ".pytest_cache"; "dist"; "build";
     ".eggs"; "site-packages"].

Definition shouldSkipDir (name : string) : bool :=
  if bool_decide (name ∈ skipDirs) then true
  else if HasSuffix name ".egg-info" then true
  else false.

(** *** [filepath.Walk]

    What the walk hands to its callback: the entry it found, or the
    error it met (of [Lstat], without an entry, or of reading a
    directory).  The callback answers [None] (nil) or [Some SkipDir]. *)
Record FileInfo := mkFileInfo { fi_Name : string; fi_IsDir : bool }.

Inductive WalkArg :=
| Found (info : FileInfo)
| Failed (info : option FileInfo) (err : string).

Inductive WalkErr := SkipDir.

Section Walk.
Context {Acc : Type}.
Variable fn : string -> WalkArg -> Acc -> Acc * option WalkErr.

Fixpoint walk (path : string) (n : Node) (st : Acc) : Acc * option WalkErr :=
  match n with
  | NFile name => fn path (Found (mkFileInfo name false)) st
  | NBroken name err =>
      (* the caller of [walk] reports a failed [lstat]; nil and
         [SkipDir] both let it go on *)
      let '(st, _) := fn path (Failed None err) st in (st, None)
  | NDir name readErr entries =>
      let info := mkFileInfo name true in
      match readErr with
      | Some err => fn path (Failed (Some info) err) st
      | None =>
          let '(st, err1) := fn path (Found info) st in
          match err1 with
          | Some e => (st, Some e)
          | None =>
              (fix loop (entries : list Node) (st : Acc) : Acc * option WalkErr :=
                 match entries with
                 | [] => (st, None)
                 | child :: entries' =>
                     let filename := filepath.Join [path; nodeName child] in
                     let '(st, err) := walk filename child st in
                     match err, child with
                     | Some SkipDir, NDir _ _ _ => loop entries' st
                     | Some SkipDir, NBroken _ _ => loop entries' st
                     | Some e, NFile _ => (st, Some e)
                     | None, _ => loop entries' st
                     end
                 end) entries st
          end
      end
  end.

(** [Walk] turns a [SkipDir] of the root into nil. *)
Definition Walk (fs : FS) (root : string) (st : Acc) : Acc * option WalkErr :=
  match fs_lstat fs root with
  | inl err => let '(st, _) := fn root (Failed None err) st in (st, None)
  | inr n => let '(st, _) := walk root n st in (st, None)
  end.
End Walk.

(** *** [ScanDirectories] *)

Definition firstByteIs (name : string) (c : ascii) : bool :=
  match name with
  | String b _ => Ascii.eqb b c
  | EmptyString => false
  end.

(** The callback given to [filepath.Walk]. *)
Definition scanEntry (scanners : list Scanner) (extSet : gset string) (fs : FS)
           (path : string) (arg : WalkArg) (registry : tool.Registry)
  : tool.Registry * option WalkErr :=
  match arg with
  | Failed _ _ => (registry, None)
  | Found info =>
      if fi_IsDir info then
        if shouldSkipDir (fi_Name info) then (registry, Some SkipDir)
        else (registry, None)
      else
        let name := fi_Name info in
        if firstByteIs name "_"%char || firstByteIs name "."%char then
          (registry, None)
        else
          let ext := filepath.Ext path in
          if negb (bool_decide (ext ∈ extSet)) then (registry, None)
          else
            match GetScanner scanners path with
            | None => (registry, None)
            | Some scanner =>
                match Scan scanner fs path with
                | (_, Some _) => (registry, None)
                | (Some t, None) => (tool.Add registry (Some t), None)
                | (None, None) => (registry, None)
                end
            end
  end.

(** The loop over [dirs]; the result of [filepath.Walk] is dropped. *)
Definition scanDirs (scanners : list Scanner) (extSet : gset string) (fs : FS)
           (dirs : list string) (registry : tool.Registry) : tool.Registry :=
  fold_left
    (fun registry dir =>
       if fs_notExist fs dir then registry
       else fst (Walk (scanEntry scanners extSet fs) fs dir registry))
    dirs registry.

(** The pair (registry pointer, error). *)
Definition ScanDirectories (scanners : list Scanner) (fs : FS) (dirs : list string)
  : option tool.Registry * option string :=
  let registry := tool.NewRegistry in
  let exts := SupportedExtensions scanners in
  if Nat.eqb (List.length exts) 0 then (Some registry, None)
  else
    let extSet : gset string := list_to_set exts in
    (Some (scanDirs scanners extSet fs dirs registry), None).

Definition ScanDirectory (scanners : list Scanner) (fs : FS) (dir : string)
  : option tool.Registry * option string :=
  ScanDirectories scanners fs [dir].

End scanner.

(** ** [internal/config]: intents *)

Module config.

Record Intent := mkIntent {
  Description : string;
  Includes : list string
}.

(** Of [Global] the resolver reads the intents only. *)
Record Global := mkGlobal { Intents : gmap string Intent }.

Definition GetIntent (g : Global) (name : string) : option Intent :=
  Intents g !! name.

End config.

(** ** The world outside the process

    File metadata, the clock and the tools that are run live outside the
    program.  [World] is the state of all that; each call into it yields
    a result and the world after the call.  Instants are nanoseconds on
    the wall clock, durations are nanoseconds in an [int64]. *)

Inductive StatResult :=
| NotExist
| StatError (err : string)
| StatInfo (modTime : Z).

Record Platform (World : Type) := mkPlatform {
  os_Stat : string -> World -> StatResult * World;
  time_Now : World -> Z * World;
  (** [runner.Run]: exit code and error of running a tool. *)
  runner_Run : tool.Tool -> list string -> World -> (Z * option string) * World
}.
Arguments os_Stat {World}.
Arguments time_Now {World}.
Arguments runner_Run {World}.

(** ** [internal/freshness] *)

Module freshness.
Local Open Scope Z_scope.

Definition Nanosecond : Z := 1.
Definition Second : Z := 1000000000 * Nanosecond.
Definition Hour : Z := 3600 * Second.

Definition minDuration : Z := - 2 ^ 63.
Definition maxDuration : Z := 2 ^ 63 - 1.

(** [Time.Sub]: the difference, kept within the range of a duration. *)
Definition Sub (t u : Z) : Z :=
  if t - u <? minDuration then minDuration
  else if maxDuration <? t - u then maxDuration
  else t - u.

Definition Thresholds : gmap string Z :=
  list_to_map
    [("daily", 24 * Hour);
     ("weekly", 7 * 24 * Hour);
     ("monthly", 30 * 24 * Hour);
     ("manual", 365 * 24 * Hour * 100)].

(** [Thresholds[name]] of a key that is present. *)
Definition threshold (name : string) : Z :=
  default 0 (Thresholds !! name).

Definition maxAgeOf (freshnessPolicy : string) : Z :=
  match Thresholds !! freshnessPolicy with
  | Some maxAge => maxAge
  | None => threshold "manual"
  end.

Section Check.
Context {World : Type} (P : Platform World).

(** [formatAge] computes hours and minutes in [float64]; its text is
    not looked into here and the function is left open. *)
Variable formatAge : Z -> string -> string.

Definition Check (path freshnessPolicy : string) (w : World)
  : (bool * string) * World :=
  let '(r, w) := os_Stat P path w in
  match r with
  | NotExist => ((false, "missing"), w)
  | StatError err => ((false, "error: " +:+ err), w)
  | StatInfo modTime =>
      let '(now, w) := time_Now P w in
      let age := Sub now modTime in
      let maxAge := maxAgeOf freshnessPolicy in
      if age <? maxAge then ((true, formatAge age "fresh"), w)
      else ((false, formatAge age "stale"), w)
  end.

Definition CheckWithRoot (projectRoot relativePath freshnessPolicy : string)
           (w : World) : (bool * string) * World :=
  let fullPath := filepath.Join [projectRoot; relativePath] in
  Check fullPath freshnessPolicy w.

Definition IsFresh (path freshnessPolicy : string) (w : World) : bool * World :=
  let '((fresh, _), w) := Check path freshnessPolicy w in (fresh, w).

End Check.

End freshness.

(** ** [cmd/tctl]: the resolver behind [tctl get] *)

Module resolver.

(** What the resolver asked of the world, in order: a freshness check
    of a path under a policy, or the run of a tool; each carries the
    target whose call of [ensureData] asked.  The messages printed on the
    way are left out. *)
Inductive Event :=
| EvCheck (target path policy : string)
| EvRun (target : string) (t : tool.Tool).

Record State (World : Type) := mkState {
  visited : gmap string bool;
  world : World;
  trace : list Event
}.
Arguments mkState {World}.
Arguments visited {World}.
Arguments world {World}.
Arguments trace {World}.

(** [visited[target]]: a missing key reads as false. *)
Definition isVisited {World} (st : State World) (target : string) : bool :=
  default false (visited st !! target).

Definition markVisited {World} (target : string) (st : State World) : State World :=
  mkState (<[target := true]> (visited st)) (world st) (trace st).

Definition record {World} (e : Event) (w : World) (st : State World) : State World :=
  mkState (visited st) w (trace st ++ [e]).

(** The targets for which a tool was run, in order. *)
Definition produced (tr : list Event) : list string :=
  omap (fun e => match e with EvRun target _ => Some target | _ => None end) tr.

(** The targets and paths of the freshness checks, in order. *)
Definition checked (tr : list Event) : list (string * string) :=
  omap (fun e => match e with
                 | EvCheck target path _ => Some (target, path)
                 | _ => None
                 end) tr.

(** The loop [for _, item := range items { if !ensureData(item) { return
    false } }]; [None] when a call runs out of fuel. *)
Fixpoint ensureAll {St : Type} (ensure : string -> St -> option (bool * St))
         (items : list string) (st : St) : option (bool * St) :=
  match items with
  | [] => Some (true, st)
  | item :: items' =>
      match ensure item st with
      | None => None
      | Some (false, st') => Some (false, st')
      | Some (true, st') => ensureAll ensure items' st'
      end
  end.

(** The path whose freshness is checked for tool [t]. *)
Definition outputPath (t : tool.Tool) : string :=
  if negb (filepath.IsAbs (tool.Output t)) then
    filepath.Join [filepath.Dir (tool.File t); ".."; tool.Output t]
  else tool.Output t.

Section Ensure.
Context {World : Type} (P : Platform World).
Variable formatAge : Z -> string -> string.
Variable cfg : config.Global.
Variable registry : tool.Registry.
(** [rangeOf data]: the order in which the loop of
    [FindByProvides(data)] meets the keys of the registry. One
    invocation looks a name up at most once, after marking it. *)
Variable rangeOf : string -> list string.

(** [fuel] bounds the depth of the recursion; [None] is "out of
    fuel", never a result of the program. *)
Fixpoint ensureData (fuel : nat) (target : string) (st : State World)
  : option (bool * State World) :=
  match fuel with
  | O => None
  | S fuel' =>
      if isVisited st target then Some (true, st)
      else
        let st := markVisited target st in
        match config.GetIntent cfg target with
        | Some intent =>
            ensureAll (ensureData fuel') (config.Includes intent) st
        | None =>
            match tool.FindByProvides (rangeOf target) registry target with
            | None => Some (false, st)
            | Some t =>
                let '(fresh, st) :=
                  if negb (String.eqb (tool.Output t) EmptyString) then
                    let path := outputPath t in
                    let '((fresh, _), w) :=
                      freshness.Check P formatAge path (tool.Freshness t)
                                      (world st) in
                    (fresh, record (EvCheck target path (tool.Freshness t)) w st)
                  else (false, st) in
                if fresh then Some (true, st)
                else
                  match ensureAll (ensureData fuel') (tool.Requires t) st with
                  | None => None
                  | Some (false, st) => Some (false, st)
                  | Some (true, st) =>
                      let '((exitCode, err), w) :=
                        runner_Run P t [] (world st) in
                      let st := record (EvRun target t) w st in
                      match err with
                      | Some _ => Some (false, st)
                      | None =>
                          if negb (exitCode =? 0)%Z then Some (false, st)
                          else Some (true, st)
                      end
                  end
            end
        end
  end.

End Ensure.

End resolver.

(** ** Vocabulary of the statements about paths *)

Module filepath_spec.
Import strings filepath.
Local Open Scope list_scope.

(** The directory one level above [dir]. *)
Definition parentDir (dir : string) : string := filepath.Join [dir; ".."].

(** The output path as the specification words it: an absolute output
    as it is, any other joined to the parent of the directory of the
    tool's file. *)
Definition resolvedOutput (t : tool.Tool) : string :=
  if IsAbs (tool.Output t) then tool.Output t
  else filepath.Join [parentDir (Dir (tool.File t)); tool.Output t].

(** No separator occurs in [s]. *)
Fixpoint noSep (s : string) : bool :=
  match s with
  | EmptyString => true
  | String c r => negb (Ascii.eqb c sep) && noSep r
  end.

(** A path element that [Clean] keeps as it is. *)
Definition normal (e : string) : Prop :=
  e <> EmptyString /\ e <> "." /\ e <> ".." /\ noSep e = true.

(** The shape of the stack of [Clean]: kept elements above a run of
    [..], and no [..] at all in a rooted path. *)
Definition stackForm (rooted : bool) (stack : list string) : Prop :=
  exists kept k,
    stack = kept ++ repeat ".." k /\ Forall normal kept /\
    (rooted = true -> k = 0).

End filepath_spec.

(** ** Vocabulary of the statements about the scanner *)

Module scanner_spec.
Import strings scanner.
Local Open Scope list_scope.

(** The lines of a documentation block. *)
Definition docLines (doc : string) : list string := SplitByte doc newline.

(** [toolLine line] is [Some X] when [line], trimmed, is a tag
    [@tool X]. *)
Definition toolLine (line : string) : option string :=
  let trimmed := TrimSpace line in
  if HasPrefix trimmed "@tool " then Some (TrimSpace (dropBytes 6 trimmed))
  else None.

(** The names given by the [@tool] lines of a block, in order. *)
Definition toolNames (doc : string) : list string :=
  omap toolLine (docLines doc).

(** The claim on [@tool], as worded: any [@tool X] line of the block,
    with [X] not empty, names the descriptor. *)
Definition any_tool_line_names_descriptor : Prop :=
  forall doc line X,
    line ∈ docLines doc -> toolLine line = Some X -> X <> EmptyString ->
    tool.Name <$> parseDocstringTags doc = Some X.

(** A line can be a description: it is not empty and has no [@] in
    front, once trimmed. *)
Definition plainLine (trimmed : string) : bool :=
  negb (HasPrefix trimmed "@") && negb (String.eqb trimmed EmptyString).

(** The name is unset and nothing is provided yet: in a state of the
    parser, and after the lines [before]. *)
Definition unnamedState (st : ParseState) : bool :=
  String.eqb (tool.Name (ps_tool st)) EmptyString &&
  Nat.eqb (length (tool.Provides (ps_tool st))) 0.

Definition unnamed (before : list string) : bool :=
  unnamedState (parseLines before).

(** The candidate description lines as the claim words them: the plain
    lines met while the block is still unnamed.  [before] are the lines
    already passed. *)
Fixpoint claimedCandidates (before rest : list string) : list string :=
  match rest with
  | [] => []
  | line :: rest' =>
      let trimmed := TrimSpace line in
      (if plainLine trimmed && unnamed before then [trimmed] else []) ++
      claimedCandidates (before ++ [line]) rest'
  end.

(** The candidates of the parser: as above, and outside an interface
    block. *)
Fixpoint candidates (before rest : list string) : list string :=
  match rest with
  | [] => []
  | line :: rest' =>
      let trimmed := TrimSpace line in
      (if plainLine trimmed && unnamed before &&
          negb (ps_inInterface (parseLines before))
       then [trimmed] else []) ++
      candidates (before ++ [line]) rest'
  end.

(** The second of two or more, the only one, or nothing. *)
Definition secondOrOnly (l : list string) : string :=
  match l with
  | _ :: second :: _ => second
  | [only] => only
  | [] => EmptyString
  end.

(** The claim on the description, as worded. *)
Definition description_from_claimed_candidates : Prop :=
  forall doc,
    tool.Description <$> parseDocstringTags doc
    = Some (secondOrOnly (claimedCandidates [] (docLines doc))).

(** Lines the extraction passes over before a block opens. *)
Definition isComment (line : string) : bool := HasPrefix (TrimSpace line) "#".
Definition isBlank (line : string) : bool := String.eqb (TrimSpace line) EmptyString.

(** [opener line]: the delimiter with which [line] opens a block and the
    text after it. *)
Definition opener (line : string) : option (string * string) :=
  let trimmed := TrimSpace line in
  if HasPrefix trimmed tripleDouble || HasPrefix trimmed tripleSingle
  then Some (takeBytes 3 trimmed, dropBytes 3 trimmed)
  else None.

(** Lines that the extraction accumulates inside a block. *)
Definition notComment (line : string) : bool := negb (isComment line).

(** A line of an open block that does not close it: the delimiter does
    not occur in it, or it is passed over as a comment. *)
Definition keepsOpen (delim line : string) : bool :=
  isComment line || negb (Contains line delim).

(** The lines of a file: [pre], a line that opens a block with [delim]
    followed by [rest], then [body]. *)
Definition opensBlock (lines pre : list string) (openLine delim rest : string)
           (body : list string) : Prop :=
  lines = pre ++ openLine :: body /\
  forallb (fun l => isComment l || isBlank l) pre = true /\
  opener openLine = Some (delim, rest) /\
  Contains rest delim = false.

(** A block is opened and the file ends, without a read error, before
    the block is closed. *)
Definition unterminated (file : FileData) : Prop :=
  exists pre openLine delim rest body,
    opensBlock (fd_lines file) pre openLine delim rest body /\
    forallb (keepsOpen delim) body = true /\
    fd_err file = None.

(** A block is opened and closed by a later line. *)
Definition terminated (file : FileData) : Prop :=
  exists pre openLine delim rest body closeLine post,
    opensBlock (fd_lines file) pre openLine delim rest (body ++ closeLine :: post) /\
    forallb (keepsOpen delim) body = true /\
    keepsOpen delim closeLine = false.

(** The claim on unterminated blocks, as worded: what the extraction
    returns tells an unterminated block from a terminated one. *)
Definition unterminated_is_told_apart : Prop :=
  forall f g,
    unterminated f -> terminated g ->
    extractPythonDocstring f <> extractPythonDocstring g.

End scanner_spec.

(** ** Vocabulary of the statements about freshness *)

Module freshness_spec.
Local Open Scope Z_scope.

(** The policy table as the specification words it: the maximum age in
    hours; every name other than the first three has the age of
    [manual], a hundred years of 365 days. *)
Definition policyHours (policy : string) : Z :=
  if String.eqb policy "daily" then 24
  else if String.eqb policy "weekly" then 168
  else if String.eqb policy "monthly" then 720
  else 876000.

Definition policyThreshold (policy : string) : Z :=
  policyHours policy * freshness.Hour.

End freshness_spec.

(** ** Vocabulary of the statements about the resolver *)

Module resolver_spec.
Import resolver.
Local Open Scope list_scope.

Section Extends.
Context {World : Type}.
Implicit Types st : State World.

(** [extends st st']: [st'] is reached from [st] by marking names and by
    asking the world: the trace has grown, and the tools run in between
    were run for names that [st] had not marked and [st'] has, each name
    once. *)
Definition extends st st' : Prop :=
  (forall x, isVisited st x = true -> isVisited st' x = true) /\
  exists more,
    trace st' = trace st ++ more /\
    NoDup (produced more) /\
    forall x, x ∈ produced more -> isVisited st x = false /\ isVisited st' x = true.

(** The state in which [tctl get] starts the resolver: nothing visited,
    nothing asked yet. *)
Definition initial (w : World) : State World := mkState ∅ w [].

End Extends.

(** All names the resolver can be sent to from inside a call: the
    members of the intents and the requirements of the tools. *)
Definition names (cfg : config.Global) (registry : tool.Registry) : list string :=
  concat (map (fun kv => config.Includes kv.2) (map_to_list (config.Intents cfg))) ++
  concat (map (fun kv => tool.Requires kv.2) (map_to_list (tool.Tools registry))).

(** How many of [l] are not marked in [st]. *)
Definition unvisited {World} (st : State World) (l : list string) : nat :=
  length (filter (fun x => isVisited st x = false) l).

(** A recursion depth that every call stays below. *)
Definition enoughFuel (cfg : config.Global) (registry : tool.Registry) : nat :=
  S (S (length (names cfg registry))).

End resolver_spec.

(** ** A concrete world and small catalogues, for the examples *)

Module sample.
Import resolver resolver_spec.
Import strings(nl).
Local Open Scope list_scope.

(** Files with their modification times, and a clock. *)
Record TestWorld := mkTestWorld {
  tw_files : gmap string Z;
  tw_clock : Z;
  (** the exit code the next tool runs end with *)
  tw_exit : Z
}.

(** Running a tool takes one second and ends with [tw_exit]; on exit code
    0 the tool has written its output file, if it declares one. *)
Definition testRun (t : tool.Tool) (args : list string) (w : TestWorld)
  : (Z * option string) * TestWorld :=
  let now := (tw_clock w + freshness.Second)%Z in
  let files :=
    if (tw_exit w =? 0)%Z && negb (String.eqb (tool.Output t) EmptyString)
    then <[outputPath t := now]> (tw_files w)
    else tw_files w in
  ((tw_exit w, None), mkTestWorld files now (tw_exit w)).

Definition testPlatform : Platform TestWorld :=
  mkPlatform TestWorld
    (fun path w =>
       (match tw_files w !! path with
        | Some modTime => StatInfo modTime
        | None => NotExist
        end, w))
    (fun w => (tw_clock w, w))
    testRun.

(** A stand-in for [formatAge]. *)
Definition testFormatAge (age : Z) (prefix : string) : string := prefix.

Definition mkSimpleTool (name file : string) (provides requires : list string)
           (output policy : string) : tool.Tool :=
  tool.mkTool name EmptyString file "python" EmptyString provides requires
              output policy [] [] [] ∅ [].

Definition registryOf (tools : list tool.Tool) : tool.Registry :=
  fold_left (fun r t => tool.Add r (Some t)) tools tool.NewRegistry.

Definition noIntents : config.Global := config.mkGlobal ∅.

Definition emptyWorld : TestWorld := mkTestWorld ∅ 1000000 0.

(** The scenario of the specification: [a] provides [x] and requires [y];
    [b] provides [y] into [out.csv], to be refreshed daily. *)
Definition toolA : tool.Tool :=
  mkSimpleTool "a" "root/tools/a.py" ["x"] ["y"] EmptyString "manual".
Definition toolB : tool.Tool :=
  mkSimpleTool "b" "root/tools/b.py" ["y"] [] "out.csv" "daily".
Definition abRegistry : tool.Registry := registryOf [toolA; toolB].
Definition abOrder (data : string) : list string := ["a"; "b"].

(** A diamond: [top] needs [left] and [right], both need [base]. *)
Definition diamondRegistry : tool.Registry :=
  registryOf
    [mkSimpleTool "t-top" "tools/top.py" ["top"] ["left"; "right"] EmptyString "manual";
     mkSimpleTool "t-left" "tools/left.py" ["left"] ["base"] EmptyString "manual";
     mkSimpleTool "t-right" "tools/right.py" ["right"] ["base"] EmptyString "manual";
     mkSimpleTool "t-base" "tools/base.py" ["base"] [] EmptyString "manual"].
Definition diamondOrder (data : string) : list string :=
  ["t-base"; "t-left"; "t-right"; "t-top"].

(** A cycle between two tools, and one through an intent. *)
Definition cycleRegistry : tool.Registry :=
  registryOf
    [mkSimpleTool "t-a" "tools/a.py" ["A"] ["B"] EmptyString "manual";
     mkSimpleTool "t-b" "tools/b.py" ["B"] ["A"] EmptyString "manual";
     mkSimpleTool "t-c" "tools/c.py" ["C"] ["everything"] EmptyString "manual"].
Definition cycleOrder (data : string) : list string := ["t-a"; "t-b"; "t-c"].
Definition cycleIntents : config.Global :=
  config.mkGlobal {[ "everything" := config.mkIntent "all of it" ["C"; "A"] ]}.

Definition run (cfg : config.Global) (registry : tool.Registry)
           (order : string -> list string) (fuel : nat) (target : string)
           (st : State TestWorld) : option (bool * State TestWorld) :=
  ensureData testPlatform testFormatAge cfg registry order fuel target st.

(** [out.csv] was written an hour ago. *)
Definition freshWorld : TestWorld :=
  mkTestWorld {[ "root/out.csv" := 0%Z ]} freshness.Hour 0.

(** What the examples look at in a result: the answer, the targets
    produced and the paths checked. *)
Definition summary (r : option (bool * State TestWorld))
  : option (bool * list string * list (string * string)) :=
  match r with
  | Some (b, st) => Some (b, produced (trace st), checked (trace st))
  | None => None
  end.

(** The documentation block of the example in the README. *)
Definition readme_docstring : string :=
  nl +:+ "analyze_logs.py" +:+ nl +:+ nl +:+
  "@tool analyze-logs" +:+ nl +:+
  "@provides log-report" +:+ nl +:+
  "@output data/log_report.json" +:+ nl +:+
  "@freshness daily" +:+ nl +:+ nl +:+
  "@capability Parses server logs and extracts error patterns" +:+ nl +:+
  "@boundary Does NOT send alerts (use notify-errors for that)" +:+ nl +:+ nl +:+
  "@keywords logs, errors, parsing, analysis" +:+ nl +:+ nl +:+
  "@interface" +:+ nl +:+
  "--input: file, required - Path to log file" +:+ nl +:+
  "--format: string, default=json - Output format (json, csv)" +:+ nl +:+ nl +:+
  "@example tctl run analyze-logs --input /var/log/app.log" +:+ nl.

(** A small tree of files for the scanner. *)
Definition quoted (docLines : list string) : scanner.FileData :=
  scanner.mkFileData
    ([scanner.tripleDouble] ++ docLines ++ [scanner.tripleDouble; "import sys"]) None.

Definition fileA : scanner.FileData :=
  quoted ["a.py"; "Makes x from y."; "@tool a"; "@provides x"; "@requires y"].
Definition fileB : scanner.FileData :=
  quoted ["@tool b"; "@provides y"; "@output out.csv"; "@freshness daily"].
Definition fileHook : scanner.FileData := quoted ["@tool hook"; "@provides z"].
Definition filePlain : scanner.FileData :=
  scanner.mkFileData ["import os"; "print(os.name)"] None.
Definition fileNoTool : scanner.FileData := quoted ["Only prose."].
Definition fileCut : scanner.FileData :=
  scanner.mkFileData [scanner.tripleDouble; "@tool cut"] (Some "token too long").
Definition fileOpen : scanner.FileData :=
  scanner.mkFileData [scanner.tripleDouble; "abc"; EmptyString] None.

Definition readmeFile : scanner.FileData :=
  scanner.mkFileData
    (["#!/usr/bin/env python3"; scanner.tripleDouble] ++
     removelast (List.tl (strings.SplitByte readme_docstring strings.newline)) ++
     [scanner.tripleDouble; "import sys"]) None.

Definition sampleTree : scanner.Node :=
  scanner.NDir "root" None
    [scanner.NDir ".git" None [scanner.NFile "hook.py"];
     scanner.NDir "locked" (Some "permission denied") [scanner.NFile "hook.py"];
     scanner.NDir "pkg.egg-info" None [scanner.NFile "hook.py"];
     scanner.NDir "tools" None
       [scanner.NFile "_private.py"; scanner.NFile "a.py"; scanner.NFile "b.py";
        scanner.NFile "cut.py"; scanner.NBroken "gone.py" "no such file";
        scanner.NFile "notes.txt"; scanner.NFile "notool.py";
        scanner.NFile "plain.py"; scanner.NFile "secret.py"]].

Definition sampleFiles : gmap string (string + scanner.FileData) :=
  list_to_map
    [("root/.git/hook.py", inr fileHook);
     ("root/locked/hook.py", inr fileHook);
     ("root/pkg.egg-info/hook.py", inr fileHook);
     ("root/tools/_private.py", inr fileHook);
     ("root/tools/a.py", inr fileA);
     ("root/tools/b.py", inr fileB);
     ("root/tools/cut.py", inr fileCut);
     ("root/tools/notes.txt", inr fileHook);
     ("root/tools/notool.py", inr fileNoTool);
     ("root/tools/plain.py", inr filePlain);
     ("root/tools/secret.py", inl "permission denied");
     ("tools/analyze_logs.py", inr readmeFile);
     ("tools/open.py", inr fileOpen)].

Definition sampleFS : scanner.FS :=
  scanner.mkFS
    (fun dir => String.eqb dir "nowhere")
    (fun root =>
       if String.eqb root "root" then inr sampleTree
       else inl "permission denied")
    (fun path => default (inl "no such file") (sampleFiles !! path)).

(** The names and source files of the tools of a scan result. *)
Definition found (r : option tool.Registry * option string)
  : option (list (string * string)) * option string :=
  (option_map (fun reg => map (fun kv => (kv.1, tool.File kv.2))
                              (map_to_list (tool.Tools reg))) r.1,
   r.2).

End sample.

(** ** Vocabulary of the statements about tags *)

Module tags_spec.
Import strings scanner scanner_spec.
Local Open Scope list_scope.

(** The value of a tag line: [Some v] when the trimmed line starts with
    the tag [prefix], [v] being what follows it, trimmed. *)
Definition tagValue (prefix line : string) : option string :=
  let trimmed := TrimSpace line in
  if HasPrefix trimmed prefix
  then Some (TrimSpace (dropBytes (String.length prefix) trimmed))
  else None.

(** The entries a line adds to a list tag: the fields after the tag, or
    the one trimmed value. *)
Definition tagFields (prefix line : string) : list string :=
  let trimmed := TrimSpace line in
  if HasPrefix trimmed prefix
  then Fields (dropBytes (String.length prefix) trimmed)
  else [].

Definition tagEntry (prefix line : string) : list string :=
  match tagValue prefix line with
  | Some v => [v]
  | None => []
  end.

(** The keywords of a line: the pieces between commas and white space
    that are not empty. *)
Definition tagKeywords (line : string) : list string :=
  match tagValue "@keywords " line with
  | Some v =>
      List.filter (fun kw => negb (String.eqb kw EmptyString))
                  (List.map TrimSpace (splitKeywords EmptyString v))
  | None => []
  end.

End tags_spec.

(** ** Vocabulary of the statements about the interface block *)

Module interface_spec.
Import strings scanner.
Local Open Scope list_scope.

Fixpoint allBytes (p : ascii -> bool) (s : string) : bool :=
  match s with
  | EmptyString => true
  | String c r => p c && allBytes p r
  end.

(** An argument name: two hyphens followed by at least one letter,
    digit, underscore or hyphen. *)
Definition argName (name : string) : Prop :=
  exists nm, name = "--" +:+ nm /\ nm <> EmptyString /\
             allBytes isNameByte nm = true.

(** The specification of an argument: what stands before the first
    [" - "] of the text after the colon, cut at the commas. *)
Definition specParts (rest : string) : list string :=
  let specPart :=
    match Index rest " - " with
    | Some idx => takeBytes idx rest
    | None => rest
    end in
  List.map TrimSpace (SplitByte specPart ","%char).

(** The value of the last [default=] modifier among [parts]. *)
Definition lastDefault (parts : list string) : string :=
  default EmptyString
    (last (omap (fun part =>
                   if String.eqb part "required" then None
                   else if HasPrefix part "default="
                   then Some (dropBytes 8 part) else None) parts)).

End interface_spec.

(** ** [internal/runner] *)

Module runner.
Import strings.
Local Open Scope list_scope.

(** How [cmd.Run] ends: without an error, with an [*exec.ExitError]
    that carries the exit code, or with another error. *)
Inductive CmdResult :=
| CmdOk
| CmdExit (code : Z)
| CmdError (err : string).

(** The calls into [os] and [os/exec]: [exec.LookPath], whether
    [os.Stat] gives no error, and the run of a command. *)
Record Exec (World : Type) := mkExec {
  exec_LookPath : string -> World -> option string * World;
  exec_StatOk : string -> World -> bool * World;
  exec_Run : string -> list string -> World -> CmdResult * World
}.
Arguments exec_LookPath {World}.
Arguments exec_StatOk {World}.
Arguments exec_Run {World}.

Record Runner (World : Type) := mkRunner {
  Runner_Language : string;
  Runner_CanRun : tool.Tool -> bool;
  Runner_Run : tool.Tool -> list string -> World -> (Z * option string) * World
}.
Arguments Runner_Language {World}.
Arguments Runner_CanRun {World}.
Arguments Runner_Run {World}.

Record PythonRunner := mkPythonRunner { PythonPath : string }.

Section Runner.
Context {World : Type} (E : Exec World).

Definition execCommand (name : string) (args : list string) (w : World)
  : (Z * option string) * World :=
  let '(r, w) := exec_Run E name args w in
  match r with
  | CmdExit code => ((code, None), w)
  | CmdError err => ((1%Z, Some err), w)
  | CmdOk => ((0%Z, None), w)
  end.

Definition PythonRunner_CanRun (t : tool.Tool) : bool :=
  String.eqb (tool.Language t) "python" ||
  String.eqb (filepath.Ext (tool.File t)) ".py".

(** The interpreter: the configured one, [uv] when it is on the path
    and there is a [pyproject.toml], [python3], [python], or nothing. *)
Definition findPython (r : PythonRunner) (w : World) : string * World :=
  if negb (String.eqb (PythonPath r) EmptyString) then (PythonPath r, w)
  else
    let '(uv, w) := exec_LookPath E "uv" w in
    let '(chosen, w) :=
      match uv with
      | Some uvPath =>
          let '(ok, w) := exec_StatOk E "pyproject.toml" w in
          ((if ok then Some uvPath else None), w)
      | None => (None, w)
      end in
    match chosen with
    | Some uvPath => (uvPath, w)
    | None =>
        let '(p3, w) := exec_LookPath E "python3" w in
        match p3 with
        | Some path => (path, w)
        | None =>
            let '(p, w) := exec_LookPath E "python" w in
            match p with
            | Some path => (path, w)
            | None => (EmptyString, w)
            end
        end
    end.

Definition PythonRunner_Run (r : PythonRunner) (t : tool.Tool)
           (args : list string) (w : World) : (Z * option string) * World :=
  let '(pythonPath, w) := findPython r w in
  if String.eqb pythonPath EmptyString
  then ((1%Z, Some "python interpreter not found"), w)
  else execCommand pythonPath ([tool.File t] ++ args) w.

Definition RunWithUV (r : PythonRunner) (t : tool.Tool)
           (args : list string) (w : World) : (Z * option string) * World :=
  let '(uv, w) := exec_LookPath E "uv" w in
  match uv with
  | None => PythonRunner_Run r t args w
  | Some uvPath => execCommand uvPath (["run"; "python"; tool.File t] ++ args) w
  end.

Definition pythonRunner (r : PythonRunner) : Runner World :=
  mkRunner World "python" PythonRunner_CanRun (PythonRunner_Run r).

(** The package variable [runners] after [init]. *)
Definition registered : list (Runner World) :=
  [pythonRunner (mkPythonRunner EmptyString)].

Definition GetRunner (runners : list (Runner World)) (t : tool.Tool)
  : option (Runner World) :=
  List.find (fun r => Runner_CanRun r t) runners.

Definition GetRunnerByLanguage (runners : list (Runner World)) (lang : string)
  : option (Runner World) :=
  List.find (fun r => String.eqb (Runner_Language r) lang) runners.

Definition UnsupportedLanguageError (language : string) : string :=
  "unsupported language: " +:+ language.

(** [runner.Run]. *)
Definition Run (runners : list (Runner World)) (t : tool.Tool)
           (args : list string) (w : World) : (Z * option string) * World :=
  match GetRunner runners t with
  | None => ((1%Z, Some (UnsupportedLanguageError (tool.Language t))), w)
  | Some runner => Runner_Run runner t args w
  end.

End Runner.

End runner.

(** ** A machine for the examples of the runner *)

Module runner_sample.
Import runner.
Local Open Scope list_scope.

(** The commands run so far, the last one first; [python3] is on the
    path and every command ends with exit code 2. *)
Definition Machine : Type := list (string * list string).

Definition machine : Exec Machine :=
  mkExec Machine
    (fun name w =>
       (if String.eqb name "python3" then Some "/usr/bin/python3" else None, w))
    (fun path w => (false, w))
    (fun name args w => (CmdExit 2, (name, args) :: w)).

(** Nothing is on the path. *)
Definition bare : Exec Machine :=
  mkExec Machine (fun name w => (None, w)) (fun path w => (false, w))
         (fun name args w => (CmdError "exec failed", (name, args) :: w)).

End runner_sample.

(** ** Vocabulary of the statements about the runs of tools *)

Module runs_spec.
Import resolver.
Local Open Scope list_scope.

(** Every run in the trace is justified: it was made for a name that is
    marked, by a tool of the registry that provides the name, and all
    requirements of that tool are marked. *)
Definition justified {World} (registry : tool.Registry) (st : State World) : Prop :=
  forall target t,
    EvRun target t ∈ trace st ->
    isVisited st target = true /\
    target ∈ tool.Provides t /\
    (exists name, tool.Tools registry !! name = Some t) /\
    forall dep, dep ∈ tool.Requires t -> isVisited st dep = true.

End runs_spec.

(** ** Vocabulary of the statements about the registry *)

Module registry_spec.
Local Open Scope list_scope.

(** The tools among [tools] that [Get] can find under [name]. *)
Definition named (name : string) (tools : list (option tool.Tool))
  : list tool.Tool :=
  List.filter (fun t => String.eqb (tool.Name t) name) (omap id tools).

(** A property of all tools of a registry, each under its own,
    non-empty name. *)
Definition allTools (Q : tool.Tool -> Prop) (r : tool.Registry) : Prop :=
  map_Forall (fun name t => tool.Name t = name /\ name <> EmptyString /\ Q t)
             (tool.Tools r).

End registry_spec.

(** ** [internal/config]: the registered sources *)

Module sources.
Import strings.
Local Open Scope list_scope.

Record Source := mkSource {
  Path : string;
  Name : string;
  Added : Z
}.

(** What [AddSource] and [RemoveSource] ask of the world: the absolute
    form of a path (or an error), whether [os.Stat] finds a directory
    (or an error), the time, and [Save] with its error. *)
Record Env (World : Type) := mkEnv {
  env_Abs : string -> World -> (string + string) * World;
  env_StatIsDir : string -> World -> (string + bool) * World;
  env_Now : World -> Z * World;
  env_Save : list Source -> World -> option string * World
}.
Arguments env_Abs {World}.
Arguments env_StatIsDir {World}.
Arguments env_Now {World}.
Arguments env_Save {World}.


Definition FindSourceByName (srcs : list Source) (name : string) : option Source :=
  List.find (fun src => String.eqb (Name src) name) srcs.

Section Sources.
Context {World : Type} (E : Env World).

(** The error, the sources afterwards, and the world. *)
Definition AddSource (path name : string) (srcs : list Source) (w : World)
  : option string * list Source * World :=
  let '(abs, w) := env_Abs E path w in
  match abs with
  | inl err => (Some err, srcs, w)
  | inr absPath =>
      let '(info, w) := env_StatIsDir E absPath w in
      match info with
      | inl _ => (Some ("path does not exist: " +:+ absPath), srcs, w)
      | inr false => (Some ("path is not a directory: " +:+ absPath), srcs, w)
      | inr true =>
          if existsb (fun src => String.eqb (Path src) absPath) srcs
          then (Some ("already registered: " +:+ absPath), srcs, w)
          else
            let name := if String.eqb name EmptyString then filepath.Base absPath else name in
            let '(now, w) := env_Now E w in
            let srcs := srcs ++ [mkSource absPath name now] in
            let '(err, w) := env_Save E srcs w in
            (err, srcs, w)
      end
  end.

(** The loop of [RemoveSource]: the sources kept, and whether one was
    left out. *)
Fixpoint removeLoop (absPath pathOrName : string) (srcs : list Source)
         (newSources : list Source) (found : bool) : list Source * bool :=
  match srcs with
  | [] => (newSources, found)
  | src :: srcs' =>
      if String.eqb (Path src) absPath || String.eqb (Name src) pathOrName
      then removeLoop absPath pathOrName srcs' newSources true
      else removeLoop absPath pathOrName srcs' (newSources ++ [src]) found
  end.

(** An error of [filepath.Abs] is dropped; the path is then empty. *)
Definition RemoveSource (pathOrName : string) (srcs : list Source) (w : World)
  : option string * list Source * World :=
  let '(abs, w) := env_Abs E pathOrName w in
  let absPath := match abs with inr p => p | inl _ => EmptyString end in
  let '(newSources, found) := removeLoop absPath pathOrName srcs [] false in
  if negb found then (Some ("not registered: " +:+ pathOrName), srcs, w)
  else
    let '(err, w) := env_Save E newSources w in
    (err, newSources, w).

End Sources.

(** The loop of [Load] over the sources: [readState path] is the
    intents of the file [path] when it can be read and parsed.  Within
    one file the names are different, so the order of that loop does not
    show. *)
Definition loadIntents (readState : string -> option (gmap string config.Intent))
           (srcs : list Source) : config.Global :=
  config.mkGlobal
    (fold_left
       (fun intents src =>
          let statePath := filepath.Join [filepath.Dir (Path src); "state.yaml"] in
          match readState statePath with
          | Some srcIntents => srcIntents ∪ intents
          | None => intents
          end)
       srcs ∅).

End sources.

(** ** Vocabulary of the statements about the sources *)

Module sources_spec.
Import sources.
Local Open Scope list_scope.

(** [src] is what [RemoveSource] is asked to remove. *)
Definition meant (absPath pathOrName : string) (src : Source) : bool :=
  String.eqb (Path src) absPath || String.eqb (Name src) pathOrName.

(** The intents that the state file beside [src] defines. *)
Definition stateOf (readState : string -> option (gmap string config.Intent))
           (src : Source) : gmap string config.Intent :=
  default ∅ (readState (filepath.Join [filepath.Dir (Path src); "state.yaml"])).

(** A machine for the examples: every path is absolute and a directory,
    and saving fails. *)
Definition stubborn : Env unit :=
  mkEnv unit (fun path w => (inr path, w)) (fun path w => (inr true, w))
        (fun w => (0%Z, w)) (fun srcs w => (Some "disk full", w)).

End sources_spec.

(** ** [cmd/tctl]: the search behind [tctl find] *)

Module find.
Import strings.
Local Open Scope list_scope.
Local Open Scope Z_scope.

(** Go's [int] on the platforms the program is built for: 64 bits,
    wrapping around. *)
Definition wrapInt (z : Z) : Z := (z + 2 ^ 63) mod 2 ^ 64 - 2 ^ 63.

Record toolMatch := mkToolMatch {
  tm_tool : tool.Tool;
  tm_score : Z;
  tm_reasons : list string
}.

(** [if hit { score += weight; reasons = append(reasons, reason) }] *)
Definition bump (hit : bool) (weight : Z) (reason : string)
           (acc : Z * list string) : Z * list string :=
  if hit then (wrapInt (acc.1 + weight), acc.2 ++ [reason]) else acc.

Section Find.
(** [strings.ToLower] maps runes by the Unicode tables; the search does
    not depend on how. *)
Variable ToLower : string -> string.

(** The body of the loop over the tools: score and reasons of [t]. *)
Definition scoreTool (terms : list string) (t : tool.Tool) : Z * list string :=
  let acc := (0, []) in
  let nameLower := ToLower (tool.Name t) in
  let acc :=
    fold_left (fun acc term =>
                 bump (Contains nameLower term) 10
                      ("name contains '" +:+ term +:+ "'") acc) terms acc in
  let descLower := ToLower (tool.Description t) in
  let acc :=
    fold_left (fun acc term =>
                 bump (Contains descLower term) 5
                      ("description contains '" +:+ term +:+ "'") acc) terms acc in
  let acc :=
    fold_left (fun acc kw =>
                 let kwLower := ToLower kw in
                 fold_left (fun acc term =>
                              bump (Contains kwLower term || Contains term kwLower) 3
                                   ("keyword '" +:+ kw +:+ "'") acc) terms acc)
              (tool.Keywords t) acc in
  let acc :=
    fold_left (fun acc cap =>
                 let capLower := ToLower cap in
                 fold_left (fun acc term =>
                              bump (Contains capLower term) 4
                                   ("capability matches '" +:+ term +:+ "'") acc)
                           terms acc)
              (tool.Capabilities t) acc in
  fold_left (fun acc p =>
               let pLower := ToLower p in
               fold_left (fun acc term =>
                            bump (Contains pLower term) 3
                                 ("provides '" +:+ p +:+ "'") acc) terms acc)
            (tool.Provides t) acc.

Definition findToolMatches (tools : list tool.Tool) (searchTerms : string)
  : list toolMatch :=
  let terms := Fields searchTerms in
  fold_left (fun matches t =>
               let '(score, reasons) := scoreTool terms t in
               if 0 <? score then matches ++ [mkToolMatch t score reasons]
               else matches)
            tools [].

End Find.

End find.

(** ** Vocabulary of the statements about the search *)

Module find_spec.
Import strings.
Local Open Scope list_scope.

(** The search term occurs in the name, the description, a capability
    or a provided name of the tool, or it occurs in a keyword or a
    keyword in it; all in lower case. *)
Definition mentions (ToLower : string -> string) (t : tool.Tool) (term : string)
  : bool :=
  Contains (ToLower (tool.Name t)) term ||
  Contains (ToLower (tool.Description t)) term ||
  existsb (fun kw => Contains (ToLower kw) term || Contains term (ToLower kw))
          (tool.Keywords t) ||
  existsb (fun cap => Contains (ToLower cap) term) (tool.Capabilities t) ||
  existsb (fun p => Contains (ToLower p) term) (tool.Provides t).

(** How many tests the search makes on a tool. *)
Definition tests (terms : list string) (t : tool.Tool) : nat :=
  length terms * (2 + length (tool.Keywords t) + length (tool.Capabilities t)
                  + length (tool.Provides t)).

(** One test: whether it hits, its weight and its reason. *)
Definition Test : Type := (bool * Z * string)%type.

Definition bumpTest (acc : Z * list string) (c : Test) : Z * list string :=
  find.bump c.1.1 c.1.2 c.2 acc.

Definition weightOf (cs : list Test) : Z :=
  fold_right (fun (c : Test) z => if c.1.1 then (c.1.2 + z)%Z else z) 0%Z cs.

Definition reasonsOf (cs : list Test) : list string :=
  omap (fun c : Test => if c.1.1 then Some c.2 else None) cs.

(** All tests made on a tool, in the order of the program. *)
Definition testsOf (ToLower : string -> string) (terms : list string)
           (t : tool.Tool) : list Test :=
  List.map (fun term => (Contains (ToLower (tool.Name t)) term, 10%Z,
                         "name contains '" +:+ term +:+ "'")) terms ++
  List.map (fun term => (Contains (ToLower (tool.Description t)) term, 5%Z,
                         "description contains '" +:+ term +:+ "'")) terms ++
  flat_map (fun kw =>
              List.map (fun term =>
                          (Contains (ToLower kw) term || Contains term (ToLower kw), 3%Z,
                           "keyword '" +:+ kw +:+ "'")) terms)
           (tool.Keywords t) ++
  flat_map (fun cap =>
              List.map (fun term =>
                          (Contains (ToLower cap) term, 4%Z,
                           "capability matches '" +:+ term +:+ "'")) terms)
           (tool.Capabilities t) ++
  flat_map (fun p =>
              List.map (fun term =>
                          (Contains (ToLower p) term, 3%Z,
                           "provides '" +:+ p +:+ "'")) terms)
           (tool.Provides t).

End find_spec.

(** ** [internal/linter] *)

Module linter.
Import strings scanner.
Local Open Scope list_scope.

(** [Level] is a string type with three named values. *)
Definition Level : Type := string.
Definition LevelError : Level := "error".
Definition LevelWarning : Level := "warning".
Definition LevelInfo : Level := "info".

Record Message := mkMessage {
  msg_Level : Level;
  msg_File : string;
  msg_Line : Z;
  msg_Code : string;
  msg_Message : string
}.

Record Result := mkResult {
  Errors : list Message;
  Warnings : list Message;
  Info : list Message
}.

(** [&Result{}] *)
Definition emptyResult : Result := mkResult [] [] [].

Definition OK (r : Result) : bool := Nat.eqb (length (Errors r)) 0.

Definition Add (r : Result) (level : Level) (file : string) (line : Z)
           (code message : string) : Result :=
  let msg := mkMessage level file line code message in
  if String.eqb level LevelError then
    mkResult (Errors r ++ [msg]) (Warnings r) (Info r)
  else if String.eqb level LevelWarning then
    mkResult (Errors r) (Warnings r ++ [msg]) (Info r)
  else if String.eqb level LevelInfo then
    mkResult (Errors r) (Warnings r) (Info r ++ [msg])
  else r.

Definition validFreshness : gset string :=
  {[ "daily"; "weekly"; "monthly"; "manual" ]}.

(** [if cond { result.Add(...) }] *)
Definition addIf (cond : bool) (level : Level) (file : string) (line : Z)
           (code message : string) (r : Result) : Result :=
  if cond then Add r level file line code message else r.

Section Lint.
Variable scanners : list Scanner.
Variable fs : FS.
(** [filepath.Rel] with its error dropped, and [filepath.Abs]. *)
Variable Rel : string -> string -> string.
Variable Abs : string -> string + string.

Definition lintToolFile (path root : string) (result : Result) : Result :=
  let relPath := Rel root path in
  let relPath :=
    if String.eqb relPath EmptyString then filepath.Base path else relPath in
  match GetScanner scanners path with
  | None => result
  | Some s =>
      match Scan s fs path with
      | (_, Some err) =>
          Add result LevelError relPath 0 "P000" ("Could not parse: " +:+ err)
      | (None, None) =>
          Add result LevelError relPath 1 "D001" "Module missing docstring"
      | (Some t, None) =>
          if String.eqb (tool.Name t) EmptyString then
            Add result LevelError relPath 1 "T001" "Missing @tool tag in docstring"
          else
            let name := tool.Name t in
            let result :=
              addIf (Nat.eqb (length (tool.Provides t)) 0)
                    LevelWarning relPath 0 "T002"
                    (name +:+ ": Missing @provides tag") result in
            let result :=
              addIf (Nat.eqb (length (tool.Capabilities t)) 0)
                    LevelWarning relPath 0 "T003"
                    (name +:+ ": Missing @capability tags (at least one recommended)")
                    result in
            let result :=
              addIf (Nat.eqb (length (tool.Keywords t)) 0)
                    LevelWarning relPath 0 "T004"
                    (name +:+ ": Missing @keywords tag (reduces discoverability)")
                    result in
            let result :=
              addIf (Nat.ltb 0 (length (tool.Provides t)) &&
                     String.eqb (tool.Output t) EmptyString)
                    LevelWarning relPath 0 "T005"
                    (name +:+ ": Has @provides but no @output path") result in
            let result :=
              addIf (Nat.eqb (length (tool.Boundaries t)) 0)
                    LevelInfo relPath 0 "T006"
                    (name +:+ ": No @boundary tags (helps LLM know what tool doesn't do)")
                    result in
            let result :=
              addIf (negb (bool_decide (tool.Freshness t ∈ validFreshness)))
                    LevelError relPath 0 "T007"
                    (name +:+ ": Invalid @freshness '" +:+ tool.Freshness t +:+
                     "'. Must be one of: daily, weekly, monthly, manual") result in
            addIf (Nat.eqb (length (tool.Examples t)) 0)
                  LevelInfo relPath 0 "T010"
                  (name +:+ ": No @example provided") result
      end
  end.

(** The reading loop of [checkPythonDocstring]. *)
Fixpoint checkLoop (input : list string) (inDocstring : bool)
         (docstringDelim : string) (lines : list string) : bool * string :=
  match input with
  | [] => (inDocstring, Join lines nl)
  | line :: input' =>
      let trimmed := TrimSpace line in
      if HasPrefix trimmed "#" then
        checkLoop input' inDocstring docstringDelim lines
      else if negb inDocstring then
        if HasPrefix trimmed tripleDouble || HasPrefix trimmed tripleSingle then
          let docstringDelim := takeBytes 3 trimmed in
          let rest := dropBytes 3 trimmed in
          if Contains rest docstringDelim then
            (true, TrimSuffix rest docstringDelim)
          else checkLoop input' true docstringDelim (lines ++ [rest])
        else if negb (String.eqb trimmed EmptyString) then
          (false, EmptyString)
        else checkLoop input' inDocstring docstringDelim lines
      else
        match Index line docstringDelim with
        | Some idx => (true, Join (lines ++ [takeBytes idx line]) nl)
        | None => checkLoop input' true docstringDelim (lines ++ [line])
        end
  end.

(** The error of the line scanner is not asked for here. *)
Definition checkPythonDocstring (path : string) : bool * string :=
  match fs_open fs path with
  | inl _ => (false, EmptyString)
  | inr file => checkLoop (fd_lines file) false EmptyString []
  end.

Definition lintFileForCompatibility (path root : string) (result : Result)
  : Result :=
  let displayPath :=
    match Abs path with
    | inr p => p
    | inl _ => path
    end in
  let '(hasDocstring, docstringContent) := checkPythonDocstring path in
  if negb hasDocstring then
    Add result LevelError displayPath 1 "D001"
        "No module-level docstring. Add a triple-quoted docstring at the top of the file with @tool <name> tag."
  else
    let result :=
      addIf (negb (Contains docstringContent "@tool "))
            LevelError displayPath 1 "T001"
            "Docstring exists but missing @tool tag. Add '@tool <tool-name>' line inside the docstring."
            result in
    match GetScanner scanners path with
    | None => result
    | Some s =>
        match Scan s fs path with
        | (_, Some err) =>
            Add result LevelError displayPath 0 "P001" ("Parse error: " +:+ err)
        | (None, None) =>
            addIf (Contains docstringContent "@tool ")
                  LevelError displayPath 1 "T001"
                  "@tool tag found but could not parse. Check format: @tool <name>"
                  result
        | (Some t, None) =>
            let result :=
              addIf (Nat.eqb (length (tool.Provides t)) 0)
                    LevelWarning displayPath 0 "T002"
                    "Missing @provides tag. Add: @provides <artifact-name>" result in
            let result :=
              addIf (String.eqb (tool.Output t) EmptyString)
                    LevelWarning displayPath 0 "T005"
                    "Missing @output tag. Add: @output <path-or-description>" result in
            let result :=
              addIf (Nat.eqb (length (tool.Keywords t)) 0)
                    LevelInfo displayPath 0 "T004"
                    "Missing @keywords tag (improves discoverability). Add: @keywords <word1>, <word2>"
                    result in
            let result :=
              addIf (String.eqb (tool.Description t) EmptyString)
                    LevelInfo displayPath 0 "T008"
                    "Missing description. Add a description line after the tool name in the docstring."
                    result in
            let result :=
              addIf (Nat.eqb (size (tool.Interface t)) 0 &&
                     negb (Contains docstringContent "@interface"))
                    LevelInfo displayPath 0 "T009"
                    "No @interface block. Consider documenting CLI arguments if the tool accepts any."
                    result in
            let result :=
              addIf (Nat.ltb 0 (size (tool.Interface t)) &&
                     Nat.eqb (length (tool.Examples t)) 0)
                    LevelWarning displayPath 0 "T010"
                    "Tool has CLI arguments but no @example. Add: @example <command-line-example>"
                    result in
            addIf (Nat.ltb 0 (length (tool.Requires t)) &&
                   Nat.eqb (length (tool.Examples t)) 0)
                  LevelInfo displayPath 0 "T011"
                  ("Tool requires '" +:+ Join (tool.Requires t) ", " +:+
                   "'. Consider adding @example showing the full workflow.")
                  result
        end
    end.

End Lint.

End linter.

(** ** Vocabulary of the statements about the linter *)

Module linter_spec.
Import linter.
Local Open Scope list_scope.

(** The messages of a result. *)
Definition messages (r : Result) : list Message :=
  Errors r ++ Warnings r ++ Info r.

(** No message with [code] is new in [r']. *)
Definition nothingNew (code : string) (r r' : Result) : Prop :=
  forall m, m ∈ messages r' -> msg_Code m = code -> m ∈ messages r.

End linter_spec.

(** ** [cmd/tctl]: the validation of [tctl sync] *)

Module sync.
Local Open Scope list_scope.

(** The loop over the tools: [hasErrors] at its end. *)
Definition hasErrors (tools : list tool.Tool) : bool :=
  fold_left (fun hasErrors t =>
               if String.eqb (tool.Name t) EmptyString then true else hasErrors)
            tools false.

End sync.

(* ================================================================= *)
(** * Properties *)

Local Open Scope list_scope.

Example TrimSpace_ex :
  strings.TrimSpace ("  @tool  x " +:+ strings.ofChar "009"%char) = "@tool  x".
Proof. reflexivity. Qed.

(** U+00A0 and U+2003 are white space, the bytes of U+00E9 are not. *)
Example TrimSpace_unicode :
  let b (n : nat) := strings.ofChar (ascii_of_nat n) in
  strings.TrimSpace (b 194 +:+ b 160 +:+ b 195 +:+ b 169 +:+ " x"
                       +:+ b 226 +:+ b 128 +:+ b 131)
  = b 195 +:+ b 169 +:+ " x".
Proof. reflexivity. Qed.

Example Fields_ex : strings.Fields " a  bc d " = ["a"; "bc"; "d"].
Proof. reflexivity. Qed.

Example Split_ex :
  strings.SplitByte ("a" +:+ strings.ofChar strings.newline +:+ "b"
                         +:+ strings.ofChar strings.newline) strings.newline
  = ["a"; "b"; EmptyString].
Proof. reflexivity. Qed.

(** ** Paths: cleaning a cleaned prefix changes nothing *)

Module filepath_facts.
Import strings filepath filepath_spec.

(** *** Splitting at the separator *)

Lemma append_cons a (s t : string) : String a s +:+ t = String a (s +:+ t).
Proof. reflexivity. Qed.

Lemma append_empty_l (t : string) : EmptyString +:+ t = t.
Proof. reflexivity. Qed.

Lemma append_empty_r (s : string) : s +:+ EmptyString = s.
Proof.
  induction s as [|a s IH]; [done|]. by rewrite append_cons, IH.
Qed.

Lemma append_assoc (a b c : string) : (a +:+ b) +:+ c = a +:+ (b +:+ c).
Proof.
  induction a as [|x a IH]; [done|]. by rewrite !append_cons, IH.
Qed.

Lemma rev_app_rev_app x : forall cur acc,
  String.rev_app (String.rev_app x cur) acc = String.rev_app cur (x +:+ acc).
Proof.
  induction x as [|a x IH]; intros cur acc; [done|].
  cbn [String.rev_app]. by rewrite IH, append_cons.
Qed.

Lemma splitGo_noSep x : forall cur s,
  noSep x = true ->
  splitGo sep cur (x +:+ s) = splitGo sep (String.rev_app x cur) s.
Proof.
  induction x as [|a x IH]; intros cur s H; [done|].
  simpl in H. apply andb_true_iff in H as [Ha Hx]. apply negb_true_iff in Ha.
  rewrite append_cons. cbn [splitGo String.rev_app]. rewrite Ha. by apply IH.
Qed.

Lemma SplitByte_noSep x : noSep x = true -> SplitByte x sep = [x].
Proof.
  intros H. unfold SplitByte.
  rewrite <- (append_empty_r x) at 1. rewrite (splitGo_noSep x) by done.
  cbn [splitGo]. unfold String.rev. rewrite rev_app_rev_app.
  cbn [String.rev_app]. by rewrite append_empty_r.
Qed.

Lemma splitGo_sep a : forall cur b,
  splitGo sep cur (a +:+ String sep b)
  = splitGo sep cur a ++ splitGo sep EmptyString b.
Proof.
  induction a as [|c a IH]; intros cur b.
  - rewrite append_empty_l. cbn [splitGo]. by rewrite Ascii.eqb_refl.
  - rewrite append_cons. cbn [splitGo]. destruct (Ascii.eqb c sep).
    + by rewrite IH.
    + apply IH.
Qed.

Lemma SplitByte_sep a b :
  SplitByte (a +:+ "/" +:+ b) sep = SplitByte a sep ++ SplitByte b sep.
Proof. unfold SplitByte. apply (splitGo_sep a EmptyString b). Qed.

(** What [strings.Join] with one separator gives back when split. *)
Lemma SplitByte_Join elems :
  elems <> [] -> Forall (fun e => noSep e = true) elems ->
  SplitByte (strings.Join elems "/") sep = elems.
Proof.
  intros Hne H. induction H as [|x l Hx Hl IH]; [done|].
  destruct l as [|y l].
  - by apply SplitByte_noSep.
  - change (strings.Join (x :: y :: l) "/")
      with (x +:+ "/" +:+ strings.Join (y :: l) "/").
    rewrite SplitByte_sep, SplitByte_noSep by done.
    rewrite IH by done. done.
Qed.

Lemma noSep_rev_app x : forall cur,
  noSep (String.rev_app x cur) = noSep x && noSep cur.
Proof.
  induction x as [|a x IH]; intros cur; simpl; [done|].
  rewrite IH. simpl. destruct (Ascii.eqb a sep), (noSep x), (noSep cur); done.
Qed.

Lemma splitGo_elems_noSep s : forall cur,
  noSep cur = true -> Forall (fun e => noSep e = true) (splitGo sep cur s).
Proof.
  induction s as [|c s IH]; intros cur Hcur; simpl.
  - constructor; [|constructor]. unfold String.rev.
    by rewrite noSep_rev_app, Hcur.
  - destruct (Ascii.eqb c sep) eqn:E.
    + constructor; [|by apply IH].
      unfold String.rev. by rewrite noSep_rev_app, Hcur.
    + apply IH. simpl. by rewrite E, Hcur.
Qed.

Lemma SplitByte_elems_noSep s : Forall (fun e => noSep e = true) (SplitByte s sep).
Proof. by apply splitGo_elems_noSep. Qed.

(** *** The stack of [Clean] *)

Lemma normal_eqb e :
  normal e ->
  String.eqb e EmptyString = false /\ String.eqb e "." = false /\
  String.eqb e ".." = false.
Proof. intros (H1 & H2 & H3 & _). by rewrite !String.eqb_neq. Qed.

Lemma cleanStep_normal rooted stack e :
  normal e -> cleanStep rooted stack e = e :: stack.
Proof.
  intros (E1 & E2 & E3)%normal_eqb. unfold cleanStep. by rewrite E1, E2, E3.
Qed.

Lemma cleanStep_form rooted stack e :
  stackForm rooted stack -> noSep e = true ->
  stackForm rooted (cleanStep rooted stack e).
Proof.
  intros (kept & k & -> & Hkept & Hr) He. unfold cleanStep.
  destruct (String.eqb_spec e EmptyString) as [->|H1]; [by exists kept, k|].
  destruct (String.eqb_spec e ".") as [->|H2]; [by exists kept, k|].
  simpl. destruct (String.eqb_spec e "..") as [->|H3].
  - destruct kept as [|top kept].
    + destruct k as [|k]; simpl.
      * destruct rooted; [by exists [], 0|]. by exists [], 1.
      * exists [], (S (S k)). split; [done|]. split; [done|].
        intros Hroot. by specialize (Hr Hroot).
    + apply Forall_cons in Hkept as [Htop Hkept].
      destruct (normal_eqb _ Htop) as (_ & _ & E). simpl. rewrite E.
      by exists kept, k.
  - exists (e :: kept), k. split; [done|]. split; [|done].
    by constructor.
Qed.

Lemma fold_cleanStep_form rooted elems : forall stack,
  Forall (fun e => noSep e = true) elems -> stackForm rooted stack ->
  stackForm rooted (fold_left (cleanStep rooted) elems stack).
Proof.
  induction elems as [|e elems IH]; intros stack He Hs; [done|].
  apply Forall_cons in He as [He Hrest]. simpl.
  apply IH; [done|]. by apply cleanStep_form.
Qed.

Lemma fold_cleanStep_dots k : forall j,
  fold_left (cleanStep false) (repeat ".." k) (repeat ".." j) = repeat ".." (k + j).
Proof.
  induction k as [|k IH]; intros j; [done|].
  cbn [repeat fold_left].
  assert (cleanStep false (repeat ".." j) ".." = repeat ".." (S j)) as ->.
  { by destruct j. }
  rewrite IH. f_equal. lia.
Qed.

Lemma fold_cleanStep_normal rooted kept : forall stack,
  Forall normal kept ->
  fold_left (cleanStep rooted) kept stack = rev kept ++ stack.
Proof.
  induction kept as [|e kept IH]; intros stack H; [done|].
  apply Forall_cons in H as [He Hkept]. cbn [fold_left].
  rewrite cleanStep_normal, IH by done.
  cbn [List.rev]. by rewrite <- app_assoc.
Qed.

(** Folding a cleaned list of elements again rebuilds its stack. *)
Lemma fold_cleanStep_again rooted stack :
  stackForm rooted stack ->
  fold_left (cleanStep rooted) (List.rev stack) [] = stack.
Proof.
  intros (kept & k & -> & Hkept & Hr).
  rewrite rev_app_distr, rev_repeat, fold_left_app.
  assert (fold_left (cleanStep rooted) (repeat ".." k) [] = repeat ".." k) as ->.
  { destruct rooted.
    - by rewrite (Hr eq_refl).
    - pose proof (fold_cleanStep_dots k 0) as H. rewrite Nat.add_0_r in H.
      exact H. }
  rewrite fold_cleanStep_normal by by apply Forall_rev.
  by rewrite rev_involutive.
Qed.

Lemma normal_noSep e : normal e -> noSep e = true.
Proof. by intros (_ & _ & _ & H). Qed.

Lemma stackForm_noSep rooted stack :
  stackForm rooted stack -> Forall (fun e => noSep e = true) (List.rev stack).
Proof.
  intros (kept & k & -> & Hkept & _). apply Forall_rev, Forall_app. split.
  - eapply Forall_impl; [exact Hkept|]. by intros e ?%normal_noSep.
  - apply Forall_forall. by intros e ->%list_elem_of_In%repeat_spec.
Qed.

(** The first byte of a cleaned relative path is no separator. *)
Lemma stackForm_head rooted stack e l :
  stackForm rooted stack -> List.rev stack = e :: l ->
  exists c r, e = String c r /\ Ascii.eqb c sep = false.
Proof.
  intros (kept & k & -> & Hkept & _) Hrev.
  assert (e = ".." \/ normal e) as [->|(Hne & _ & _ & Hsep)].
  { assert (In e (List.rev (kept ++ repeat ".." k))) as Hin
      by (rewrite Hrev; by left).
    apply in_rev, in_app_or in Hin as [Hin|Hin].
    - right. by eapply Forall_forall in Hkept; [|apply list_elem_of_In, Hin].
    - left. by apply repeat_spec in Hin. }
  - by exists "."%char, ".".
  - destruct e as [|c r]; [done|]. exists c, r. split; [done|].
    simpl in Hsep. apply andb_true_iff in Hsep as [Hc _].
    by apply negb_true_iff in Hc.
Qed.

(** *** [Clean] of a cleaned prefix *)

Lemma rev_nil_inv {A} (l : list A) : List.rev l = [] -> l = [].
Proof. intros H. by rewrite <- (rev_involutive l), H. Qed.

Lemma stackOf_form rooted path :
  stackForm rooted (fold_left (cleanStep rooted) (SplitByte path sep) []).
Proof.
  apply fold_cleanStep_form; [apply SplitByte_elems_noSep|].
  by exists [], 0.
Qed.

Lemma Clean_unfold path :
  path <> EmptyString ->
  Clean path
  = render (HasPrefix path "/")
           (List.rev (fold_left (cleanStep (HasPrefix path "/"))
                                (SplitByte path sep) [])).
Proof.
  intros H. unfold Clean, cleanElems.
  apply String.eqb_neq in H. by rewrite H.
Qed.

Lemma split_render rooted stack :
  stackForm rooted stack ->
  fold_left (cleanStep rooted) (SplitByte (render rooted (List.rev stack)) sep) []
  = stack.
Proof.
  intros Hform. pose proof (stackForm_noSep _ _ Hform) as Hsep.
  pose proof (fold_cleanStep_again _ _ Hform) as Hagain.
  unfold render. destruct (List.rev stack) as [|e l] eqn:E.
  - apply rev_nil_inv in E as ->. by destruct rooted.
  - assert (SplitByte (strings.Join (e :: l) "/") sep = e :: l) as Hsplit
      by by apply SplitByte_Join.
    destruct rooted; [|by rewrite Hsplit].
    change ("/" +:+ strings.Join (e :: l) "/")
      with (EmptyString +:+ "/" +:+ strings.Join (e :: l) "/").
    rewrite SplitByte_sep, Hsplit, fold_left_app. exact Hagain.
Qed.

Lemma rooted_render rooted stack :
  stackForm rooted stack ->
  HasPrefix (render rooted (List.rev stack)) "/" = rooted.
Proof.
  intros Hform. unfold render. destruct rooted; [done|].
  destruct (List.rev stack) as [|e l] eqn:E; [done|].
  destruct (stackForm_head _ _ _ _ Hform E) as (c & r & -> & Hc).
  rewrite Ascii.eqb_sym in Hc. unfold sep in Hc.
  destruct l; cbn [strings.Join String.concat]; rewrite ?append_cons;
    cbn [HasPrefix]; by rewrite Hc.
Qed.

Lemma render_nonempty rooted stack :
  stackForm rooted stack -> render rooted (List.rev stack) <> EmptyString.
Proof.
  intros Hform. unfold render. destruct rooted; [done|].
  destruct (List.rev stack) as [|e l] eqn:E; [done|].
  destruct (stackForm_head _ _ _ _ Hform E) as (c & r & -> & Hc).
  by destruct l.
Qed.

Lemma Clean_nonempty path : Clean path <> EmptyString.
Proof.
  destruct (String.eqb_spec path EmptyString) as [->|H]; [done|].
  rewrite Clean_unfold by done. apply render_nonempty, stackOf_form.
Qed.

Lemma append_sep_nonempty (a b : string) : a +:+ "/" +:+ b <> EmptyString.
Proof. by destruct a. Qed.

Lemma HasPrefix_append a b :
  a <> EmptyString -> HasPrefix (a +:+ b) "/" = HasPrefix a "/".
Proof. by destruct a. Qed.

(** Cleaning [path/more] and cleaning [Clean(path)/more] give the same. *)
Lemma Clean_Clean_append path more :
  path <> EmptyString ->
  Clean (Clean path +:+ "/" +:+ more) = Clean (path +:+ "/" +:+ more).
Proof.
  intros Hne.
  rewrite (Clean_unfold (Clean path +:+ "/" +:+ more)) by apply append_sep_nonempty.
  rewrite (Clean_unfold (path +:+ "/" +:+ more)) by apply append_sep_nonempty.
  rewrite !SplitByte_sep, !fold_left_app.
  rewrite (HasPrefix_append (Clean path)) by apply Clean_nonempty.
  rewrite (HasPrefix_append path) by done.
  rewrite (Clean_unfold path) by done.
  set (rooted := HasPrefix path "/").
  pose proof (stackOf_form rooted path) as Hform.
  by rewrite rooted_render, split_render.
Qed.

(** [Join] of three elements, by way of the [Join] of the first two. *)
Lemma Join_Join dir mid last :
  dir <> EmptyString ->
  filepath.Join [filepath.Join [dir; mid]; last] = filepath.Join [dir; mid; last].
Proof.
  intros Hne. apply String.eqb_neq in Hne.
  cbn [filepath.Join]. rewrite Hne.
  cbn [strings.Join String.concat].
  pose proof (Clean_nonempty (dir +:+ "/" +:+ mid)) as Hc.
  apply String.eqb_neq in Hc. rewrite Hc.
  rewrite Clean_Clean_append by apply append_sep_nonempty.
  f_equal. by rewrite append_assoc.
Qed.

Lemma Dir_nonempty path : Dir path <> EmptyString.
Proof. unfold Dir. destruct (afterLastSep path); apply Clean_nonempty. Qed.

(** The path the resolver checks is the declared output joined to the
    parent of the directory of the tool's file. *)
Lemma outputPath_resolved t : resolver.outputPath t = resolvedOutput t.
Proof.
  unfold resolver.outputPath, resolvedOutput, parentDir.
  destruct (IsAbs (tool.Output t)); [done|]. simpl negb. cbv iota.
  symmetry. apply Join_Join, Dir_nonempty.
Qed.

End filepath_facts.

(** ** The tag parser *)

Module parser_facts.
Import strings scanner scanner_spec.

Lemma HasPrefix_head s c p :
  HasPrefix s (String c p) = true -> HasPrefix s (String c EmptyString) = true.
Proof.
  destruct s as [|b s]; simpl; [done|]. by destruct (Ascii.eqb c b).
Qed.

Lemma HasPrefix_other_head s c p d q :
  HasPrefix s (String c p) = true -> c <> d -> HasPrefix s (String d q) = false.
Proof.
  destruct s as [|b s]; simpl; [done|].
  destruct (Ascii.eqb_spec c b) as [->|]; [|done].
  intros _ Hne. by destruct (Ascii.eqb_spec d b) as [->|].
Qed.

Lemma toolLine_None_of_no_at line :
  HasPrefix (TrimSpace line) "@" = false -> toolLine line = None.
Proof.
  intros H. unfold toolLine.
  destruct (HasPrefix (TrimSpace line) "@tool ") eqn:E; [|done].
  apply HasPrefix_head in E. congruence.
Qed.

(** Every branch of the switch but the first leaves the name alone. *)
Lemma parseTag_name trimmed st :
  tool.Name (ps_tool (parseTag trimmed st))
  = if HasPrefix trimmed "@tool " then TrimSpace (dropBytes 6 trimmed)
    else tool.Name (ps_tool st).
Proof.
  unfold parseTag.
  repeat (match goal with
          | |- context [if HasPrefix trimmed ?p then _ else _] =>
              destruct (HasPrefix trimmed p); [reflexivity|]
          end).
  simpl. by repeat (destruct (_ && _); simpl).
Qed.

Lemma parseLine_name st line :
  tool.Name (ps_tool (parseLine st line))
  = default (tool.Name (ps_tool st)) (toolLine line).
Proof.
  unfold parseLine, toolLine.
  destruct (ps_inInterface st).
  - destruct (HasPrefix (TrimSpace line) "--") eqn:Hdash.
    + rewrite (HasPrefix_other_head _ _ _ "@"%char "tool " Hdash) by done.
      by destruct (parseInterfaceLine _).
    + destruct (HasPrefix (TrimSpace line) "@") eqn:Hat.
      * rewrite parseTag_name. by destruct (HasPrefix _ "@tool ").
      * destruct (HasPrefix (TrimSpace line) "@tool ") eqn:E; [|done].
        apply HasPrefix_head in E. congruence.
  - rewrite parseTag_name. by destruct (HasPrefix _ "@tool ").
Qed.

Lemma fold_parseLine_name lines : forall st,
  tool.Name (ps_tool (fold_left parseLine lines st))
  = default (tool.Name (ps_tool st)) (last (omap toolLine lines)).
Proof.
  induction lines as [|line lines IH]; intros st; [done|].
  cbn [fold_left]. rewrite IH, parseLine_name.
  change (omap toolLine (line :: lines))
    with (match toolLine line with
          | Some y => y :: omap toolLine lines
          | None => omap toolLine lines
          end).
  destruct (toolLine line) as [X|]; [|done].
  destruct (omap toolLine lines) as [|Y l]; [done|].
  rewrite last_cons_cons.
  destruct (last (Y :: l)) eqn:E; [done|]. by apply last_None in E.
Qed.

(** The name after the whole block: that of the last [@tool] line. *)
Lemma parseLines_name lines :
  tool.Name (ps_tool (parseLines lines))
  = default EmptyString (last (omap toolLine lines)).
Proof. unfold parseLines. by rewrite fold_parseLine_name. Qed.

Lemma pickDescription_name descLines t :
  tool.Name (pickDescription descLines t) = tool.Name t.
Proof.
  unfold pickDescription.
  destruct (Nat.ltb _ _); [done|]. by destruct (Nat.eqb _ _).
Qed.

Lemma parseDocstringTags_name doc :
  tool.Name <$> parseDocstringTags doc
  = Some (default EmptyString (last (toolNames doc))).
Proof.
  unfold parseDocstringTags. simpl.
  by rewrite pickDescription_name, parseLines_name.
Qed.

(** *** The description *)

Lemma plainLine_tag trimmed c p :
  HasPrefix trimmed (String "@" (String c p)) = true -> plainLine trimmed = false.
Proof.
  intros H%HasPrefix_head. unfold plainLine. by rewrite H.
Qed.

Lemma parseTag_desc trimmed st :
  ps_descLines (parseTag trimmed st)
  = ps_descLines st ++
    (if plainLine trimmed && unnamedState st then [trimmed] else []).
Proof.
  unfold parseTag.
  repeat (match goal with
          | |- context [if HasPrefix trimmed ?p then _ else _] =>
              let E := fresh "E" in
              destruct (HasPrefix trimmed p) eqn:E;
              [rewrite (plainLine_tag _ _ _ E); simpl; by rewrite app_nil_r|]
          end).
  fold (plainLine trimmed). fold (unnamedState st).
  destruct (plainLine trimmed); simpl; [|by rewrite app_nil_r].
  destruct (unnamedState st); simpl; [done|by rewrite app_nil_r].
Qed.

Lemma parseLine_desc st line :
  ps_descLines (parseLine st line)
  = ps_descLines st ++
    (if plainLine (TrimSpace line) && unnamedState st && negb (ps_inInterface st)
     then [TrimSpace line] else []).
Proof.
  unfold parseLine. destruct (ps_inInterface st) eqn:Hin.
  - rewrite andb_false_r, app_nil_r.
    destruct (HasPrefix (TrimSpace line) "--"); [by destruct (parseInterfaceLine _)|].
    destruct (HasPrefix (TrimSpace line) "@") eqn:Hat; [|done].
    rewrite parseTag_desc. unfold plainLine. rewrite Hat. simpl.
    by rewrite app_nil_r.
  - rewrite andb_true_r. apply parseTag_desc.
Qed.

Lemma parseLines_snoc before line :
  parseLines (before ++ [line]) = parseLine (parseLines before) line.
Proof. unfold parseLines. by rewrite fold_left_app. Qed.

Lemma fold_parseLine_desc rest : forall before,
  ps_descLines (fold_left parseLine rest (parseLines before))
  = ps_descLines (parseLines before) ++ candidates before rest.
Proof.
  induction rest as [|line rest IH]; intros before.
  - simpl. by rewrite app_nil_r.
  - cbn [fold_left candidates].
    rewrite <- parseLines_snoc, IH, parseLines_snoc, parseLine_desc.
    by rewrite <- app_assoc.
Qed.

Lemma parseLines_desc lines :
  ps_descLines (parseLines lines) = candidates [] lines.
Proof. apply (fold_parseLine_desc lines []). Qed.

Lemma parseTag_description trimmed st :
  tool.Description (ps_tool (parseTag trimmed st)) = tool.Description (ps_tool st).
Proof.
  unfold parseTag.
  repeat (match goal with
          | |- context [if HasPrefix trimmed ?p then _ else _] =>
              destruct (HasPrefix trimmed p); [reflexivity|]
          end).
  by repeat (destruct (_ && _); simpl).
Qed.

Lemma parseLine_description st line :
  tool.Description (ps_tool (parseLine st line)) = tool.Description (ps_tool st).
Proof.
  unfold parseLine. destruct (ps_inInterface st).
  - destruct (HasPrefix (TrimSpace line) "--"); [by destruct (parseInterfaceLine _)|].
    destruct (HasPrefix (TrimSpace line) "@"); [|done].
    by rewrite parseTag_description.
  - apply parseTag_description.
Qed.

Lemma parseLines_description lines :
  tool.Description (ps_tool (parseLines lines)) = EmptyString.
Proof.
  unfold parseLines.
  assert (forall st, tool.Description (ps_tool (fold_left parseLine lines st))
                     = tool.Description (ps_tool st)) as H.
  { induction lines as [|line lines IH]; intros st; simpl; [done|].
    by rewrite IH, parseLine_description. }
  by rewrite H.
Qed.

Lemma pickDescription_description descLines t :
  tool.Description t = EmptyString ->
  tool.Description (pickDescription descLines t) = secondOrOnly descLines.
Proof.
  intros Ht. unfold pickDescription.
  destruct descLines as [|x [|y l]]; simpl; done.
Qed.

End parser_facts.

Module parser_claims.
Import strings scanner scanner_spec parser_facts.

(** C3, as worded, does not hold: of two [@tool] lines the second one
    names the descriptor. *)
Lemma first_tool_line_does_not_name : ~ any_tool_line_names_descriptor.
Proof.
  intros H.
  specialize (H ("@tool a" +:+ nl +:+ "@tool b") "@tool a" "a").
  assert (tool.Name <$> parseDocstringTags ("@tool a" +:+ nl +:+ "@tool b")
          = Some "b") as Hb by (vm_compute; reflexivity).
  rewrite Hb in H.
  assert (Some "b" = Some "a") as Habs; [|discriminate Habs].
  apply H; [|reflexivity|discriminate].
  vm_compute. constructor.
Qed.

(** C3, amended. The block that the extraction hands over for a file is
    [doc]. If [doc] has [@tool] lines, the parser yields a descriptor
    named by the last of them, and so does the scan of the file when
    that name is not empty. If [doc] has no [@tool] line, the scan
    yields neither a descriptor nor an error. *)
Theorem last_tool_line_names_descriptor (fs : FS) (path : string)
        (file : FileData) (doc : string) :
  fs_open fs path = inr file ->
  extractPythonDocstring file = (doc, None) ->
  match last (toolNames doc) with
  | Some X =>
      tool.Name <$> parseDocstringTags doc = Some X /\
      (X <> EmptyString ->
       exists t, PythonScanner_Scan fs path = (Some t, None) /\ tool.Name t = X)
  | None => PythonScanner_Scan fs path = (None, None)
  end.
Proof.
  intros Hopen Hext.
  pose proof (parseDocstringTags_name doc) as Hname.
  unfold PythonScanner_Scan. rewrite Hopen, Hext.
  destruct (last (toolNames doc)) as [X|] eqn:Hlast.
  - split; [done|]. intros HX.
    destruct (String.eqb_spec doc EmptyString) as [->|_].
    { by vm_compute in Hlast. }
    destruct (parseDocstringTags doc) as [t|]; simpl in Hname; [|discriminate Hname].
    injection Hname as <-.
    apply String.eqb_neq in HX. rewrite HX. eauto.
  - destruct (String.eqb doc EmptyString); [done|].
    destruct (parseDocstringTags doc) as [t|]; simpl in Hname; [|done].
    injection Hname as ->. done.
Qed.

(** C6, as worded, does not hold: a plain line inside an interface
    block is no candidate, though the block is still unnamed. *)
Lemma interface_lines_are_no_candidates : ~ description_from_claimed_candidates.
Proof.
  intros H. specialize (H ("@interface" +:+ nl +:+ "hello")).
  vm_compute in H. discriminate H.
Qed.

(** C6, amended. The candidate description lines are the trimmed lines
    that are not empty, do not start with [@], lie outside an interface
    block and are met while the name is unset and nothing is provided.
    The description is the second candidate if there are two or more,
    the only one if there is one, and empty if there is none. *)
Theorem description_is_second_or_only_candidate (doc : string) :
  tool.Description <$> parseDocstringTags doc
  = Some (secondOrOnly (candidates [] (docLines doc))).
Proof.
  unfold parseDocstringTags. simpl. f_equal.
  rewrite pickDescription_description by apply parseLines_description.
  by rewrite parseLines_desc.
Qed.

(** The block of the README example, through extraction and parser. *)
Example readme_extracted :
  extractPythonDocstring sample.readmeFile = (sample.readme_docstring, None).
Proof. vm_compute. reflexivity. Qed.

(** C3, amended, on the file of the README example. *)
Lemma last_tool_line_names_descriptor_witness :
  tool.Name <$> parseDocstringTags sample.readme_docstring = Some "analyze-logs" /\
  exists t,
    PythonScanner_Scan sample.sampleFS "tools/analyze_logs.py" = (Some t, None) /\
    tool.Name t = "analyze-logs".
Proof.
  pose proof (last_tool_line_names_descriptor sample.sampleFS
                "tools/analyze_logs.py" sample.readmeFile sample.readme_docstring
                ltac:(vm_compute; reflexivity) ltac:(vm_compute; reflexivity)) as H.
  assert (last (toolNames sample.readme_docstring) = Some "analyze-logs") as E
    by (vm_compute; reflexivity).
  rewrite E in H. destruct H as [H1 H2].
  split; [exact H1|]. apply H2. discriminate.
Defined.

(** A block without [@tool]: no descriptor, no error. *)
Example no_tool_line_scan :
  PythonScanner_Scan sample.sampleFS "root/tools/notool.py" = (None, None).
Proof. vm_compute. reflexivity. Qed.

(** The description of the README example has one candidate; with a
    title line and a summary line the summary is taken. *)
Example description_examples :
  tool.Description <$> parseDocstringTags sample.readme_docstring = Some "analyze_logs.py" /\
  tool.Description <$> parseDocstringTags
    ("a.py" +:+ nl +:+ "Makes x from y." +:+ nl +:+ "More." +:+ nl +:+ "@tool a"
            +:+ nl +:+ "Later.")
  = Some "Makes x from y." /\
  tool.Description <$> parseDocstringTags ("@tool a" +:+ nl +:+ "Later.")
  = Some EmptyString.
Proof. vm_compute. repeat split; reflexivity. Qed.

End parser_claims.

(** ** Docstring extraction *)

Module extract_facts.
Import strings scanner scanner_spec parser_facts.

Lemma opener_spec line delim rest :
  opener line = Some (delim, rest) ->
  (HasPrefix (TrimSpace line) tripleDouble || HasPrefix (TrimSpace line) tripleSingle) = true /\
  isComment line = false /\
  delim = takeBytes 3 (TrimSpace line) /\ rest = dropBytes 3 (TrimSpace line).
Proof.
  unfold opener, isComment.
  destruct (HasPrefix _ tripleDouble || HasPrefix _ tripleSingle) eqn:E; [|done].
  intros [= <- <-]. repeat split; try done.
  apply orb_true_iff in E as [E|E];
    by apply (HasPrefix_other_head _ _ _ "#"%char EmptyString) in E.
Qed.

(** Before a block opens, comments and blank lines are passed over. *)
Lemma extractLoop_pre pre : forall rest delim acc,
  forallb (fun l => isComment l || isBlank l) pre = true ->
  extractLoop (pre ++ rest) false delim acc = extractLoop rest false delim acc.
Proof.
  induction pre as [|line pre IH]; intros rest delim acc H; [done|].
  simpl in H. apply andb_true_iff in H as [Hl Hpre].
  cbn [app extractLoop]. unfold isComment, isBlank in Hl.
  destruct (HasPrefix (TrimSpace line) "#"); [by apply IH|].
  simpl in Hl. apply String.eqb_eq in Hl. rewrite Hl. simpl. by apply IH.
Qed.

(** The line that opens a block without closing it. *)
Lemma extractLoop_open line delim rest body delim0 acc :
  opener line = Some (delim, rest) ->
  Contains rest delim = false ->
  extractLoop (line :: body) false delim0 acc
  = extractLoop body true delim (acc ++ [rest]).
Proof.
  intros (Hq & Hc & -> & ->)%opener_spec Hno.
  cbn [extractLoop]. unfold isComment in Hc. cbv zeta.
  rewrite Hc. cbn [negb]. rewrite Hq. by rewrite Hno.
Qed.

Lemma Contains_false_Index s sub : Contains s sub = false -> Index s sub = None.
Proof. unfold Contains. by destruct (Index s sub). Qed.

(** Inside the block, up to the end of the file. *)
Lemma extractLoop_body delim body : forall acc,
  forallb (keepsOpen delim) body = true ->
  extractLoop body true delim acc = Exhausted (acc ++ List.filter notComment body).
Proof.
  induction body as [|line body IH]; intros acc H.
  - simpl. by rewrite app_nil_r.
  - simpl in H. apply andb_true_iff in H as [Hl Hbody].
    cbn [extractLoop List.filter]. unfold keepsOpen, notComment, isComment in *.
    destruct (HasPrefix (TrimSpace line) "#"); simpl in *; [by apply IH|].
    apply negb_true_iff, Contains_false_Index in Hl. rewrite Hl.
    rewrite IH by done. by rewrite <- app_assoc.
Qed.


End extract_facts.

Module extract_claims.
Import strings scanner scanner_spec extract_facts.

(** C7, as worded, does not hold: a file whose block is never closed and
    a file whose block is closed can give the same docstring, both
    without an error. *)
Lemma unterminated_is_not_told_apart : ~ unterminated_is_told_apart.
Proof.
  intros H.
  apply (H (mkFileData [tripleDouble; "abc"; EmptyString] None)
           (mkFileData [tripleDouble; "abc"; tripleDouble] None)).
  - exists [], tripleDouble, tripleDouble, EmptyString, ["abc"; EmptyString].
    repeat split; reflexivity.
  - exists [], tripleDouble, tripleDouble, EmptyString, ["abc"], tripleDouble, [].
    repeat split; reflexivity.
  - reflexivity.
Qed.

(** C7, amended. A file in which a block opens and is not closed before
    the file ends: the extraction returns the text after the opening
    delimiter and the lines that follow it, comment lines left out,
    joined by line feeds, and no error. Nothing in what it returns says
    that the block was not closed. *)
Theorem unterminated_returns_accumulated_lines
        (file : FileData) (pre : list string) (openLine delim rest : string)
        (body : list string) :
  opensBlock (fd_lines file) pre openLine delim rest body ->
  forallb (keepsOpen delim) body = true ->
  fd_err file = None ->
  extractPythonDocstring file
  = (Join (rest :: List.filter notComment body) nl, None).
Proof.
  intros (Hlines & Hpre & Hopen & Hrest) Hbody Herr.
  unfold extractPythonDocstring. rewrite Hlines.
  rewrite (extractLoop_pre pre) by done.
  rewrite (extractLoop_open _ delim rest) by done.
  rewrite extractLoop_body by done.
  by rewrite Herr.
Qed.

(** C7, amended, on a file that opens a block and ends after two more
    lines. *)
Lemma unterminated_returns_accumulated_lines_witness :
  extractPythonDocstring sample.fileOpen = (nl +:+ "abc" +:+ nl, None).
Proof.
  apply (unterminated_returns_accumulated_lines sample.fileOpen []
           tripleDouble tripleDouble EmptyString ["abc"; EmptyString]).
  - repeat split; reflexivity.
  - reflexivity.
  - reflexivity.
Defined.



End extract_claims.

(** ** The directory scanner *)

Module scan_claims.
Import scanner sample.

(** C9. Whatever scanners are registered, whatever the file system
    holds and whatever directories are given, [ScanDirectories] and
    [ScanDirectory] return a registry and no error. *)
Theorem ScanDirectories_never_fails (scanners : list Scanner) (fs : FS)
        (dirs : list string) (dir : string) :
  (exists registry, ScanDirectories scanners fs dirs = (Some registry, None)) /\
  (exists registry, ScanDirectory scanners fs dir = (Some registry, None)).
Proof.
  unfold ScanDirectory, ScanDirectories.
  destruct (Nat.eqb _ 0); eauto.
Qed.

(** The callback of the walk never asks to stop: it answers nil, or
    [SkipDir] for a directory that is to be pruned. *)
Lemma scanEntry_answer scanners extSet fs path arg registry :
  (scanEntry scanners extSet fs path arg registry).2 = None \/
  exists info,
    arg = Found info /\ fi_IsDir info = true /\
    shouldSkipDir (fi_Name info) = true /\
    scanEntry scanners extSet fs path arg registry = (registry, Some SkipDir).
Proof.
  unfold scanEntry. destruct arg as [info|info err]; [|by left].
  destruct (fi_IsDir info) eqn:Hdir.
  - destruct (shouldSkipDir (fi_Name info)) eqn:Hskip; [|by left].
    right. by exists info.
  - left. destruct (_ || _); [done|]. destruct (negb _); [done|].
    destruct (GetScanner scanners path) as [sc|]; [|done].
    by destruct (Scan sc fs path) as [[t|] [err|]].
Qed.

(** A file whose scan fails, or yields no descriptor, leaves the
    registry as it was. *)
Lemma scanEntry_absorbs scanners extSet fs path name registry sc t err :
  GetScanner scanners path = Some sc ->
  Scan sc fs path = (t, err) ->
  err <> None \/ t = None ->
  scanEntry scanners extSet fs path (Found (mkFileInfo name false)) registry
  = (registry, None).
Proof.
  intros Hsc Hscan Hbad. unfold scanEntry. simpl.
  destruct (_ || _); [done|]. destruct (negb _); [done|].
  rewrite Hsc, Hscan. destruct err as [e|]; [by destruct t|].
  destruct Hbad as [?| ->]; done.
Qed.

(** A root that does not exist is passed over. *)
Lemma scanDirs_missing_root scanners extSet fs dir dirs registry :
  fs_notExist fs dir = true ->
  scanDirs scanners extSet fs (dir :: dirs) registry
  = scanDirs scanners extSet fs dirs registry.
Proof. intros H. unfold scanDirs. simpl. by rewrite H. Qed.

(** A root that does not exist, one that cannot be examined, pruned
    directories, a directory that cannot be read, private files, files
    that cannot be opened or read to the end, files without a block or
    without a [@tool] tag: the scan passes over all of them. *)
Example scan_sample :
  found (ScanDirectories registered sampleFS ["nowhere"; "root"; "elsewhere"])
  = (Some [("a", "root/tools/a.py"); ("b", "root/tools/b.py")], None).
Proof. vm_compute. reflexivity. Qed.

Example scan_file_a :
  (PythonScanner_Scan sampleFS "root/tools/a.py").1
  = Some (tool.mkTool "a" EmptyString "root/tools/a.py" "python"
                      "Makes x from y." ["x"] ["y"] EmptyString "manual"
                      [] [] [] ∅ []).
Proof. vm_compute. reflexivity. Qed.

Example scan_errors :
  PythonScanner_Scan sampleFS "root/tools/secret.py" = (None, Some "permission denied") /\
  PythonScanner_Scan sampleFS "root/tools/cut.py" = (None, Some "token too long") /\
  PythonScanner_Scan sampleFS "root/tools/plain.py" = (None, None) /\
  PythonScanner_Scan sampleFS "root/tools/notool.py" = (None, None).
Proof. vm_compute. repeat split; reflexivity. Qed.

End scan_claims.

(** ** The freshness evaluator *)

Module freshness_claims.
Import freshness freshness_spec.
Local Open Scope Z_scope.

Lemma maxAgeOf_policyThreshold policy : maxAgeOf policy = policyThreshold policy.
Proof.
  unfold maxAgeOf, policyThreshold, policyHours.
  destruct (String.eqb_spec policy "daily") as [->|H1]; [reflexivity|].
  destruct (String.eqb_spec policy "weekly") as [->|H2]; [reflexivity|].
  destruct (String.eqb_spec policy "monthly") as [->|H3]; [reflexivity|].
  destruct (String.eqb_spec policy "manual") as [->|H4]; [reflexivity|].
  unfold Thresholds. simpl.
  rewrite !lookup_insert_ne by done. rewrite lookup_empty. reflexivity.
Qed.

Lemma policyThreshold_range policy :
  0 < policyThreshold policy <= maxDuration.
Proof.
  unfold policyThreshold, policyHours.
  repeat destruct (String.eqb _ _); vm_compute; split; congruence.
Qed.

(** The saturation of [Time.Sub] does not show in the comparison with a
    threshold. *)
Lemma Sub_lt_threshold now modTime policy :
  (Sub now modTime <? maxAgeOf policy)
  = bool_decide (now - modTime < policyThreshold policy).
Proof.
  rewrite maxAgeOf_policyThreshold.
  pose proof (policyThreshold_range policy) as [Hlo Hhi].
  assert (minDuration < 0) as Hmin by (vm_compute; reflexivity).
  unfold Sub.
  destruct (Z.ltb_spec (now - modTime) minDuration).
  - rewrite bool_decide_eq_true_2 by lia. apply Z.ltb_lt. lia.
  - destruct (Z.ltb_spec maxDuration (now - modTime)).
    + rewrite bool_decide_eq_false_2 by lia. apply Z.ltb_ge. lia.
    + destruct (Z.ltb_spec (now - modTime) (policyThreshold policy)).
      * by rewrite bool_decide_eq_true_2.
      * by rewrite bool_decide_eq_false_2 by lia.
Qed.

Section Claims.
Context {World : Type} (P : Platform World).
Variable formatAge : Z -> string -> string.

(** The answer of [Check] for a file that can be examined. *)
Lemma Check_on_file (path policy : string) (w w1 : World) (modTime : Z) :
  os_Stat P path w = (StatInfo modTime, w1) ->
  (Check P formatAge path policy w).1.1
  = bool_decide ((time_Now P w1).1 - modTime < policyThreshold policy).
Proof.
  intros Hstat. unfold Check. rewrite Hstat.
  destruct (time_Now P w1) as [now w2]. simpl.
  rewrite <- (Sub_lt_threshold now modTime policy).
  by destruct (Sub now modTime <? maxAgeOf policy).
Qed.

(** C4. [Check] on any path and policy name. A missing file gives
    (false, "missing"). A file that can be examined is fresh exactly
    when the time now minus its modification time is strictly below the
    threshold of the policy: 24, 168 and 720 hours for daily, weekly and
    monthly, and the threshold of manual for every other name; an age
    equal to the threshold is therefore stale. Any other failure to
    examine the file gives false. *)
Theorem Check_fresh_iff_younger (path policy : string) (w : World) :
  match os_Stat P path w with
  | (NotExist, w1) => Check P formatAge path policy w = ((false, "missing"), w1)
  | (StatError err, w1) => (Check P formatAge path policy w).1.1 = false
  | (StatInfo modTime, w1) =>
      let now := (time_Now P w1).1 in
      (Check P formatAge path policy w).1.1
      = bool_decide (now - modTime < policyThreshold policy) /\
      (now - modTime = policyThreshold policy ->
       (Check P formatAge path policy w).1.1 = false)
  end.
Proof.
  destruct (os_Stat P path w) as [[| err | modTime] w1] eqn:Hstat.
  - unfold Check. by rewrite Hstat.
  - unfold Check. by rewrite Hstat.
  - simpl. rewrite (Check_on_file path policy w w1 modTime Hstat).
    split; [done|]. intros Heq. apply bool_decide_eq_false_2. lia.
Qed.

End Claims.

Import sample.

(** A file of the given age, under the sample platform. *)
Lemma Check_boundaries policy :
  let check age :=
    (Check testPlatform testFormatAge "f" policy
           (mkTestWorld {[ "f" := 0 ]} age 0)).1.1 in
  check (policyThreshold policy - Second) = true /\
  check (policyThreshold policy) = false /\
  check (policyThreshold policy + Second) = false.
Proof.
  assert (forall age,
    (Check testPlatform testFormatAge "f" policy
           (mkTestWorld {[ "f" := 0 ]} age 0)).1.1
    = bool_decide (age < policyThreshold policy)) as Hc.
  { intros age.
    rewrite (Check_on_file testPlatform testFormatAge "f" policy _
               (mkTestWorld {[ "f" := 0 ]} age 0) 0) by reflexivity.
    simpl. by rewrite Z.sub_0_r. }
  simpl. rewrite !Hc.
  assert (0 < Second) by (vm_compute; reflexivity).
  repeat split.
  - apply bool_decide_eq_true_2. lia.
  - apply bool_decide_eq_false_2. lia.
  - apply bool_decide_eq_false_2. lia.
Qed.

End freshness_claims.

(** ** The resolver: what one call changes *)

Module resolver_facts.
Import resolver resolver_spec.

Section Post.
Context {World : Type}.
Implicit Types st : State World.

Lemma produced_app tr1 tr2 : produced (tr1 ++ tr2) = produced tr1 ++ produced tr2.
Proof. unfold produced. apply omap_app. Qed.

Lemma produced_snoc tr e :
  produced (tr ++ [e])
  = produced tr ++ match e with EvRun target _ => [target] | _ => [] end.
Proof. rewrite produced_app. by destruct e. Qed.

Lemma extends_refl st : extends st st.
Proof.
  split; [done|]. exists []. rewrite app_nil_r.
  split; [done|]. split; [constructor|]. intros x Hx. inversion Hx.
Qed.

Lemma extends_trans st1 st2 st3 :
  extends st1 st2 -> extends st2 st3 -> extends st1 st3.
Proof.
  intros [Hv12 (n1 & Hp1 & Hnd1 & Hn1)] [Hv23 (n2 & Hp2 & Hnd2 & Hn2)].
  split; [auto|].
  exists (n1 ++ n2). split; [by rewrite Hp2, Hp1, app_assoc|].
  rewrite produced_app. split.
  - apply NoDup_app. split; [done|]. split; [|done].
    intros x Hx1 Hx2.
    destruct (Hn1 x Hx1) as [_ Hin2]. destruct (Hn2 x Hx2) as [Hout2 _].
    congruence.
  - intros x [Hx|Hx]%elem_of_app.
    + destruct (Hn1 x Hx); auto.
    + destruct (Hn2 x Hx) as [Hf Ht]. split; [|done].
      destruct (isVisited st1 x) eqn:E; [|done].
      apply Hv12 in E. congruence.
Qed.

Lemma isVisited_mark target st x :
  isVisited (markVisited target st) x
  = if decide (target = x) then true else isVisited st x.
Proof.
  unfold isVisited, markVisited; simpl.
  rewrite lookup_insert. by case_decide.
Qed.

Lemma isVisited_mark_eq target st :
  isVisited (markVisited target st) target = true.
Proof. rewrite isVisited_mark. by case_decide. Qed.

Lemma extends_mark target st : extends st (markVisited target st).
Proof.
  split.
  - intros x Hx. rewrite isVisited_mark. by case_decide.
  - exists []. simpl. rewrite app_nil_r. split; [done|].
    split; [constructor|]. intros x Hx. inversion Hx.
Qed.

Lemma extends_check target path policy w st :
  extends st (record (EvCheck target path policy) w st).
Proof.
  split; [done|]. exists [EvCheck target path policy]. simpl.
  split; [done|]. split; [constructor|]. intros x Hx. inversion Hx.
Qed.

(** Running the tool for [target] at the end of a call that began by
    marking [target]. *)
Lemma extends_run target t w st0 st :
  isVisited st0 target = false ->
  extends (markVisited target st0) st ->
  extends st0 (record (EvRun target t) w st).
Proof.
  intros Hfresh [Hv (more & Hp & Hnd & Hn)].
  split.
  - intros x Hx. apply (Hv x). rewrite isVisited_mark. by case_decide.
  - exists (more ++ [EvRun target t]). simpl in *.
    rewrite Hp, app_assoc. split; [done|].
    rewrite produced_snoc. split.
    + apply NoDup_app. split; [done|]. split; [|apply NoDup_singleton].
      intros x Hx ->%list_elem_of_singleton.
      destruct (Hn _ Hx) as [Hf _]. by rewrite isVisited_mark_eq in Hf.
    + intros x [Hx| ->%list_elem_of_singleton]%elem_of_app.
      * destruct (Hn x Hx) as [Hf Ht]. split; [|done].
        rewrite isVisited_mark in Hf. by case_decide.
      * split; [done|]. apply (Hv target), isVisited_mark_eq.
Qed.

Lemma ensureAll_extends (ensure : string -> State World -> option (bool * State World)) :
  (forall item st b st', ensure item st = Some (b, st') -> extends st st') ->
  forall items st b st',
    ensureAll ensure items st = Some (b, st') -> extends st st'.
Proof.
  intros Hens items. induction items as [|item items IH]; intros st b st' H.
  - simpl in H. injection H as <- <-. apply extends_refl.
  - simpl in H. destruct (ensure item st) as [[[] st1]|] eqn:E; [|..|done].
    + eapply extends_trans; [by eapply Hens|by eapply IH].
    + injection H as <- <-. by eapply Hens.
Qed.

End Post.

Section Ensure.
Context {World : Type} (P : Platform World).
Variable formatAge : Z -> string -> string.
Variable cfg : config.Global.
Variable registry : tool.Registry.
Variable rangeOf : string -> list string.

Local Abbreviation ensure := (ensureData P formatAge cfg registry rangeOf).

Lemma ensureData_extends fuel : forall target st b st',
  ensure fuel target st = Some (b, st') -> extends st st'.
Proof.
  induction fuel as [|fuel IH]; intros target st b st' H; [done|].
  simpl in H.
  destruct (isVisited st target) eqn:Hvis.
  { injection H as <- <-. apply extends_refl. }
  destruct (config.GetIntent cfg target) as [intent|].
  { eapply extends_trans; [apply (extends_mark target)|].
    eapply ensureAll_extends; [|exact H]. intros; by eapply IH. }
  destruct (tool.FindByProvides _ _ _) as [t|].
  2:{ injection H as <- <-. apply extends_mark. }
  set (st1 := markVisited target st) in *.
  destruct (negb (String.eqb (tool.Output t) EmptyString)) eqn:Hout.
  - destruct (freshness.Check _ _ _ _ _) as [[fresh msg] w] eqn:Hchk.
    set (st2 := record _ w st1) in *.
    assert (extends st1 st2) as H12 by apply extends_check.
    destruct fresh.
    { injection H as <- <-.
      eapply extends_trans; [apply (extends_mark target)|done]. }
    destruct (ensureAll _ _ st2) as [[[] st3]|] eqn:Hall; [|..|done].
    + destruct (runner_Run P t [] (world st3)) as [[code err] w'].
      assert (extends st (record (EvRun target t) w' st3)) as Hfin.
      { apply extends_run; [done|].
        eapply extends_trans; [exact H12|].
        eapply ensureAll_extends; [|exact Hall]. intros; by eapply IH. }
      destruct err; [by injection H as <- <-|].
      destruct (negb (code =? 0)%Z); by injection H as <- <-.
    + injection H as <- <-.
      eapply extends_trans; [apply (extends_mark target)|].
      eapply extends_trans; [exact H12|].
      eapply ensureAll_extends; [|exact Hall]. intros; by eapply IH.
  - destruct (ensureAll _ _ st1) as [[[] st3]|] eqn:Hall; [|..|done].
    + destruct (runner_Run P t [] (world st3)) as [[code err] w'].
      assert (extends st (record (EvRun target t) w' st3)) as Hfin.
      { apply extends_run; [done|].
        eapply ensureAll_extends; [|exact Hall]. intros; by eapply IH. }
      destruct err; [by injection H as <- <-|].
      destruct (negb (code =? 0)%Z); by injection H as <- <-.
    + injection H as <- <-.
      eapply extends_trans; [apply (extends_mark target)|].
      eapply ensureAll_extends; [|exact Hall]. intros; by eapply IH.
Qed.

(** *** Termination *)

Lemma unvisited_mono (st st' : State World) l :
  (forall x, isVisited st x = true -> isVisited st' x = true) ->
  unvisited st' l <= unvisited st l.
Proof.
  intros Hv. unfold unvisited. induction l as [|a l IH]; [done|].
  rewrite !filter_cons. repeat case_decide; simpl; try lia.
  destruct (isVisited st a) eqn:E; [|done]. apply Hv in E. congruence.
Qed.

Lemma unvisited_lt (st st' : State World) l t :
  (forall x, isVisited st x = true -> isVisited st' x = true) ->
  t ∈ l -> isVisited st t = false -> isVisited st' t = true ->
  unvisited st' l < unvisited st l.
Proof.
  intros Hv Hin Hf Ht. induction l as [|a l IH]; [by inversion Hin|].
  pose proof (unvisited_mono st st' l Hv) as Hle.
  unfold unvisited in *. rewrite !filter_cons.
  apply elem_of_cons in Hin as [<-|Hin].
  - repeat case_decide; simpl; try lia; congruence.
  - specialize (IH Hin). repeat case_decide; simpl; try lia.
    destruct (isVisited st a) eqn:E; [|done]. apply Hv in E. congruence.
Qed.

Lemma unvisited_le_length (st : State World) l : unvisited st l <= length l.
Proof. unfold unvisited. apply length_filter. Qed.

Lemma FindByProvides_lookup keys data t :
  tool.FindByProvides keys registry data = Some t ->
  exists k, tool.Tools registry !! k = Some t /\ tool.providesData t data = true.
Proof.
  unfold tool.FindByProvides. induction keys as [|k keys IH]; simpl; [done|].
  destruct (tool.Tools registry !! k) as [t'|] eqn:E; [|done].
  destruct (tool.providesData t' data) eqn:Hp; [|done].
  intros [= <-]. eauto.
Qed.

(** A whole pass over the map finds a provider whenever there is one. *)
Lemma FindByProvides_complete keys data name t :
  tool.rangeOrder registry keys ->
  tool.Tools registry !! name = Some t ->
  tool.providesData t data = true ->
  is_Some (tool.FindByProvides keys registry data).
Proof.
  intros Hperm Hname Hprov.
  assert (name ∈ keys) as Hin.
  { unfold tool.rangeOrder in Hperm. rewrite Hperm.
    apply list_elem_of_fmap. exists (name, t). split; [done|].
    by apply elem_of_map_to_list. }
  clear Hperm. unfold tool.FindByProvides.
  induction keys as [|k keys IH]; [by apply elem_of_nil in Hin|].
  simpl. destruct (tool.Tools registry !! k) as [t'|] eqn:E.
  - destruct (tool.providesData t' data) eqn:Hp; [eauto|].
    apply elem_of_cons in Hin as [->|Hin]; [congruence|by apply IH].
  - apply elem_of_cons in Hin as [->|Hin]; [congruence|by apply IH].
Qed.

Lemma requires_in_names k t x :
  tool.Tools registry !! k = Some t -> x ∈ tool.Requires t ->
  x ∈ names cfg registry.
Proof.
  intros Hk Hx. unfold names. apply elem_of_app. right.
  apply list_elem_of_In, in_concat. exists (tool.Requires t).
  split; [|by apply list_elem_of_In].
  apply in_map_iff. exists (k, t). split; [done|].
  by apply list_elem_of_In, elem_of_map_to_list.
Qed.

Lemma includes_in_names target intent x :
  config.GetIntent cfg target = Some intent -> x ∈ config.Includes intent ->
  x ∈ names cfg registry.
Proof.
  intros Hk Hx. unfold names. apply elem_of_app. left.
  apply list_elem_of_In, in_concat. exists (config.Includes intent).
  split; [|by apply list_elem_of_In].
  apply in_map_iff. exists (target, intent). split; [done|].
  by apply list_elem_of_In, elem_of_map_to_list.
Qed.

Lemma ensureAll_total fuel k items : forall st,
  (forall item st', item ∈ items -> unvisited st' (names cfg registry) <= k ->
                    is_Some (ensure fuel item st')) ->
  unvisited st (names cfg registry) <= k ->
  is_Some (ensureAll (ensure fuel) items st).
Proof.
  induction items as [|item items IH]; intros st Hens Hk; simpl; [eauto|].
  destruct (Hens item st) as [[b st1] E]; [constructor|done|].
  rewrite E. destruct b; [|eauto].
  apply IH.
  - intros i s Hi. apply Hens. by constructor.
  - apply ensureData_extends in E as [Hv _].
    pose proof (unvisited_mono st st1 (names cfg registry) Hv). lia.
Qed.

Lemma ensure_body fuel target st :
  (forall item st', item ∈ names cfg registry ->
                    unvisited st' (names cfg registry) < fuel ->
                    is_Some (ensure fuel item st')) ->
  unvisited (markVisited target st) (names cfg registry) < fuel ->
  is_Some (ensure (S fuel) target st).
Proof.
  intros IH Hm. simpl.
  destruct (isVisited st target); [eauto|].
  set (st1 := markVisited target st) in *.
  assert (forall items (s : State World),
            (forall x, x ∈ items -> x ∈ names cfg registry) ->
            unvisited s (names cfg registry) < fuel ->
            is_Some (ensureAll (ensure fuel) items s)) as Hloop.
  { intros items s Hin Hs. destruct fuel as [|fuel']; [lia|].
    apply (ensureAll_total _ fuel'); [|lia].
    intros item s' Hi Hs'. apply IH; [by apply Hin|lia]. }
  destruct (config.GetIntent cfg target) as [intent|] eqn:Hint.
  { apply Hloop; [|done]. intros x Hx. by eapply includes_in_names. }
  destruct (tool.FindByProvides _ _ _) as [t|] eqn:Hfind; [|eauto].
  apply FindByProvides_lookup in Hfind as (k & Hk & _).
  assert (forall x, x ∈ tool.Requires t -> x ∈ names cfg registry) as Hreq.
  { intros x Hx. by eapply requires_in_names. }
  destruct (negb (String.eqb (tool.Output t) EmptyString)).
  - destruct (freshness.Check _ _ _ _ _) as [[fresh msg] w].
    destruct fresh; [eauto|].
    destruct (Hloop (tool.Requires t) (record (EvCheck target (outputPath t) (tool.Freshness t)) w st1))
      as [[b st3] E]; [done|done|].
    rewrite E. destruct b; [|eauto].
    destruct (runner_Run P t [] (world st3)) as [[code err] w'].
    destruct err; [eauto|]. destruct (negb (code =? 0)%Z); eauto.
  - destruct (Hloop (tool.Requires t) st1) as [[b st3] E]; [done|done|].
    rewrite E. destruct b; [|eauto].
    destruct (runner_Run P t [] (world st3)) as [[code err] w'].
    destruct err; [eauto|]. destruct (negb (code =? 0)%Z); eauto.
Qed.

Lemma ensure_inner fuel : forall target st,
  target ∈ names cfg registry ->
  unvisited st (names cfg registry) < fuel ->
  is_Some (ensure fuel target st).
Proof.
  induction fuel as [|fuel IH]; intros target st Hin Hm; [lia|].
  destruct (isVisited st target) eqn:Hvis.
  { simpl. rewrite Hvis. eauto. }
  apply ensure_body; [done|].
  pose proof (extends_mark target st) as [Hv _].
  pose proof (unvisited_lt st (markVisited target st) _ target Hv Hin Hvis
                           (isVisited_mark_eq target st)).
  lia.
Qed.

Lemma ensure_total fuel target st :
  enoughFuel cfg registry <= fuel -> is_Some (ensure fuel target st).
Proof.
  unfold enoughFuel. intros Hf. destruct fuel as [|fuel]; [lia|].
  apply ensure_body; [intros; by apply ensure_inner|].
  pose proof (unvisited_le_length (markVisited target st) (names cfg registry)).
  lia.
Qed.

(** More fuel does not change a result. *)
Lemma ensureAll_fuel_mono (f g : string -> State World -> option (bool * State World)) :
  (forall item st r, f item st = Some r -> g item st = Some r) ->
  forall items st r, ensureAll f items st = Some r -> ensureAll g items st = Some r.
Proof.
  intros Hfg items. induction items as [|item items IH]; intros st r; simpl; [done|].
  destruct (f item st) as [[[] st1]|] eqn:E; [| |done].
  - rewrite (Hfg _ _ _ E). apply IH.
  - by rewrite (Hfg _ _ _ E).
Qed.

Lemma ensureData_fuel_mono fuel : forall fuel' target st r,
  fuel <= fuel' -> ensure fuel target st = Some r -> ensure fuel' target st = Some r.
Proof.
  induction fuel as [|fuel IH]; intros fuel' target st r Hle H; [done|].
  destruct fuel' as [|fuel']; [lia|].
  assert (forall items s r', ensureAll (ensure fuel) items s = Some r' ->
                             ensureAll (ensure fuel') items s = Some r') as Hall.
  { apply ensureAll_fuel_mono. intros. eapply IH; [lia|done]. }
  simpl in *.
  destruct (isVisited st target); [done|].
  destruct (config.GetIntent cfg target); [by apply Hall|].
  destruct (tool.FindByProvides _ _ _) as [t|]; [|done].
  destruct (negb (String.eqb (tool.Output t) EmptyString)).
  - destruct (freshness.Check _ _ _ _ _) as [[[] msg] w]; [done|].
    destruct (ensureAll (ensure fuel) _ _) as [r'|] eqn:E; [|done].
    by rewrite (Hall _ _ _ E).
  - destruct (ensureAll (ensure fuel) _ _) as [r'|] eqn:E; [|done].
    by rewrite (Hall _ _ _ E).
Qed.

End Ensure.

End resolver_facts.

(** ** The resolver: the claims *)

Module resolver_claims.
Import resolver resolver_spec resolver_facts.

Section Claims.
Context {World : Type} (P : Platform World).
Variable formatAge : Z -> string -> string.
Variable cfg : config.Global.
Variable registry : tool.Registry.
Variable rangeOf : string -> list string.

Local Abbreviation ensure := (ensureData P formatAge cfg registry rangeOf).

(** C1. One invocation of the resolver, started by [tctl get] with an
    empty visited map, returns, and the tools it has run were run for
    pairwise different targets: no target is produced twice, whatever
    the shape of the dependency graph. *)
Theorem ensure_runs_each_target_once (target : string) (w : World) (k : nat) :
  exists b st',
    ensure (enoughFuel cfg registry + k) target (initial w) = Some (b, st') /\
    NoDup (produced (trace st')).
Proof.
  destruct (ensure_total P formatAge cfg registry rangeOf
              (enoughFuel cfg registry + k) target (initial w))
    as [[b st'] E]; [lia|].
  exists b, st'. split; [done|].
  apply ensureData_extends in E as [_ (more & Hp & Hnd & _)].
  simpl in Hp. by rewrite Hp.
Qed.

(** The same from any state: the targets produced by one call are new to
    the visited map and pairwise different. *)
Lemma ensure_produces_fresh_targets fuel target st b st' :
  ensure fuel target st = Some (b, st') ->
  exists new,
    produced (trace st') = produced (trace st) ++ new /\ NoDup new /\
    forall x, x ∈ new -> isVisited st x = false.
Proof.
  intros [_ (more & Hp & Hnd & Hn)]%ensureData_extends.
  exists (produced more). rewrite Hp, produced_app.
  repeat split; [done..|]. intros x Hx. by destruct (Hn x Hx).
Qed.

(** C2. Whatever the registry and the intents are, cyclic or not, a call
    of the resolver returns once the recursion may go [enoughFuel] deep;
    and a call for a target that is already marked returns success at
    once, in the state it was called in. *)
Theorem ensure_terminates (target : string) (st : State World) (k : nat) :
  (exists b st', ensure (enoughFuel cfg registry + k) target st = Some (b, st')) /\
  (isVisited st target = true ->
   forall fuel, ensure (S fuel) target st = Some (true, st)).
Proof.
  split.
  - destruct (ensure_total P formatAge cfg registry rangeOf
                (enoughFuel cfg registry + k) target st) as [[b st'] E]; [lia|].
    by exists b, st'.
  - intros Hvis fuel. simpl. by rewrite Hvis.
Qed.

Lemma providesData_false t data :
  data ∉ tool.Provides t -> tool.providesData t data = false.
Proof.
  unfold tool.providesData. intros Hn.
  destruct (existsb _ _) eqn:E; [|done].
  apply existsb_exists in E as (p & Hin & ->%String.eqb_eq).
  by apply list_elem_of_In in Hin.
Qed.

Lemma FindByProvides_none keys data :
  (forall name t, tool.Tools registry !! name = Some t -> data ∉ tool.Provides t) ->
  tool.FindByProvides keys registry data = None.
Proof.
  intros Hno. unfold tool.FindByProvides.
  induction keys as [|k keys IH]; simpl; [done|].
  destruct (tool.Tools registry !! k) as [t|] eqn:E; [|done].
  by rewrite (providesData_false t data (Hno k t E)).
Qed.

(** C8. A target that is not marked, is no intent and is provided by no
    tool of the registry: the call fails, and all it does is mark the
    target. The world is not touched and nothing is added to the trace,
    so no tool is run. *)
Theorem ensure_unknown_fails (target : string) (st : State World) (fuel : nat) :
  isVisited st target = false ->
  config.GetIntent cfg target = None ->
  (forall name t, tool.Tools registry !! name = Some t ->
                  target ∉ tool.Provides t) ->
  ensure (S fuel) target st = Some (false, markVisited target st) /\
  trace (markVisited target st) = trace st /\
  world (markVisited target st) = world st.
Proof.
  intros Hvis Hint Hno. split; [|done].
  simpl. rewrite Hvis, Hint. by rewrite FindByProvides_none.
Qed.

(** C10. The tool found for the target declares an output and the check
    of that output says fresh: the call succeeds. It has marked the
    target and asked for that one check, nothing else: no requirement of
    the tool is marked by it and no tool is run. *)
Theorem ensure_fresh_skips_requires (target : string) (st : State World)
        (fuel : nat) (t : tool.Tool) (msg : string) (w' : World) :
  isVisited st target = false ->
  config.GetIntent cfg target = None ->
  tool.FindByProvides (rangeOf target) registry target = Some t ->
  tool.Output t <> EmptyString ->
  freshness.Check P formatAge (outputPath t) (tool.Freshness t) (world st)
  = ((true, msg), w') ->
  let st' := record (EvCheck target (outputPath t) (tool.Freshness t)) w'
                    (markVisited target st) in
  ensure (S fuel) target st = Some (true, st') /\
  produced (trace st') = produced (trace st) /\
  (forall dep, dep ∈ tool.Requires t -> dep <> target ->
               isVisited st' dep = isVisited st dep).
Proof.
  intros Hvis Hint Hfind Hout Hchk st'. split; [|split].
  - simpl. rewrite Hvis, Hint, Hfind.
    apply String.eqb_neq in Hout. rewrite Hout. simpl.
    by rewrite Hchk.
  - subst st'. simpl. by rewrite produced_snoc, app_nil_r.
  - intros dep _ Hne. subst st'. unfold isVisited at 1. simpl.
    by rewrite lookup_insert_ne.
Qed.

End Claims.

End resolver_claims.

(** ** The resolver: which path is checked *)

Module output_path_claims.
Import resolver resolver_spec resolver_facts filepath_spec filepath_facts sample.

Section Claims.
Context {World : Type} (P : Platform World).
Variable formatAge : Z -> string -> string.
Variable cfg : config.Global.
Variable registry : tool.Registry.
Variable rangeOf : string -> list string.

Local Abbreviation ensure := (ensureData P formatAge cfg registry rangeOf).

(** C5. The tool found for the target declares an output. The first
    thing the call then asks of the world is the freshness of one path
    under the tool's policy: the output itself when it is absolute, and
    otherwise the output joined to the parent of the directory that holds
    the tool's file. The answer for that path decides: on fresh the call
    succeeds and asks nothing more. *)
Theorem ensure_checks_resolved_output (target : string) (st : State World)
        (fuel : nat) (t : tool.Tool) (b : bool) (st' : State World) :
  isVisited st target = false ->
  config.GetIntent cfg target = None ->
  tool.FindByProvides (rangeOf target) registry target = Some t ->
  tool.Output t <> EmptyString ->
  ensure (S fuel) target st = Some (b, st') ->
  exists more,
    trace st' = trace st ++ EvCheck target (resolvedOutput t) (tool.Freshness t) :: more /\
    ((freshness.Check P formatAge (resolvedOutput t) (tool.Freshness t) (world st)).1.1 = true ->
     b = true /\ more = []).
Proof.
  intros Hvis Hint Hfind Hout H.
  simpl in H. rewrite Hvis, Hint, Hfind in H.
  apply String.eqb_neq in Hout. rewrite Hout in H. simpl in H.
  rewrite outputPath_resolved in H.
  destruct (freshness.Check _ _ _ _ _) as [[fresh msg] w] eqn:Hchk. simpl.
  set (st2 := record _ w (markVisited target st)) in *.
  destruct fresh.
  { injection H as <- <-. exists []. by split. }
  destruct (ensureAll _ _ st2) as [[ok st3]|] eqn:Hall; [|done].
  assert (extends st2 st3) as [_ (more & Hmore & _)].
  { eapply ensureAll_extends; [|exact Hall]. intros; by eapply ensureData_extends. }
  destruct ok.
  - destruct (runner_Run P t [] (world st3)) as [[code err] w'].
    exists (more ++ [EvRun target t]). split; [|done].
    assert (trace (record (EvRun target t) w' st3)
            = trace st ++ EvCheck target (resolvedOutput t) (tool.Freshness t)
                    :: more ++ [EvRun target t]) as Htr.
    { simpl. rewrite Hmore. subst st2. simpl. by rewrite <- !app_assoc. }
    destruct err; [by injection H as <- <-|].
    destruct (negb (code =? 0)%Z); by injection H as <- <-.
  - injection H as <- <-. exists more. split; [|done].
    rewrite Hmore. subst st2. simpl. by rewrite <- app_assoc.
Qed.

End Claims.

(** C5 on the scenario of the specification: the tool [b] lies in
    [root/tools]; its output [out.csv] is looked for in [root]. *)
Lemma ensure_checks_resolved_output_witness :
  exists more,
    trace (record (EvCheck "y" "root/out.csv" "daily") freshWorld
                  (markVisited "y" (initial freshWorld)))
    = [] ++ EvCheck "y" (resolvedOutput toolB) "daily" :: more /\
    ((freshness.Check testPlatform testFormatAge (resolvedOutput toolB) "daily"
                      freshWorld).1.1 = true -> true = true /\ more = []).
Proof.
  apply (ensure_checks_resolved_output testPlatform testFormatAge noIntents
           abRegistry abOrder "y" (initial freshWorld) 0 toolB true).
  - reflexivity.
  - reflexivity.
  - reflexivity.
  - discriminate.
  - vm_compute. reflexivity.
Defined.

Example resolvedOutput_examples :
  resolvedOutput toolB = "root/out.csv" /\
  resolvedOutput (tool.setOutput "/var/data/out.csv" toolB) = "/var/data/out.csv" /\
  resolvedOutput (tool.setOutput "../shared/out.csv" toolB) = "shared/out.csv" /\
  resolvedOutput (tool.setFile "b.py" toolB) = "../out.csv" /\
  resolvedOutput (tool.setFile "/b.py" toolB) = "/out.csv".
Proof. vm_compute. repeat split; reflexivity. Qed.

End output_path_claims.

(** ** The resolver on the sample catalogues *)

Module resolver_examples.
Import resolver resolver_spec resolver_claims sample.

(** The scenario of the specification: [b] is produced, then [a]. *)
Example scenario_x :
  summary (run noIntents abRegistry abOrder 3 "x" (initial emptyWorld))
  = Some (true, ["y"; "x"], [("y", "root/out.csv")]).
Proof. vm_compute. reflexivity. Qed.

(** With [out.csv] fresh only [a] is run. *)
Example scenario_x_fresh :
  summary (run noIntents abRegistry abOrder 3 "x" (initial freshWorld))
  = Some (true, ["x"], [("y", "root/out.csv")]).
Proof. vm_compute. reflexivity. Qed.

(** The diamond: [base] is reached twice and produced once. *)
Example diamond_once :
  summary (run noIntents diamondRegistry diamondOrder 4 "top" (initial emptyWorld))
  = Some (true, ["base"; "left"; "right"; "top"], []).
Proof. vm_compute. reflexivity. Qed.

(** The cycles. *)
Example cycle_tools :
  summary (run cycleIntents cycleRegistry cycleOrder 3 "A" (initial emptyWorld))
  = Some (true, ["B"; "A"], []).
Proof. vm_compute. reflexivity. Qed.

Example cycle_intent :
  summary (run cycleIntents cycleRegistry cycleOrder 5 "everything" (initial emptyWorld))
  = Some (true, ["C"; "B"; "A"], []).
Proof. vm_compute. reflexivity. Qed.

(** Too little fuel gives no result rather than a wrong one. *)
Example diamond_out_of_fuel :
  run noIntents diamondRegistry diamondOrder 2 "top" (initial emptyWorld) = None.
Proof. vm_compute. reflexivity. Qed.

(** C2 on the cyclic catalogue: the call for [A] returns, and a call for
    the marked [B] returns at once. *)
Lemma ensure_terminates_witness :
  (exists b st',
     run cycleIntents cycleRegistry cycleOrder
         (enoughFuel cycleIntents cycleRegistry + 0) "A" (initial emptyWorld)
     = Some (b, st')) /\
  run cycleIntents cycleRegistry cycleOrder 1 "B"
      (markVisited "B" (markVisited "A" (initial emptyWorld)))
  = Some (true, markVisited "B" (markVisited "A" (initial emptyWorld))).
Proof.
  split.
  - exact (proj1 (ensure_terminates testPlatform testFormatAge cycleIntents
                    cycleRegistry cycleOrder "A" (initial emptyWorld) 0)).
  - apply (proj2 (ensure_terminates testPlatform testFormatAge cycleIntents
                    cycleRegistry cycleOrder "B"
                    (markVisited "B" (markVisited "A" (initial emptyWorld))) 0)).
    reflexivity.
Defined.

Lemma abRegistry_tools name t :
  tool.Tools abRegistry !! name = Some t -> t = toolA \/ t = toolB.
Proof.
  intros H%elem_of_map_to_list.
  set (l := map_to_list _) in H. vm_compute in l. subst l.
  apply elem_of_cons in H as [[= _ ->]|H]; [by left|].
  apply elem_of_cons in H as [[= _ ->]|H]; [by right|].
  by apply elem_of_nil in H.
Qed.

(** C8 on the scenario of the specification. *)
Lemma ensure_unknown_fails_witness :
  run noIntents abRegistry abOrder 1 "unknown-artifact" (initial emptyWorld)
  = Some (false, markVisited "unknown-artifact" (initial emptyWorld)) /\
  trace (markVisited "unknown-artifact" (initial emptyWorld)) = [] /\
  world (markVisited "unknown-artifact" (initial emptyWorld)) = emptyWorld.
Proof.
  apply (ensure_unknown_fails testPlatform testFormatAge noIntents abRegistry
           abOrder "unknown-artifact" (initial emptyWorld) 0).
  - reflexivity.
  - reflexivity.
  - intros name t [-> | ->]%abRegistry_tools Hin;
      apply list_elem_of_In in Hin; simpl in Hin; intuition discriminate.
Defined.

(** C10 on the scenario of the specification, with [out.csv] an hour
    old: [y] is fresh and tool [b] is not run. *)
Lemma ensure_fresh_skips_requires_witness :
  run noIntents abRegistry abOrder 1 "y" (initial freshWorld)
  = Some (true, record (EvCheck "y" "root/out.csv" "daily") freshWorld
                       (markVisited "y" (initial freshWorld))).
Proof.
  refine (proj1 (ensure_fresh_skips_requires testPlatform testFormatAge
                   noIntents abRegistry abOrder "y" (initial freshWorld) 0
                   toolB "fresh" freshWorld _ _ _ _ _)).
  - reflexivity.
  - reflexivity.
  - reflexivity.
  - discriminate.
  - reflexivity.
Defined.

End resolver_examples.

(** ** The registry *)

Module registry_facts.
Local Open Scope list_scope.

(** Looking a name up after [Add]: a tool with a name is found under
    that name and replaces what was there, every other name is as
    before; a nil pointer or a tool without a name changes nothing. *)
Lemma Get_Add (r : tool.Registry) (t : tool.Tool) (name : string) :
  tool.Get (tool.Add r (Some t)) name
  = (if decide (tool.Name t = EmptyString) then tool.Get r name
     else if decide (name = tool.Name t) then Some t
     else tool.Get r name) /\
  tool.Add r None = r.
Proof.
  split; [|done]. unfold tool.Get, tool.Add.
  destruct (String.eqb_spec (tool.Name t) EmptyString) as [E|E];
    case_decide; try done.
  simpl. case_decide as Hn.
  - subst. by rewrite lookup_insert_eq.
  - by rewrite lookup_insert_ne.
Qed.

(** X1. Looking a name up after a series of [Add]: the last tool added
    with that name is found, whatever stood there before, and without one
    the registry answers as before; nil pointers and tools without a
    name are never found, and the empty name is as before. *)
Theorem Get_after_Add (tools : list (option tool.Tool)) (r : tool.Registry)
        (name : string) :
  tool.Get (fold_left tool.Add tools r) name
  = if decide (name = EmptyString) then tool.Get r name
    else match last (registry_spec.named name tools) with
         | Some t => Some t
         | None => tool.Get r name
         end.
Proof.
  revert r. induction tools as [|t tools IH] using rev_ind; intros r.
  { simpl. by case_decide. }
  rewrite fold_left_app. cbn [fold_left]. unfold registry_spec.named.
  rewrite omap_app, List.filter_app.
  destruct t as [t|].
  - destruct (Get_Add (fold_left tool.Add tools r) t name) as [-> _].
    rewrite IH. unfold registry_spec.named.
    change (omap id [Some t]) with [t]. cbn [List.filter].
    destruct (String.eqb_spec (tool.Name t) name) as [E|E].
    + rewrite last_snoc. subst name. repeat case_decide; done.
    + rewrite app_nil_r. repeat case_decide; try done; congruence.
  - change (omap id [@None tool.Tool]) with (@nil tool.Tool).
    cbn [List.filter]. rewrite app_nil_r. apply IH.
Qed.

Lemma providesData_spec t data :
  tool.providesData t data = true <-> data ∈ tool.Provides t.
Proof.
  unfold tool.providesData. rewrite existsb_exists. split.
  - intros (p & Hin & ->%String.eqb_eq). by apply list_elem_of_In.
  - intros Hin. exists data. split; [by apply list_elem_of_In|].
    apply String.eqb_refl.
Qed.

Lemma findByProvidesLoop_Some r data keys t :
  tool.findByProvidesLoop r data keys = Some t ->
  exists name, name ∈ keys /\ tool.Tools r !! name = Some t /\
               data ∈ tool.Provides t.
Proof.
  induction keys as [|k keys IH]; simpl; [done|].
  destruct (tool.Tools r !! k) as [t'|] eqn:E.
  - destruct (tool.providesData t' data) eqn:Hp.
    + intros [= <-]. exists k. split; [by left|]. split; [done|].
      by apply providesData_spec.
    + intros (name & Hin & H)%IH. exists name. split; [by right|done].
  - intros (name & Hin & H)%IH. exists name. split; [by right|done].
Qed.

Lemma findByProvidesLoop_None r data keys :
  tool.findByProvidesLoop r data keys = None ->
  forall name t, name ∈ keys -> tool.Tools r !! name = Some t ->
                 data ∉ tool.Provides t.
Proof.
  induction keys as [|k keys IH]; simpl; intros H name t Hin Hname.
  - by apply elem_of_nil in Hin.
  - destruct (tool.Tools r !! k) as [t'|] eqn:E.
    + destruct (tool.providesData t' data) eqn:Hp; [done|].
      apply elem_of_cons in Hin as [->|Hin]; [|by eapply IH].
      rewrite E in Hname. injection Hname as <-.
      intros Hd%providesData_spec. congruence.
    + apply elem_of_cons in Hin as [->|Hin]; [congruence|by eapply IH].
Qed.

Lemma rangeOrder_elem r keys name t :
  tool.rangeOrder r keys -> tool.Tools r !! name = Some t -> name ∈ keys.
Proof.
  unfold tool.rangeOrder. intros -> H.
  apply list_elem_of_fmap. exists (name, t). split; [done|].
  by apply elem_of_map_to_list.
Qed.

(** X2. [FindByProvides], whatever order the loop over the map takes:
    a tool it returns is registered and lists the data among what it
    provides; it returns nil only when no registered tool provides the
    data. *)
Theorem FindByProvides_sound_complete (r : tool.Registry)
        (keys : list string) (data : string) :
  tool.rangeOrder r keys ->
  match tool.FindByProvides keys r data with
  | Some t =>
      (exists name, tool.Tools r !! name = Some t) /\ data ∈ tool.Provides t
  | None =>
      forall name t, tool.Tools r !! name = Some t -> data ∉ tool.Provides t
  end.
Proof.
  intros Hperm. unfold tool.FindByProvides.
  destruct (tool.findByProvidesLoop r data keys) as [t|] eqn:E.
  - apply findByProvidesLoop_Some in E as (name & _ & Hname & Hd). eauto.
  - intros name t Hname. eapply findByProvidesLoop_None; [done| |done].
    by eapply rangeOrder_elem.
Qed.

Lemma omap_lookup_fst (m : gmap string tool.Tool) (l : list (string * tool.Tool)) :
  (forall k v, (k, v) ∈ l -> m !! k = Some v) ->
  omap (fun k => m !! k) l.*1 = l.*2.
Proof.
  induction l as [|[k v] l IH]; intros H; [done|].
  simpl. rewrite (H k v) by by left. f_equal.
  apply IH. intros k' v' Hin. apply H. by right.
Qed.

(** X3. [All], whatever order the loop over the map takes, returns the
    registered tools, each of them once. *)
Theorem All_permutation (r : tool.Registry) (keys : list string) :
  tool.rangeOrder r keys ->
  tool.All keys r ≡ₚ (map_to_list (tool.Tools r)).*2 /\
  length (tool.All keys r) = size (tool.Tools r).
Proof.
  intros Hperm. unfold tool.rangeOrder in Hperm.
  assert (tool.All keys r ≡ₚ (map_to_list (tool.Tools r)).*2) as HP.
  { unfold tool.All. rewrite Hperm. rewrite omap_lookup_fst; [done|].
    intros k v. apply elem_of_map_to_list. }
  split; [done|]. rewrite HP, length_fmap. apply length_map_to_list.
Qed.

Lemma abRegistry_rangeOrder : tool.rangeOrder sample.abRegistry ["a"; "b"].
Proof.
  unfold tool.rangeOrder. set (l := map_to_list _). vm_compute in l. by subst l.
Qed.

Lemma FindByProvides_sound_complete_witness :
  match tool.FindByProvides ["a"; "b"] sample.abRegistry "y" with
  | Some t =>
      (exists name, tool.Tools sample.abRegistry !! name = Some t) /\
      "y" ∈ tool.Provides t
  | None =>
      forall name t, tool.Tools sample.abRegistry !! name = Some t ->
                     "y" ∉ tool.Provides t
  end.
Proof.
  apply (FindByProvides_sound_complete sample.abRegistry ["a"; "b"] "y").
  apply abRegistry_rangeOrder.
Defined.

Lemma All_permutation_witness :
  tool.All ["a"; "b"] sample.abRegistry
  ≡ₚ (map_to_list (tool.Tools sample.abRegistry)).*2 /\
  length (tool.All ["a"; "b"] sample.abRegistry)
  = size (tool.Tools sample.abRegistry).
Proof.
  apply (All_permutation sample.abRegistry ["a"; "b"]).
  apply abRegistry_rangeOrder.
Defined.

End registry_facts.

(** ** The tag parser: every tag *)

Module tags_facts.
Import strings scanner scanner_spec tags_spec parser_facts.
Local Open Scope list_scope.

Lemma HasPrefix_second s a b p d q :
  HasPrefix s (String a (String b p)) = true -> b <> d ->
  HasPrefix s (String a (String d q)) = false.
Proof.
  destruct s as [|x [|y s]]; simpl; [done| |].
  - by destruct (Ascii.eqb a x).
  - destruct (Ascii.eqb a x); [|done].
    destruct (Ascii.eqb_spec b y) as [->|]; [|done].
    intros _ Hne. by destruct (Ascii.eqb_spec d y) as [->|].
Qed.

(** In every branch of the switch that is taken for a tag other than
    [prefix], the test for [prefix] fails. *)
Ltac other_tag trimmed E :=
  match goal with
  | |- context [HasPrefix trimmed (String ?a (String ?d ?q))] =>
      rewrite (HasPrefix_second trimmed _ _ _ d q E) by discriminate
  end.

Ltac tag_switch trimmed :=
  unfold parseTag;
  repeat (match goal with
          | |- context [if HasPrefix trimmed ?p then _ else _] =>
              let E := fresh "E" in
              destruct (HasPrefix trimmed p) eqn:E;
              [first [reflexivity | other_tag trimmed E; reflexivity]|]
          end);
  simpl; by repeat (destruct (_ && _); simpl).

Lemma parseTag_Version trimmed st :
  tool.Version (ps_tool (parseTag trimmed st))
  = if HasPrefix trimmed "@version " then TrimSpace (dropBytes 9 trimmed)
    else tool.Version (ps_tool st).
Proof. tag_switch trimmed. Qed.

Lemma parseTag_Output trimmed st :
  tool.Output (ps_tool (parseTag trimmed st))
  = if HasPrefix trimmed "@output " then TrimSpace (dropBytes 8 trimmed)
    else tool.Output (ps_tool st).
Proof. tag_switch trimmed. Qed.

Lemma parseTag_Freshness trimmed st :
  tool.Freshness (ps_tool (parseTag trimmed st))
  = if HasPrefix trimmed "@freshness " then TrimSpace (dropBytes 11 trimmed)
    else tool.Freshness (ps_tool st).
Proof. tag_switch trimmed. Qed.

Lemma parseTag_Provides trimmed st :
  tool.Provides (ps_tool (parseTag trimmed st))
  = if HasPrefix trimmed "@provides "
    then tool.Provides (ps_tool st) ++ Fields (dropBytes 10 trimmed)
    else tool.Provides (ps_tool st).
Proof. tag_switch trimmed. Qed.

Lemma parseTag_Requires trimmed st :
  tool.Requires (ps_tool (parseTag trimmed st))
  = if HasPrefix trimmed "@requires "
    then tool.Requires (ps_tool st) ++ Fields (dropBytes 10 trimmed)
    else tool.Requires (ps_tool st).
Proof. tag_switch trimmed. Qed.

Lemma parseTag_Capabilities trimmed st :
  tool.Capabilities (ps_tool (parseTag trimmed st))
  = if HasPrefix trimmed "@capability "
    then tool.Capabilities (ps_tool st) ++ [TrimSpace (dropBytes 12 trimmed)]
    else tool.Capabilities (ps_tool st).
Proof. tag_switch trimmed. Qed.

Lemma parseTag_Boundaries trimmed st :
  tool.Boundaries (ps_tool (parseTag trimmed st))
  = if HasPrefix trimmed "@boundary "
    then tool.Boundaries (ps_tool st) ++ [TrimSpace (dropBytes 10 trimmed)]
    else tool.Boundaries (ps_tool st).
Proof. tag_switch trimmed. Qed.

Lemma parseTag_Examples trimmed st :
  tool.Examples (ps_tool (parseTag trimmed st))
  = if HasPrefix trimmed "@example "
    then tool.Examples (ps_tool st) ++ [TrimSpace (dropBytes 9 trimmed)]
    else tool.Examples (ps_tool st).
Proof. tag_switch trimmed. Qed.

Lemma parseTag_Keywords trimmed st :
  tool.Keywords (ps_tool (parseTag trimmed st))
  = if HasPrefix trimmed "@keywords "
    then tool.Keywords (ps_tool st) ++
         List.filter (fun kw => negb (String.eqb kw EmptyString))
           (List.map TrimSpace
              (splitKeywords EmptyString (TrimSpace (dropBytes 10 trimmed))))
    else tool.Keywords (ps_tool st).
Proof. tag_switch trimmed. Qed.

(** *** From the switch to the whole block *)

Section Field.
Context {A : Type} (g : tool.Tool -> A) (b : ascii) (rest : string).
Variable new : string -> A -> A.
Let prefix := String "@" (String b rest).
Hypothesis Htag : forall trimmed st,
  g (ps_tool (parseTag trimmed st))
  = if HasPrefix trimmed prefix then new trimmed (g (ps_tool st))
    else g (ps_tool st).
Hypothesis Hiface : forall i t, g (tool.setInterface i t) = g t.

Lemma parseLine_field st line :
  g (ps_tool (parseLine st line))
  = if HasPrefix (TrimSpace line) prefix
    then new (TrimSpace line) (g (ps_tool st))
    else g (ps_tool st).
Proof using Htag Hiface.
  unfold parseLine. destruct (ps_inInterface st).
  - destruct (HasPrefix (TrimSpace line) "--") eqn:Hdash.
    + subst prefix.
      rewrite (HasPrefix_other_head _ _ _ "@"%char (String b rest) Hdash) by done.
      destruct (parseInterfaceLine _); [|done]. simpl. apply Hiface.
    + destruct (HasPrefix (TrimSpace line) "@") eqn:Hat.
      * by rewrite Htag.
      * destruct (HasPrefix (TrimSpace line) prefix) eqn:E; [|done].
        apply HasPrefix_head in E. congruence.
  - apply Htag.
Qed.

Lemma fold_field lines : forall st,
  g (ps_tool (fold_left parseLine lines st))
  = fold_left (fun a line =>
                 if HasPrefix (TrimSpace line) prefix
                 then new (TrimSpace line) a else a)
              lines (g (ps_tool st)).
Proof using Htag Hiface.
  induction lines as [|line lines IH]; intros st; [done|].
  cbn [fold_left]. by rewrite IH, parseLine_field.
Qed.

End Field.

Lemma last_snoc_default {A} (l : list A) (x d : A) :
  default d (last (l ++ [x])) = x.
Proof. by rewrite last_snoc. Qed.

(** A tag that is assigned: the last line wins. *)
Lemma fold_scalar (prefix : string) (value : string -> string) lines : forall a0,
  fold_left (fun a line =>
               if HasPrefix (TrimSpace line) prefix
               then value (TrimSpace line) else a) lines a0
  = default a0
      (last (omap (fun line =>
                     if HasPrefix (TrimSpace line) prefix
                     then Some (value (TrimSpace line)) else None) lines)).
Proof.
  induction lines as [|line lines IH]; intros a0; [done|].
  cbn [fold_left]. rewrite IH.
  change (omap ?f (line :: lines))
    with (match f line with Some y => y :: omap f lines | None => omap f lines end).
  cbv beta.
  destruct (HasPrefix (TrimSpace line) prefix); [|done].
  destruct (omap _ lines) as [|y l]; [done|].
  rewrite last_cons_cons.
  destruct (last (y :: l)) eqn:E; [done|]. by apply last_None in E.
Qed.

(** A tag that is appended to: the lines add up, in order. *)
Lemma fold_list (prefix : string) (items : string -> list string) lines : forall a0,
  fold_left (fun a line =>
               if HasPrefix (TrimSpace line) prefix
               then a ++ items (TrimSpace line) else a) lines a0
  = a0 ++ concat (map (fun line =>
                         if HasPrefix (TrimSpace line) prefix
                         then items (TrimSpace line) else []) lines).
Proof.
  induction lines as [|line lines IH]; intros a0.
  - simpl. by rewrite app_nil_r.
  - cbn [fold_left map concat]. rewrite IH.
    destruct (HasPrefix (TrimSpace line) prefix); [by rewrite <- app_assoc|done].
Qed.

Lemma pickDescription_other {A} (g : tool.Tool -> A) descLines t :
  (forall d t', g (tool.setDescription d t') = g t') ->
  g (pickDescription descLines t) = g t.
Proof.
  intros H. unfold pickDescription.
  destruct (Nat.ltb _ _); [apply H|]. destruct (Nat.eqb _ _); [apply H|done].
Qed.

(** X4. The tags that are assigned: the version, the output and the
    freshness policy of the descriptor are the values of the last
    [@version], [@output] and [@freshness] line of the block; without
    such a line version and output are empty and the policy is
    [manual]. *)
Theorem assigned_tags_last_line_wins (doc : string) :
  exists t, parseDocstringTags doc = Some t /\
    tool.Version t
    = default EmptyString (last (omap (tagValue "@version ") (docLines doc))) /\
    tool.Output t
    = default EmptyString (last (omap (tagValue "@output ") (docLines doc))) /\
    tool.Freshness t
    = default "manual" (last (omap (tagValue "@freshness ") (docLines doc))).
Proof.
  eexists. split; [reflexivity|]. unfold parseLines, docLines.
  rewrite !pickDescription_other by done.
  rewrite (fold_field tool.Version _ _ (fun trimmed _ => TrimSpace (dropBytes 9 trimmed))
             parseTag_Version) by done.
  rewrite (fold_field tool.Output _ _ (fun trimmed _ => TrimSpace (dropBytes 8 trimmed))
             parseTag_Output) by done.
  rewrite (fold_field tool.Freshness _ _ (fun trimmed _ => TrimSpace (dropBytes 11 trimmed))
             parseTag_Freshness) by done.
  cbv beta.
  rewrite (fold_scalar "@version " (fun trimmed => TrimSpace (dropBytes 9 trimmed))).
  rewrite (fold_scalar "@output " (fun trimmed => TrimSpace (dropBytes 8 trimmed))).
  rewrite (fold_scalar "@freshness " (fun trimmed => TrimSpace (dropBytes 11 trimmed))).
  done.
Qed.

(** X5. The tags that are appended to: what the descriptor provides and
    requires are the fields of all [@provides] and [@requires] lines,
    its capabilities, boundaries and examples the values of all
    [@capability], [@boundary] and [@example] lines, and its keywords the
    non-empty pieces of all [@keywords] lines, each in the order of the
    lines. *)
Theorem appended_tags_add_up (doc : string) :
  exists t, parseDocstringTags doc = Some t /\
    tool.Provides t = concat (map (tagFields "@provides ") (docLines doc)) /\
    tool.Requires t = concat (map (tagFields "@requires ") (docLines doc)) /\
    tool.Capabilities t = concat (map (tagEntry "@capability ") (docLines doc)) /\
    tool.Boundaries t = concat (map (tagEntry "@boundary ") (docLines doc)) /\
    tool.Examples t = concat (map (tagEntry "@example ") (docLines doc)) /\
    tool.Keywords t = concat (map tagKeywords (docLines doc)).
Proof.
  eexists. split; [reflexivity|]. unfold parseLines, docLines.
  rewrite !pickDescription_other by done.
  rewrite (fold_field tool.Provides _ _
             (fun trimmed a => a ++ Fields (dropBytes 10 trimmed))
             parseTag_Provides) by done.
  rewrite (fold_field tool.Requires _ _
             (fun trimmed a => a ++ Fields (dropBytes 10 trimmed))
             parseTag_Requires) by done.
  rewrite (fold_field tool.Capabilities _ _
             (fun trimmed a => a ++ [TrimSpace (dropBytes 12 trimmed)])
             parseTag_Capabilities) by done.
  rewrite (fold_field tool.Boundaries _ _
             (fun trimmed a => a ++ [TrimSpace (dropBytes 10 trimmed)])
             parseTag_Boundaries) by done.
  rewrite (fold_field tool.Examples _ _
             (fun trimmed a => a ++ [TrimSpace (dropBytes 9 trimmed)])
             parseTag_Examples) by done.
  rewrite (fold_field tool.Keywords _ _
             (fun trimmed a => a ++
                List.filter (fun kw => negb (String.eqb kw EmptyString))
                  (List.map TrimSpace
                     (splitKeywords EmptyString (TrimSpace (dropBytes 10 trimmed)))))
             parseTag_Keywords) by done.
  cbv beta.
  rewrite (fold_list "@provides " (fun trimmed => Fields (dropBytes 10 trimmed))).
  rewrite (fold_list "@requires " (fun trimmed => Fields (dropBytes 10 trimmed))).
  rewrite (fold_list "@capability " (fun trimmed => [TrimSpace (dropBytes 12 trimmed)])).
  rewrite (fold_list "@boundary " (fun trimmed => [TrimSpace (dropBytes 10 trimmed)])).
  rewrite (fold_list "@example " (fun trimmed => [TrimSpace (dropBytes 9 trimmed)])).
  rewrite (fold_list "@keywords "
             (fun trimmed =>
                List.filter (fun kw => negb (String.eqb kw EmptyString))
                  (List.map TrimSpace
                     (splitKeywords EmptyString (TrimSpace (dropBytes 10 trimmed)))))).
  change (tool.Provides tool.zero) with (@nil string).
  repeat split; apply (f_equal (@concat string)), map_ext; intros line;
    unfold tagFields, tagEntry, tagKeywords, tagValue;
    by destruct (HasPrefix (TrimSpace line) _).
Qed.

End tags_facts.

(** ** The interface block *)

Module interface_facts.
Import strings scanner scanner_spec interface_spec parser_facts filepath_facts tags_facts.
Local Open Scope list_scope.

Lemma spanName_spec s :
  s = fst (spanName s) +:+ snd (spanName s) /\
  allBytes isNameByte (fst (spanName s)) = true.
Proof.
  induction s as [|c r [IH1 IH2]]; [done|].
  simpl. destruct (isNameByte c) eqn:Hc.
  - destruct (spanName r) as [a b]. simpl in *. rewrite append_cons.
    split; [by rewrite <- IH1|by rewrite Hc].
  - simpl. by rewrite append_empty_l.
Qed.

Lemma HasPrefix_self_append s p : HasPrefix (p +:+ s) p = true.
Proof.
  induction p as [|a p IH]; [by destruct s|].
  rewrite append_cons. simpl. by rewrite Ascii.eqb_refl.
Qed.

Lemma HasPrefix_append_l s p q :
  HasPrefix s (p +:+ q) = true -> HasPrefix s p = true.
Proof.
  revert s. induction p as [|a p IH]; intros s; [by destruct s|].
  rewrite append_cons. simpl. destruct s as [|b s]; [done|].
  destruct (Ascii.eqb a b); [apply IH|done].
Qed.

Lemma HasPrefix_drop s p :
  HasPrefix s p = true -> s = p +:+ dropBytes (String.length p) s.
Proof.
  revert s. induction p as [|a p IH]; intros s H.
  - by rewrite append_empty_l.
  - destruct s as [|b s]; [done|]. simpl in H.
    destruct (Ascii.eqb a b) eqn:E; [|done]. apply Ascii.eqb_eq in E. subst b.
    rewrite append_cons. simpl. f_equal. by apply IH.
Qed.

Lemma matchInterfaceLine_Some s name rest :
  matchInterfaceLine s = Some (name, rest) ->
  argName name /\ HasPrefix s (name +:+ ":") = true.
Proof.
  unfold matchInterfaceLine. destruct (HasPrefix s "--") eqn:Hp; [|done].
  apply HasPrefix_drop in Hp. change (String.length "--") with 2 in Hp.
  remember (dropBytes 2 s) as d eqn:Hd. clear Hd. subst s.
  destruct (spanName_spec d) as [Hs Hall].
  destruct (spanName d) as [nm r]. cbn [fst snd] in Hs, Hall.
  destruct nm as [|a nm]; [done|]. destruct r as [|c r]; [done|].
  destruct (Ascii.eqb c ":") eqn:Hc; [|done]. apply Ascii.eqb_eq in Hc. subst c.
  destruct (restGroup r) as [g|]; [|done]. intros [= <- <-]. split.
  - exists (String a nm). by repeat split.
  - rewrite Hs. change (String ":" r) with (":" +:+ r).
    rewrite <- !append_assoc. apply HasPrefix_self_append.
Qed.

(** The loop over the parts after the first one. *)
Lemma specLoop_later parts : forall i argType required defaultVal,
  i <> 0 ->
  specLoop i parts (argType, required, defaultVal)
  = (argType,
     required || existsb (fun part => String.eqb part "required")
                         (List.map TrimSpace parts),
     default defaultVal
       (last (omap (fun part =>
                      if String.eqb part "required" then None
                      else if HasPrefix part "default="
                      then Some (dropBytes 8 part) else None)
                   (List.map TrimSpace parts)))).
Proof.
  induction parts as [|part parts IH]; intros i argType required defaultVal Hi.
  - simpl. by rewrite orb_false_r.
  - cbn [specLoop]. destruct (Nat.eqb_spec i 0) as [|_]; [done|].
    cbn [List.map existsb].
    change (omap ?f (?x :: ?l))
      with (match f x with Some y => y :: omap f l | None => omap f l end).
    cbv beta.
    destruct (String.eqb (TrimSpace part) "required").
    + rewrite IH by done. by rewrite orb_true_r, orb_true_l.
    + destruct (HasPrefix (TrimSpace part) "default=") eqn:Hd.
      * rewrite IH by done. unfold TrimPrefix. rewrite Hd. simpl String.length.
        rewrite orb_false_l. f_equal.
        destruct (omap _ (List.map TrimSpace parts)) as [|y l] eqn:E; [done|].
        rewrite last_cons_cons.
        destruct (last (y :: l)) eqn:E'; [done|]. by apply last_None in E'.
      * rewrite IH by done. by rewrite orb_false_l.
Qed.

Lemma splitGo_cons sep cur s : exists part parts, splitGo sep cur s = part :: parts.
Proof.
  revert cur. induction s as [|c r IH]; intros cur; simpl; [by eauto|].
  destruct (Ascii.eqb c sep); [by eauto|apply IH].
Qed.

Lemma parseInterfaceLine_Some line arg :
  parseInterfaceLine line = Some arg ->
  exists rest first later,
    matchInterfaceLine (TrimSpace line) = Some (tool.Arg_Name arg, rest) /\
    specParts rest = first :: later /\
    tool.Arg_Type arg = first /\
    tool.Arg_Required arg = existsb (fun part => String.eqb part "required") later /\
    tool.Arg_Default arg = lastDefault later.
Proof.
  unfold parseInterfaceLine.
  destruct (matchInterfaceLine (TrimSpace line)) as [[name rest]|] eqn:Hm; [|done].
  unfold specParts.
  assert (Hloop : forall specPart description,
            (let parts := SplitByte specPart "," in
             let '(argType, required, defaultVal) :=
               specLoop 0 parts ("string", false, EmptyString) in
             Some (tool.mkArg name argType required defaultVal
                              (TrimSpace description))) = Some arg ->
            exists first later,
              List.map TrimSpace (SplitByte specPart ",") = first :: later /\
              tool.Arg_Type arg = first /\
              tool.Arg_Required arg
              = existsb (fun part => String.eqb part "required") later /\
              tool.Arg_Default arg = lastDefault later /\
              tool.Arg_Name arg = name).
  { intros specPart description. cbv zeta. unfold SplitByte.
    destruct (splitGo_cons "," EmptyString specPart) as (p & ps & ->).
    cbn [specLoop Nat.eqb]. rewrite specLoop_later by done.
    intros [= <-]. by exists (TrimSpace p), (List.map TrimSpace ps). }
  unfold specParts. intros H. exists rest.
  destruct (Index rest " - ") as [idx|];
    destruct (Hloop _ _ H) as (first & later & H1 & H2 & H3 & H4 & <-);
    by exists first, later.
Qed.

(** X6. An argument of an interface line: its name is what the line
    starts with up to the colon, two hyphens and at least one letter,
    digit, underscore or hyphen; its type is the first of the comma
    separated parts before the description, so the initial type [string]
    is never the result of the loop; it is required exactly when a later
    part is [required], and its default is that of the last [default=]
    part. *)
Theorem interface_line_argument (line : string) (arg : tool.Arg) :
  parseInterfaceLine line = Some arg ->
  argName (tool.Arg_Name arg) /\
  HasPrefix (TrimSpace line) (tool.Arg_Name arg +:+ ":") = true /\
  exists rest first later,
    matchInterfaceLine (TrimSpace line) = Some (tool.Arg_Name arg, rest) /\
    specParts rest = first :: later /\
    tool.Arg_Type arg = first /\
    tool.Arg_Required arg = existsb (fun part => String.eqb part "required") later /\
    tool.Arg_Default arg = lastDefault later.
Proof.
  intros H. destruct (parseInterfaceLine_Some _ _ H) as (rest & first & later & Hm & Hrest).
  destruct (matchInterfaceLine_Some _ _ _ Hm) as [Hn Hp].
  split; [done|]. split; [done|]. by exists rest, first, later.
Qed.

Lemma interface_line_argument_witness :
  exists arg,
    parseInterfaceLine "--days: int, required, default=7 - How far back" = Some arg /\
    tool.Arg_Type arg = "int" /\ tool.Arg_Required arg = true /\
    tool.Arg_Default arg = "7".
Proof.
  eexists. split; [reflexivity|].
  destruct (interface_line_argument
              "--days: int, required, default=7 - How far back" _ eq_refl)
    as (_ & _ & rest & first & later & Hm & Hparts & Ht & Hr & Hd).
  vm_compute in Hm. injection Hm as <-. vm_compute in Hparts.
  injection Hparts as <- <-. by rewrite Ht, Hr, Hd.
Defined.

Lemma parseTag_Interface trimmed st :
  tool.Interface (ps_tool (parseTag trimmed st)) = tool.Interface (ps_tool st).
Proof.
  tag_switch trimmed.
Qed.

(** What holds of every entry of the interface map is kept by a line. *)
Lemma parseLine_Interface (Q : string -> tool.Arg -> Prop) st line :
  (forall l arg, parseInterfaceLine l = Some arg -> Q (tool.Arg_Name arg) arg) ->
  map_Forall Q (tool.Interface (ps_tool st)) ->
  map_Forall Q (tool.Interface (ps_tool (parseLine st line))).
Proof.
  intros HQ H. unfold parseLine. destruct (ps_inInterface st).
  - destruct (HasPrefix (TrimSpace line) "--").
    + destruct (parseInterfaceLine (TrimSpace line)) as [arg|] eqn:E; [|done].
      simpl. apply map_Forall_insert_2; [by eapply HQ|done].
    + destruct (HasPrefix (TrimSpace line) "@"); [|done].
      by rewrite parseTag_Interface.
  - by rewrite parseTag_Interface.
Qed.

Lemma fold_parseLine_Interface (Q : string -> tool.Arg -> Prop) lines : forall st,
  (forall l arg, parseInterfaceLine l = Some arg -> Q (tool.Arg_Name arg) arg) ->
  map_Forall Q (tool.Interface (ps_tool st)) ->
  map_Forall Q (tool.Interface (ps_tool (fold_left parseLine lines st))).
Proof.
  induction lines as [|line lines IH]; intros st HQ H; [done|].
  cbn [fold_left]. apply IH; [done|]. by apply parseLine_Interface.
Qed.

(** X7. The interface of a descriptor: every argument is stored under
    its own name, which is an argument name, and it is the argument of
    some line of the block that starts with two hyphens. *)
Theorem interface_keyed_by_argument_name (doc : string) :
  exists t, parseDocstringTags doc = Some t /\
    forall key arg, tool.Interface t !! key = Some arg ->
      tool.Arg_Name arg = key /\ argName key /\
      exists line, parseInterfaceLine line = Some arg.
Proof.
  eexists. split; [reflexivity|]. intros key arg.
  rewrite (pickDescription_other tool.Interface) by done.
  revert key arg.
  apply (fold_parseLine_Interface
           (fun key arg => tool.Arg_Name arg = key /\ argName key /\
                           exists line, parseInterfaceLine line = Some arg)).
  - intros l arg Hl. split; [done|]. split; [|by eauto].
    destruct (parseInterfaceLine_Some _ _ Hl) as (rest & _ & _ & Hm & _).
    by destruct (matchInterfaceLine_Some _ _ _ Hm).
  - apply map_Forall_empty.
Qed.

End interface_facts.

(** ** More on the extraction of the documentation block *)

Module extract_more.
Import strings scanner scanner_spec extract_facts.
Local Open Scope list_scope.

Lemma extractLoop_filter input : forall inDocstring delim acc,
  extractLoop (List.filter notComment input) inDocstring delim acc
  = extractLoop input inDocstring delim acc.
Proof.
  induction input as [|line input IH]; intros inDocstring delim acc; [done|].
  cbn [List.filter]. unfold notComment at 1, isComment.
  destruct (HasPrefix (TrimSpace line) "#") eqn:Hc; cbn [negb].
  - rewrite IH. cbn [extractLoop]. by rewrite Hc.
  - cbn [extractLoop]. rewrite Hc. cbv zeta.
    destruct inDocstring; cbn [negb].
    + destruct (Index line delim); [done|apply IH].
    + destruct (HasPrefix (TrimSpace line) tripleDouble
                || HasPrefix (TrimSpace line) tripleSingle).
      * destruct (Contains _ _); [done|apply IH].
      * destruct (negb _); [done|apply IH].
Qed.

(** X9. Lines that start with [#], once trimmed, are passed over
    wherever they stand, also inside the block: the extraction gives
    for a file what it gives for the file without these lines. *)
Theorem comment_lines_are_passed_over (file : FileData) :
  extractPythonDocstring
    (mkFileData (List.filter notComment (fd_lines file)) (fd_err file))
  = extractPythonDocstring file.
Proof.
  unfold extractPythonDocstring. cbn [fd_lines fd_err].
  by rewrite extractLoop_filter.
Qed.

(** X10. The first line that is neither a comment nor blank decides
    whether there is a block.  When it does not open one, the docstring
    is empty; when it opens and closes one, the docstring is the text
    after the opening delimiter, without the delimiter at its end; in
    both cases without an error, whatever follows in the file and
    however its reading ends.  A file of comments and blank lines only
    gives the empty docstring and the error of the reading, if any. *)
Theorem first_line_decides
        (pre : list string) (line : string) (post : list string)
        (err : option string) :
  forallb (fun l => isComment l || isBlank l) pre = true ->
  isComment line = false -> isBlank line = false ->
  (opener line = None ->
   extractPythonDocstring (mkFileData (pre ++ line :: post) err)
   = (EmptyString, None)) /\
  (forall delim rest,
     opener line = Some (delim, rest) -> Contains rest delim = true ->
     extractPythonDocstring (mkFileData (pre ++ line :: post) err)
     = (TrimSuffix rest delim, None)) /\
  extractPythonDocstring (mkFileData pre err) = (EmptyString, err).
Proof.
  intros Hpre Hc Hb. unfold extractPythonDocstring. cbn [fd_lines fd_err].
  assert (Hend : extractLoop pre false EmptyString [] = Exhausted []).
  { rewrite <- (app_nil_r pre). by rewrite (extractLoop_pre pre). }
  rewrite Hend. rewrite (extractLoop_pre pre) by done.
  unfold isComment in Hc. unfold isBlank in Hb. unfold opener.
  cbn [extractLoop]. rewrite Hc. cbv zeta. cbn [negb].
  destruct (HasPrefix (TrimSpace line) tripleDouble
            || HasPrefix (TrimSpace line) tripleSingle).
  - split; [done|]. split; [|by destruct err].
    intros delim rest Heq Hin.
    replace (dropBytes 3 (TrimSpace line)) with rest by congruence.
    replace (takeBytes 3 (TrimSpace line)) with delim by congruence.
    by rewrite Hin.
  - rewrite Hb. cbn [negb]. split; [done|]. split; [done|by destruct err].
Qed.

Lemma first_line_decides_witness :
  extractPythonDocstring sample.filePlain = (EmptyString, None) /\
  extractPythonDocstring
    (mkFileData ["# -*- coding: utf-8 -*-"; EmptyString;
                 tripleSingle +:+ "Prints." +:+ tripleSingle; "print(1)"]
                (Some "read error"))
  = ("Prints.", None).
Proof.
  split.
  - exact (proj1 (first_line_decides [] "import os" ["print(os.name)"] None
                    eq_refl eq_refl eq_refl) eq_refl).
  - exact (proj1 (proj2 (first_line_decides
                           ["# -*- coding: utf-8 -*-"; EmptyString]
                           (tripleSingle +:+ "Prints." +:+ tripleSingle)
                           ["print(1)"] (Some "read error")
                           eq_refl eq_refl eq_refl))
                 tripleSingle ("Prints." +:+ tripleSingle) eq_refl eq_refl).
Defined.

End extract_more.

(** ** What a scan leaves in the registry *)

Module scan_facts.
Import strings scanner registry_spec.
Local Open Scope list_scope.

Section WalkInvariant.
Context {Acc : Type} (fn : string -> WalkArg -> Acc -> Acc * option WalkErr).
Variable I : Acc -> Prop.
Hypothesis Hfn : forall path arg st, I st -> I (fn path arg st).1.

(** What every call of the callback keeps, the walk keeps. *)
Lemma walk_invariant : forall n path st, I st -> I (walk fn path n st).1.
Proof using Hfn.
  fix IH 1. intros [name|name readErr entries|name err] path st H.
  - apply Hfn, H.
  - cbn [walk]. destruct readErr as [err|]; [apply Hfn, H|].
    pose proof (Hfn path (Found (mkFileInfo name true)) st H) as H1.
    destruct (fn path (Found (mkFileInfo name true)) st) as [st1 [e|]]; [done|].
    cbn [fst] in H1. revert st1 H1.
    induction entries as [|child entries IHe]; intros st1 H1; [done|].
    pose proof (IH child (filepath.Join [path; nodeName child]) st1 H1) as H2.
    destruct (walk fn (filepath.Join [path; nodeName child]) child st1)
      as [st2 [[]|]]; cbn [fst] in H2.
    + destruct child; [done|by apply IHe|by apply IHe].
    + destruct child; by apply IHe.
  - cbn [walk]. pose proof (Hfn path (Failed None err) st H) as H1.
    by destruct (fn path (Failed None err) st).
Qed.

Lemma Walk_invariant fs root st : I st -> I (Walk fn fs root st).1.
Proof using Hfn.
  intros H. unfold Walk. destruct (fs_lstat fs root) as [err|n].
  - pose proof (Hfn root (Failed None err) st H). by destruct (fn _ _ _).
  - pose proof (walk_invariant n root st H). by destruct (walk _ _ _ _).
Qed.

End WalkInvariant.

Lemma allTools_Add Q r t :
  allTools Q r -> Q t -> allTools Q (tool.Add r (Some t)).
Proof.
  intros Hr Ht. unfold tool.Add.
  destruct (String.eqb (tool.Name t) EmptyString) eqn:E; [done|].
  apply String.eqb_neq in E.
  by apply map_Forall_insert_2.
Qed.

Lemma scanEntry_allTools Q scanners extSet fs path arg r :
  (forall sc t, GetScanner scanners path = Some sc ->
                bool_decide (filepath.Ext path ∈ extSet) = true ->
                Scan sc fs path = (Some t, None) -> Q t) ->
  allTools Q r -> allTools Q (scanEntry scanners extSet fs path arg r).1.
Proof.
  intros HQ Hr. unfold scanEntry. destruct arg as [info|info err]; [|done].
  destruct (fi_IsDir info); [by destruct (shouldSkipDir _)|].
  destruct (_ || _); [done|].
  destruct (bool_decide (filepath.Ext path ∈ extSet)) eqn:Hext; [|done].
  cbn [negb]. destruct (GetScanner scanners path) as [sc|] eqn:Hsc; [|done].
  destruct (Scan sc fs path) as [[t|] [err|]] eqn:Hscan; try done.
  cbn [fst]. apply allTools_Add; [done|]. by eapply HQ.
Qed.

Lemma scanDirs_allTools Q scanners extSet fs dirs : forall r,
  (forall path sc t, GetScanner scanners path = Some sc ->
                     bool_decide (filepath.Ext path ∈ extSet) = true ->
                     Scan sc fs path = (Some t, None) -> Q t) ->
  allTools Q r -> allTools Q (scanDirs scanners extSet fs dirs r).
Proof.
  induction dirs as [|dir dirs IH]; intros r HQ Hr; [done|].
  unfold scanDirs. cbn [fold_left]. apply IH; [done|].
  destruct (fs_notExist fs dir); [done|].
  apply Walk_invariant; [|done].
  intros path arg st Hst. apply scanEntry_allTools; [|done].
  intros sc t. apply HQ.
Qed.

Lemma PythonScanner_Scan_Some fs path t :
  PythonScanner_Scan fs path = (Some t, None) ->
  tool.File t = path /\ tool.Language t = "python" /\
  tool.Name t <> EmptyString.
Proof.
  unfold PythonScanner_Scan. destruct (fs_open fs path) as [err|file]; [done|].
  destruct (extractPythonDocstring file) as [doc [err|]]; [done|].
  destruct (String.eqb doc EmptyString); [done|].
  destruct (parseDocstringTags doc) as [t'|]; [|done].
  destruct (String.eqb (tool.Name t') EmptyString) eqn:E; [done|].
  intros [= <-]. apply String.eqb_neq in E. by repeat split.
Qed.

(** The registry of a scan with the Python scanner. *)
Lemma ScanDirectories_allTools (fs : FS) (dirs : list string) :
  allTools (fun t => tool.Language t = "python" /\
                     filepath.Ext (tool.File t) = ".py" /\
                     PythonScanner_Scan fs (tool.File t) = (Some t, None))
           (scanDirs registered (list_to_set [".py"]) fs dirs tool.NewRegistry).
Proof.
  apply scanDirs_allTools; [|apply map_Forall_empty].
  intros path sc t' Hsc _ Hscan. unfold GetScanner, registered in Hsc.
  cbn [find] in Hsc. destruct (CanScan PythonScanner path) eqn:Hcan; [|done].
  injection Hsc as <-. cbn [Scan PythonScanner] in Hscan.
  destruct (PythonScanner_Scan_Some _ _ _ Hscan) as (Hf & Hl & _).
  rewrite Hf. repeat split; [done| |done].
  by apply String.eqb_eq in Hcan.
Qed.

(** X11. The registry of a scan with the Python scanner: every tool
    stands under its own name, which is not empty; its language is
    [python], the extension of its file is [.py], and the tool is what
    the scanner makes of that file. *)
Theorem scanned_tools_describe_their_files (fs : FS) (dirs : list string) :
  exists registry,
    ScanDirectories registered fs dirs = (Some registry, None) /\
    forall name t,
      tool.Get registry name = Some t ->
      tool.Name t = name /\ name <> EmptyString /\
      tool.Language t = "python" /\ filepath.Ext (tool.File t) = ".py" /\
      PythonScanner_Scan fs (tool.File t) = (Some t, None).
Proof.
  eexists. split; [reflexivity|]. intros name t Hget.
  destruct (ScanDirectories_allTools fs dirs name t Hget) as (? & ? & ? & ? & ?).
  by repeat split.
Qed.

End scan_facts.

(** ** The runner *)

Module runner_facts.
Import strings scanner scan_facts.
Local Open Scope list_scope.

Lemma execCommand_error {World} (E : runner.Exec World) name args w code err w' :
  runner.execCommand E name args w = ((code, Some err), w') -> code = 1%Z.
Proof.
  unfold runner.execCommand. destruct (runner.exec_Run E name args w) as [[|c|e] w1];
    by intros [= <-].
Qed.

Lemma PythonRunner_Run_error {World} (E : runner.Exec World) r t args w code err w' :
  runner.PythonRunner_Run E r t args w = ((code, Some err), w') -> code = 1%Z.
Proof.
  unfold runner.PythonRunner_Run. destruct (runner.findPython E r w) as [p w1].
  destruct (String.eqb p EmptyString); [by intros [= <-]|].
  apply execCommand_error.
Qed.

(** X12. With the runners that are registered, [runner.Run] gives an
    error only together with exit code 1.  A tool that is not in Python
    by its language or by the extension of its file is not run: the
    error names its language and nothing is asked of the machine. *)
Theorem Run_error_has_code_1 {World} (E : runner.Exec World)
        (t : tool.Tool) (args : list string) (w : World) :
  (forall code err w',
     runner.Run (runner.registered E) t args w = ((code, Some err), w') ->
     code = 1%Z) /\
  (runner.PythonRunner_CanRun t = false ->
   runner.Run (runner.registered E) t args w
   = ((1%Z, Some ("unsupported language: " +:+ tool.Language t)), w)).
Proof.
  unfold runner.Run, runner.GetRunner, runner.registered. cbn [find].
  cbn [runner.Runner_CanRun runner.pythonRunner].
  destruct (runner.PythonRunner_CanRun t); cbn [runner.Runner_Run].
  - split; [|done]. intros code err w'. apply PythonRunner_Run_error.
  - split; [|done]. by intros code err w' [= <-].
Qed.

(** X13. Every tool of a scan can be run: for a tool of the registry
    that [ScanDirectories] returns, [runner.Run] is the run of the Python
    runner, never the error of an unsupported language. *)
Theorem scanned_tools_have_a_runner {World} (E : runner.Exec World)
        (fs : FS) (dirs : list string) (registry : tool.Registry)
        (name : string) (t : tool.Tool) (args : list string) (w : World) :
  ScanDirectories scanner.registered fs dirs = (Some registry, None) ->
  tool.Get registry name = Some t ->
  runner.Run (runner.registered E) t args w
  = runner.PythonRunner_Run E (runner.mkPythonRunner EmptyString) t args w.
Proof.
  intros [= <-] Hget.
  destruct (ScanDirectories_allTools fs dirs name t Hget) as (_ & _ & Hl & _).
  unfold runner.Run, runner.GetRunner, runner.registered. cbn [find].
  cbn [runner.Runner_CanRun runner.pythonRunner]. unfold runner.PythonRunner_CanRun.
  by rewrite Hl.
Qed.

Lemma scanned_tools_have_a_runner_witness :
  exists t,
    tool.Get (scanDirs scanner.registered (list_to_set [".py"]) sample.sampleFS
                       ["root"] tool.NewRegistry) "a" = Some t /\
    runner.Run (runner.registered runner_sample.machine) t ["--days"; "7"] []
    = ((2%Z, None), [("/usr/bin/python3", ["root/tools/a.py"; "--days"; "7"])]).
Proof.
  eexists. split; [vm_compute; reflexivity|].
  rewrite (scanned_tools_have_a_runner runner_sample.machine sample.sampleFS
             ["root"] _ "a" _ ["--days"; "7"] [] eq_refl);
    vm_compute; reflexivity.
Defined.

End runner_facts.

(** ** More on the freshness policies *)

Module freshness_more.
Import freshness freshness_spec freshness_claims.
Local Open Scope Z_scope.

Lemma policyHours_manual policy : policyHours policy <= policyHours "manual".
Proof.
  unfold policyHours. repeat destruct (String.eqb policy _); by vm_compute.
Qed.

Lemma Hour_pos : 0 < Hour.
Proof. by vm_compute. Qed.

Section Policies.
Context {World : Type} (P : Platform World).
Variable formatAge : Z -> string -> string.

(** X14. The policies are ordered: [daily] is stricter than [weekly],
    [weekly] than [monthly], and no name is laxer than [manual].  What
    [Check] asks of the world does not depend on the policy, and a path
    that is fresh under a policy is fresh under every policy whose
    threshold is not smaller. *)
Theorem fresh_under_laxer_policy (path : string) (w : World) :
  (maxAgeOf "daily" < maxAgeOf "weekly" < maxAgeOf "monthly") /\
  (forall policy, maxAgeOf policy <= maxAgeOf "manual") /\
  (forall p q, (Check P formatAge path p w).2 = (Check P formatAge path q w).2) /\
  (forall p q,
     maxAgeOf p <= maxAgeOf q ->
     (Check P formatAge path p w).1.1 = true ->
     (Check P formatAge path q w).1.1 = true).
Proof.
  split; [by vm_compute|]. split.
  { intros policy. rewrite !maxAgeOf_policyThreshold. unfold policyThreshold.
    pose proof (policyHours_manual policy). pose proof Hour_pos. nia. }
  split.
  - intros p q. unfold Check. destruct (os_Stat P path w) as [[|err|modTime] w1]; try done.
    destruct (time_Now P w1) as [now w2].
    by destruct (_ <? maxAgeOf p), (_ <? maxAgeOf q).
  - intros p q Hpq. unfold Check.
    destruct (os_Stat P path w) as [[|err|modTime] w1]; try done.
    destruct (time_Now P w1) as [now w2].
    destruct (Z.ltb_spec (Sub now modTime) (maxAgeOf p)); [|done].
    intros _. destruct (Z.ltb_spec (Sub now modTime) (maxAgeOf q)); [done|lia].
Qed.

(** X15. No policy means "never stale" or "always stale" by itself: a
    file whose modification time is not before the time now is fresh
    under every policy, and a file that is a hundred years of 365 days
    old, or older, is stale under every policy, [manual] included. *)
Theorem Check_at_the_extremes (path policy : string) (w w1 : World) (modTime : Z) :
  os_Stat P path w = (StatInfo modTime, w1) ->
  ((time_Now P w1).1 <= modTime ->
   (Check P formatAge path policy w).1.1 = true) /\
  (876000 * Hour <= (time_Now P w1).1 - modTime ->
   (Check P formatAge path policy w).1.1 = false).
Proof.
  intros Hstat. rewrite (Check_on_file P formatAge path policy w w1 modTime Hstat).
  pose proof (policyThreshold_range policy) as [Hlo _].
  pose proof (policyHours_manual policy) as Hman.
  pose proof Hour_pos. unfold policyThreshold in *.
  change (policyHours "manual") with 876000 in Hman.
  split; intros H'.
  - apply bool_decide_eq_true_2. lia.
  - apply bool_decide_eq_false_2. nia.
Qed.

End Policies.

Lemma Check_at_the_extremes_witness :
  (Check sample.testPlatform sample.testFormatAge "f" "daily"
         (sample.mkTestWorld {[ "f" := 5 ]} 3 0)).1.1 = true /\
  (Check sample.testPlatform sample.testFormatAge "f" "manual"
         (sample.mkTestWorld {[ "f" := 0 ]} (876000 * Hour) 0)).1.1 = false.
Proof.
  split.
  - refine (proj1 (Check_at_the_extremes sample.testPlatform sample.testFormatAge
                     "f" "daily" (sample.mkTestWorld {[ "f" := 5 ]} 3 0)
                     (sample.mkTestWorld {[ "f" := 5 ]} 3 0) 5 _) _);
      [reflexivity|by vm_compute].
  - refine (proj2 (Check_at_the_extremes sample.testPlatform sample.testFormatAge
                     "f" "manual"
                     (sample.mkTestWorld {[ "f" := 0 ]} (876000 * Hour) 0)
                     (sample.mkTestWorld {[ "f" := 0 ]} (876000 * Hour) 0)
                     0 _) _);
      [reflexivity|by vm_compute].
Defined.

End freshness_more.

(** ** More on the resolver *)

Module resolver_more.
Import resolver resolver_spec resolver_facts runs_spec.
Local Open Scope list_scope.

Section More.
Context {World : Type} (P : Platform World).
Variable formatAge : Z -> string -> string.
Variable cfg : config.Global.
Variable registry : tool.Registry.
Variable rangeOf : string -> list string.

Local Abbreviation ensure := (ensureData P formatAge cfg registry rangeOf).
Implicit Types st : State World.

Lemma ensureAll_grows fuel items st b st' x :
  ensureAll (ensure fuel) items st = Some (b, st') ->
  isVisited st x = true -> isVisited st' x = true.
Proof.
  intros H. apply (ensureAll_extends (ensure fuel)) in H as [Hv _]; [apply Hv|].
  intros item st0 b0 st0'. apply ensureData_extends.
Qed.

(** A call that returns has marked its target. *)
Lemma ensure_marks fuel target st b st' :
  ensure fuel target st = Some (b, st') -> isVisited st' target = true.
Proof.
  destruct fuel as [|fuel]; [done|]. simpl.
  destruct (isVisited st target) eqn:Hvis; [by intros [= <- <-]|].
  pose proof (isVisited_mark_eq target st) as Hm.
  destruct (config.GetIntent cfg target) as [intent|].
  { intros H. by eapply ensureAll_grows. }
  destruct (tool.FindByProvides _ _ _) as [t|]; [|by intros [= <- <-]].
  destruct (negb (String.eqb (tool.Output t) EmptyString)).
  - destruct (freshness.Check _ _ _ _ _) as [[fresh msg] w].
    destruct fresh; [by intros [= <- <-]|].
    destruct (ensureAll _ _ _) as [[[] st3]|] eqn:Hall; [|..|done].
    + assert (isVisited st3 target = true) as H3 by by eapply ensureAll_grows.
      destruct (runner_Run P t [] (world st3)) as [[code err] w'].
      destruct err; [by intros [= <- <-]|].
      destruct (negb (code =? 0)%Z); by intros [= <- <-].
    + intros [= <- <-]. by eapply ensureAll_grows.
  - destruct (ensureAll _ _ _) as [[[] st3]|] eqn:Hall; [|..|done].
    + assert (isVisited st3 target = true) as H3 by by eapply ensureAll_grows.
      destruct (runner_Run P t [] (world st3)) as [[code err] w'].
      destruct err; [by intros [= <- <-]|].
      destruct (negb (code =? 0)%Z); by intros [= <- <-].
    + intros [= <- <-]. by eapply ensureAll_grows.
Qed.

(** X16. A call that returns, with success or with failure, leaves its
    target marked: asked again for the same target in the state it has
    left, the resolver answers success at once and does nothing, also
    when the first answer was a failure. *)
Theorem ensure_again_succeeds (fuel : nat) (target : string)
        (st : State World) (b : bool) (st' : State World) :
  ensure fuel target st = Some (b, st') ->
  isVisited st' target = true /\
  forall fuel', ensure (S fuel') target st' = Some (true, st').
Proof.
  intros H. apply ensure_marks in H. split; [done|].
  intros fuel'. simpl. by rewrite H.
Qed.

(** *** Requirements come first *)

Lemma justified_grows st st' :
  trace st' = trace st ->
  (forall x, isVisited st x = true -> isVisited st' x = true) ->
  justified registry st -> justified registry st'.
Proof.
  intros Htr Hv J target t Hin. rewrite Htr in Hin.
  destruct (J target t Hin) as (H1 & H2 & H3 & H4).
  repeat split; [by apply Hv|done|done|]. intros dep Hdep. by apply Hv, H4.
Qed.

Lemma justified_mark target st :
  justified registry st -> justified registry (markVisited target st).
Proof.
  apply justified_grows; [done|]. intros x Hx. rewrite isVisited_mark.
  by case_decide.
Qed.

Lemma justified_check target path policy w st :
  justified registry st ->
  justified registry (record (EvCheck target path policy) w st).
Proof.
  intros J target' t [Hin|Hin%list_elem_of_singleton]%elem_of_app; [|done].
  apply (J target' t Hin).
Qed.

Lemma justified_run target t w st :
  justified registry st ->
  isVisited st target = true ->
  target ∈ tool.Provides t ->
  (exists name, tool.Tools registry !! name = Some t) ->
  (forall dep, dep ∈ tool.Requires t -> isVisited st dep = true) ->
  justified registry (record (EvRun target t) w st).
Proof.
  intros J Hv Hp Hr Hd target' t' [Hin|Hin%list_elem_of_singleton]%elem_of_app.
  - apply (J target' t' Hin).
  - by injection Hin as -> ->.
Qed.

Lemma ensureAll_justified fuel items :
  (forall item st b st', ensure fuel item st = Some (b, st') ->
                         justified registry st -> justified registry st') ->
  forall st b st',
    ensureAll (ensure fuel) items st = Some (b, st') ->
    justified registry st ->
    justified registry st' /\
    (b = true -> forall dep, dep ∈ items -> isVisited st' dep = true).
Proof.
  intros Hens. induction items as [|item items IH]; intros st b st' H J.
  - simpl in H. injection H as <- <-. split; [done|].
    intros _ dep Hdep. by apply elem_of_nil in Hdep.
  - simpl in H. destruct (ensure fuel item st) as [[[] st1]|] eqn:E; [|..|done].
    + destruct (IH st1 b st' H (Hens _ _ _ _ E J)) as [J' Hall].
      split; [done|]. intros Hb dep [->|Hdep]%elem_of_cons; [|by apply Hall].
      eapply ensureAll_grows; [exact H|]. by eapply ensure_marks.
    + injection H as <- <-. split; [by eapply Hens|done].
Qed.

Lemma ensure_justified fuel : forall target st b st',
  ensure fuel target st = Some (b, st') ->
  justified registry st -> justified registry st'.
Proof.
  induction fuel as [|fuel IH]; intros target st b st' H J; [done|].
  simpl in H.
  destruct (isVisited st target) eqn:Hvis; [by injection H as <- <-|].
  pose proof (justified_mark target st J) as J1.
  pose proof (isVisited_mark_eq target st) as Hm.
  destruct (config.GetIntent cfg target) as [intent|].
  { by destruct (ensureAll_justified fuel _ IH _ _ _ H J1). }
  destruct (tool.FindByProvides _ _ _) as [t|] eqn:Hfind;
    [|by injection H as <- <-].
  apply FindByProvides_lookup in Hfind as (name & Hname & Hprov).
  apply registry_facts.providesData_spec in Hprov.
  assert (forall st2 st3 w',
            justified registry st2 -> isVisited st2 target = true ->
            ensureAll (ensure fuel) (tool.Requires t) st2 = Some (true, st3) ->
            justified registry (record (EvRun target t) w' st3)) as Hrun.
  { intros st2 st3 w' J2 Hv2 Hall.
    destruct (ensureAll_justified fuel _ IH _ _ _ Hall J2) as [J3 Hdeps].
    apply justified_run; [done| |done|by eauto|by apply Hdeps].
    by eapply ensureAll_grows. }
  destruct (negb (String.eqb (tool.Output t) EmptyString)).
  - destruct (freshness.Check _ _ _ _ _) as [[fresh msg] w].
    pose proof (justified_check target (outputPath t) (tool.Freshness t) w _ J1) as J2.
    destruct fresh; [by injection H as <- <-|].
    destruct (ensureAll _ _ _) as [[[] st3]|] eqn:Hall; [|..|done].
    + destruct (runner_Run P t [] (world st3)) as [[code err] w'].
      pose proof (Hrun _ st3 w' J2 Hm Hall) as J4.
      destruct err; [by injection H as <- <-|].
      destruct (negb (code =? 0)%Z); by injection H as <- <-.
    + injection H as <- <-.
      by destruct (ensureAll_justified fuel _ IH _ _ _ Hall J2).
  - destruct (ensureAll _ _ _) as [[[] st3]|] eqn:Hall; [|..|done].
    + destruct (runner_Run P t [] (world st3)) as [[code err] w'].
      pose proof (Hrun _ st3 w' J1 Hm Hall) as J4.
      destruct err; [by injection H as <- <-|].
      destruct (negb (code =? 0)%Z); by injection H as <- <-.
    + injection H as <- <-.
      by destruct (ensureAll_justified fuel _ IH _ _ _ Hall J1).
Qed.

(** X17. Requirements come first.  In one invocation, started with an
    empty visited map, every tool that was run was run for a name that
    it provides, is a tool of the registry, and ran only after the
    resolver had been through each of its requirements: they are all
    marked. *)
Theorem ensure_runs_after_requirements (fuel : nat) (target : string) (w : World)
        (b : bool) (st' : State World) :
  ensure fuel target (initial w) = Some (b, st') ->
  forall name t,
    EvRun name t ∈ trace st' ->
    name ∈ tool.Provides t /\
    (exists key, tool.Tools registry !! key = Some t) /\
    forall dep, dep ∈ tool.Requires t -> isVisited st' dep = true.
Proof.
  intros H name t Hin.
  assert (justified registry (initial w)) as J0.
  { intros x y Hx. by apply elem_of_nil in Hx. }
  destruct (ensure_justified _ _ _ _ _ H J0 name t Hin) as (_ & ? & ? & ?).
  by repeat split.
Qed.

End More.

Lemma ensure_again_succeeds_witness :
  exists st',
    sample.run sample.noIntents sample.abRegistry sample.abOrder 5 "nothing"
               (initial sample.emptyWorld) = Some (false, st') /\
    sample.run sample.noIntents sample.abRegistry sample.abOrder 1 "nothing" st'
    = Some (true, st').
Proof.
  eexists. split; [vm_compute; reflexivity|].
  refine (proj2 (ensure_again_succeeds sample.testPlatform sample.testFormatAge
                   sample.noIntents sample.abRegistry sample.abOrder
                   5 "nothing" (initial sample.emptyWorld) false _ _) 0).
  vm_compute; reflexivity.
Defined.

Lemma ensure_runs_after_requirements_witness :
  exists st' t,
    sample.run sample.noIntents sample.abRegistry sample.abOrder 5 "x"
               (initial sample.emptyWorld) = Some (true, st') /\
    EvRun "x" t ∈ trace st' /\
    forall dep, dep ∈ tool.Requires t -> isVisited st' dep = true.
Proof.
  assert (exists st',
            sample.run sample.noIntents sample.abRegistry sample.abOrder 5 "x"
                       (initial sample.emptyWorld) = Some (true, st') /\
            trace st' = [EvCheck "y" "root/out.csv" "daily";
                         EvRun "y" sample.toolB; EvRun "x" sample.toolA])
    as (st' & E & Htr).
  { eexists. split; vm_compute; reflexivity. }
  assert (EvRun "x" sample.toolA ∈ trace st') as Hin.
  { rewrite Htr. do 2 apply list_elem_of_further. apply list_elem_of_here. }
  exists st', sample.toolA. split; [exact E|]. split; [exact Hin|].
  exact (proj2 (proj2 (ensure_runs_after_requirements
                   sample.testPlatform sample.testFormatAge
                   sample.noIntents sample.abRegistry sample.abOrder
                   5 "x" sample.emptyWorld true st' E "x" sample.toolA Hin))).
Defined.

End resolver_more.

(** ** The registered sources *)

Module sources_facts.
Import strings sources sources_spec.
Local Open Scope list_scope.


Section Facts.
Context {World : Type} (E : Env World).


Lemma removeLoop_filter absPath pathOrName srcs : forall newSources found,
  removeLoop absPath pathOrName srcs newSources found
  = (newSources ++ List.filter (fun src => negb (meant absPath pathOrName src)) srcs,
     found || existsb (meant absPath pathOrName) srcs).
Proof.
  induction srcs as [|src srcs IH]; intros newSources found.
  - simpl. by rewrite app_nil_r, orb_false_r.
  - cbn [removeLoop List.filter existsb].
    change (String.eqb (Path src) absPath || String.eqb (Name src) pathOrName)
      with (meant absPath pathOrName src).
    destruct (meant absPath pathOrName src).
    + rewrite IH. cbn [negb]. by rewrite orb_true_r, orb_true_l.
    + rewrite IH. cbn [negb]. by rewrite <- app_assoc, orb_false_l.
Qed.

(** X19. [RemoveSource] removes every source whose path is the absolute
    form of the argument or whose name is the argument, and keeps the
    others in their order; when no source is meant, it reports "not
    registered", changes nothing and does not save. *)
Theorem RemoveSource_removes_all_meant (pathOrName : string)
        (srcs : list Source) (w : World) :
  let absPath := match (env_Abs E pathOrName w).1 with
                 | inr p => p | inl _ => EmptyString end in
  let w1 := (env_Abs E pathOrName w).2 in
  if existsb (meant absPath pathOrName) srcs then
    RemoveSource E pathOrName srcs w
    = ((env_Save E (List.filter (fun src => negb (meant absPath pathOrName src)) srcs) w1).1,
       List.filter (fun src => negb (meant absPath pathOrName src)) srcs,
       (env_Save E (List.filter (fun src => negb (meant absPath pathOrName src)) srcs) w1).2)
  else
    RemoveSource E pathOrName srcs w
    = (Some ("not registered: " +:+ pathOrName), srcs, w1).
Proof.
  unfold RemoveSource. destruct (env_Abs E pathOrName w) as [abs w1].
  cbn [fst snd]. rewrite removeLoop_filter. cbn [app orb].
  destruct (existsb _ srcs); cbn [negb]; [|done].
  by destruct (env_Save E _ w1).
Qed.

End Facts.

Lemma insert_union_intents (m acc : gmap string config.Intent) name :
  (m ∪ acc) !! name = match m !! name with Some i => Some i | None => acc !! name end.
Proof.
  destruct (m !! name) as [i|] eqn:E.
  - by apply lookup_union_Some_l.
  - by rewrite lookup_union_r.
Qed.

(** X20. The intents after [Load]: an intent is taken from the state
    file beside the last source that defines its name, and a name that
    no such file defines is no intent.  The state file of a source is
    [state.yaml] in the directory that holds the source directory. *)
Theorem loadIntents_last_source_wins
        (readState : string -> option (gmap string config.Intent))
        (srcs : list Source) (name : string) :
  config.GetIntent (loadIntents readState srcs) name
  = last (omap (fun src => stateOf readState src !! name) srcs).
Proof.
  unfold config.GetIntent, loadIntents. cbn [config.Intents].
  induction srcs as [|src srcs IH] using rev_ind; [done|].
  rewrite fold_left_app, omap_app. cbn [fold_left].
  change (omap ?f [src]) with (match f src with Some y => [y] | None => [] end).
  cbv beta. unfold stateOf at 2.
  destruct (readState _) as [m|]; cbn [default from_option]; unfold id.
  - rewrite insert_union_intents. destruct (m !! name) as [i|].
    + by rewrite last_snoc.
    + by rewrite app_nil_r.
  - rewrite lookup_empty, app_nil_r. apply IH.
Qed.

(** A source is appended, under the last element of its path, even
    though saving fails. *)
Example AddSource_save_fails :
  AddSource stubborn "/proj/tools/" EmptyString [] tt
  = (Some "disk full", [mkSource "/proj/tools/" "tools" 0], tt).
Proof. vm_compute. reflexivity. Qed.

End sources_facts.

(** ** The search *)

Module find_facts.
Import strings find find_spec.
Local Open Scope list_scope.
Local Open Scope Z_scope.

Lemma wrapInt_add a b : wrapInt (wrapInt a + b) = wrapInt (a + b).
Proof.
  unfold wrapInt. f_equal.
  replace ((a + 2 ^ 63) mod 2 ^ 64 - 2 ^ 63 + b + 2 ^ 63)
    with ((a + 2 ^ 63) mod 2 ^ 64 + b) by lia.
  rewrite Zplus_mod_idemp_l. f_equal. lia.
Qed.

Lemma wrapInt_small z : - 2 ^ 63 <= z < 2 ^ 63 -> wrapInt z = z.
Proof. intros H. unfold wrapInt. rewrite Z.mod_small; lia. Qed.

Lemma weightOf_cons hit w r cs :
  weightOf ((hit, w, r) :: cs) = if hit then w + weightOf cs else weightOf cs.
Proof. reflexivity. Qed.

Lemma reasonsOf_cons hit w r cs :
  reasonsOf ((hit, w, r) :: cs) = if hit then r :: reasonsOf cs else reasonsOf cs.
Proof. by destruct hit. Qed.

Lemma fold_bumpTest cs : forall score reasons,
  fold_left bumpTest cs (wrapInt score, reasons)
  = (wrapInt (score + weightOf cs), reasons ++ reasonsOf cs).
Proof.
  induction cs as [|[[hit w] r] cs IH]; intros score reasons.
  - simpl. by rewrite Z.add_0_r, app_nil_r.
  - cbn [fold_left]. unfold bumpTest at 2, bump. cbn [fst snd].
    rewrite weightOf_cons, reasonsOf_cons. destruct hit.
    + rewrite wrapInt_add, IH. f_equal; [f_equal; lia|].
      by rewrite <- app_assoc.
    + by rewrite IH.
Qed.

Lemma fold_left_pointwise {A B} (f g : A -> B -> A) (l : list B) (a b : A) :
  (forall x y, f x y = g x y) -> a = b -> fold_left f l a = fold_left g l b.
Proof.
  intros H ->. revert b. induction l as [|y l IH]; intros b; [done|].
  cbn [fold_left]. by rewrite H, IH.
Qed.

Lemma fold_map_tests {A} (f : A -> Test) (l : list A) acc :
  fold_left (fun acc x => bump (f x).1.1 (f x).1.2 (f x).2 acc) l acc
  = fold_left bumpTest (List.map f l) acc.
Proof. revert acc. induction l as [|x l IH]; intros acc; [done|]. apply IH. Qed.

Lemma fold_flat_map_tests {A} (g : A -> list Test) (l : list A) acc :
  fold_left (fun acc x => fold_left bumpTest (g x) acc) l acc
  = fold_left bumpTest (flat_map g l) acc.
Proof.
  revert acc. induction l as [|x l IH]; intros acc; [done|].
  cbn [fold_left flat_map]. by rewrite fold_left_app, IH.
Qed.

Lemma tests_bounds cs :
  Forall (fun c : Test => 3 <= c.1.2 <= 10) cs ->
  3 * Z.of_nat (length (reasonsOf cs)) <= weightOf cs
  <= 10 * Z.of_nat (length (reasonsOf cs)) /\
  (length (reasonsOf cs) <= length cs)%nat.
Proof.
  induction 1 as [|[[hit w] r] cs Hc _ IH]; [by vm_compute|].
  rewrite weightOf_cons, reasonsOf_cons. cbn [fst snd] in Hc.
  destruct hit; cbn [length]; lia.
Qed.

Lemma reasonsOf_nil cs :
  reasonsOf cs = [] <-> existsb (fun c : Test => c.1.1) cs = false.
Proof.
  induction cs as [|[[hit w] r] cs IH]; [done|].
  rewrite reasonsOf_cons. cbn [existsb fst]. by destruct hit.
Qed.

Lemma existsb_eq {A B} (f : A -> bool) (g : B -> bool) (l : list A) (k : list B) :
  ((exists x, In x l /\ f x = true) <-> (exists y, In y k /\ g y = true)) ->
  existsb f l = existsb g k.
Proof.
  intros H. apply eq_true_iff_eq. by rewrite !existsb_exists.
Qed.

Section Facts.
Variable ToLower : string -> string.

Lemma scoreTool_tests terms t :
  scoreTool ToLower terms t = fold_left bumpTest (testsOf ToLower terms t) (0, []).
Proof.
  unfold scoreTool, testsOf. cbv zeta.
  rewrite !fold_left_app.
  rewrite <- !fold_flat_map_tests.
  rewrite <- !fold_map_tests. cbn [fst snd].
  repeat (apply fold_left_pointwise;
          [intros ? ?; first [reflexivity | by rewrite <- fold_map_tests]|]).
  reflexivity.
Qed.


Lemma testsOf_weights terms t :
  Forall (fun c : Test => 3 <= c.1.2 <= 10) (testsOf ToLower terms t).
Proof.
  unfold testsOf. rewrite !Forall_app.
  repeat split; apply Forall_forall; intros c Hc; apply list_elem_of_In in Hc.
  - apply in_map_iff in Hc as (term & <- & _). simpl. lia.
  - apply in_map_iff in Hc as (term & <- & _). simpl. lia.
  - apply in_flat_map in Hc as (kw & _ & (term & <- & _)%in_map_iff). simpl. lia.
  - apply in_flat_map in Hc as (kw & _ & (term & <- & _)%in_map_iff). simpl. lia.
  - apply in_flat_map in Hc as (kw & _ & (term & <- & _)%in_map_iff). simpl. lia.
Qed.

Lemma length_flat_map_const {A B} (g : A -> list B) (l : list A) n :
  (forall x, length (g x) = n) -> length (flat_map g l) = (length l * n)%nat.
Proof.
  intros H. induction l as [|x l IH]; [done|].
  cbn [flat_map length]. rewrite length_app, H, IH. lia.
Qed.

Lemma length_testsOf terms t :
  length (testsOf ToLower terms t) = tests terms t.
Proof.
  unfold testsOf, tests. rewrite !length_app, !length_map.
  rewrite !(length_flat_map_const _ _ (length terms))
    by (intros; apply length_map).
  lia.
Qed.

Lemma existsb_flat_map_swap {A} (h : A -> string -> bool)
      (w : Z) (r : A -> string -> string) (l : list A) (terms : list string) :
  existsb (fun c : Test => c.1.1)
          (flat_map (fun x => List.map (fun term => (h x term, w, r x term)) terms) l)
  = existsb (fun term => existsb (fun x => h x term) l) terms.
Proof.
  apply existsb_eq. split.
  - intros ([[hit w'] r'] & (x & Hx & (term & [= <- _ _] & Hterm)%in_map_iff)%in_flat_map & Hhit).
    exists term. split; [done|]. apply existsb_exists. by exists x.
  - intros (term & Hterm & (x & Hx & Hhit)%existsb_exists).
    exists (h x term, w, r x term). split; [|done].
    apply in_flat_map. exists x. split; [done|]. apply in_map_iff. by exists term.
Qed.

Lemma existsb_orb {A} (f g : A -> bool) l :
  existsb (fun x => f x || g x) l = existsb f l || existsb g l.
Proof.
  induction l as [|x l IH]; [done|]. cbn [existsb]. rewrite IH.
  destruct (f x), (g x), (existsb f l), (existsb g l); done.
Qed.

Lemma existsb_of_map {A B} (f : B -> bool) (g : A -> B) l :
  existsb f (List.map g l) = existsb (fun x => f (g x)) l.
Proof. induction l as [|x l IH]; [done|]. cbn [List.map existsb]. by rewrite IH. Qed.

Lemma testsOf_hit terms t :
  existsb (fun c : Test => c.1.1) (testsOf ToLower terms t)
  = existsb (mentions ToLower t) terms.
Proof.
  unfold testsOf, mentions. rewrite !existsb_app, !existsb_orb.
  rewrite !existsb_of_map. cbn [fst].
  rewrite (existsb_flat_map_swap
             (fun kw term => Contains (ToLower kw) term || Contains term (ToLower kw))
             3 (fun kw _ => "keyword '" +:+ kw +:+ "'")).
  rewrite (existsb_flat_map_swap
             (fun cap term => Contains (ToLower cap) term)
             4 (fun _ term => "capability matches '" +:+ term +:+ "'")).
  rewrite (existsb_flat_map_swap
             (fun p term => Contains (ToLower p) term)
             3 (fun p _ => "provides '" +:+ p +:+ "'")).
  by rewrite !orb_assoc.
Qed.

(** Score and reasons of a tool, when the tests cannot overflow. *)
Lemma scoreTool_spec terms t :
  10 * Z.of_nat (tests terms t) < 2 ^ 63 ->
  let '(score, reasons) := scoreTool ToLower terms t in
  (0 <? score) = existsb (mentions ToLower t) terms /\
  (0 < score -> reasons <> []) /\
  3 * Z.of_nat (length reasons) <= score <= 10 * Z.of_nat (length reasons).
Proof.
  intros Hsmall. rewrite scoreTool_tests.
  change (0, @nil string) with (wrapInt 0, @nil string).
  rewrite fold_bumpTest. rewrite Z.add_0_l, app_nil_l.
  destruct (tests_bounds _ (testsOf_weights terms t)) as [[Hlo Hhi] Hlen].
  rewrite length_testsOf in Hlen.
  rewrite wrapInt_small by lia.
  rewrite <- testsOf_hit.
  destruct (reasonsOf (testsOf ToLower terms t)) as [|r rs] eqn:E.
  - apply reasonsOf_nil in E. rewrite E. cbn [length] in *.
    split; [apply Z.ltb_ge; lia|]. split; [lia|lia].
  - assert (existsb (fun c : Test => c.1.1) (testsOf ToLower terms t) = true) as ->.
    { apply not_false_iff_true. intros F%reasonsOf_nil. congruence. }
    cbn [length] in *. split; [apply Z.ltb_lt; lia|]. split; [done|lia].
Qed.

Lemma findToolMatches_fold terms tools : forall matches,
  Forall (fun t => 10 * Z.of_nat (tests terms t) < 2 ^ 63) tools ->
  let result :=
    fold_left (fun matches t =>
                 let '(score, reasons) := scoreTool ToLower terms t in
                 if 0 <? score then matches ++ [mkToolMatch t score reasons]
                 else matches) tools matches in
  List.map tm_tool result
  = List.map tm_tool matches
    ++ List.filter (fun t => existsb (mentions ToLower t) terms) tools /\
  (Forall (fun m => tm_reasons m <> [] /\
                    3 * Z.of_nat (length (tm_reasons m)) <= tm_score m
                    <= 10 * Z.of_nat (length (tm_reasons m))) matches ->
   Forall (fun m => tm_reasons m <> [] /\
                    3 * Z.of_nat (length (tm_reasons m)) <= tm_score m
                    <= 10 * Z.of_nat (length (tm_reasons m))) result).
Proof.
  induction tools as [|t tools IH]; intros matches Hsmall.
  - simpl. by rewrite app_nil_r.
  - apply Forall_cons in Hsmall as [Ht Htools].
    cbn [fold_left List.filter]. pose proof (scoreTool_spec terms t Ht) as Hs.
    destruct (scoreTool ToLower terms t) as [score reasons].
    destruct Hs as (Hpos & Hne & Hb). rewrite <- Hpos.
    destruct (Z.ltb_spec 0 score) as [Hlt|Hge].
    + destruct (IH (matches ++ [mkToolMatch t score reasons]) Htools) as [IH1 IH2].
      cbv zeta in IH1, IH2. split.
      * rewrite IH1, map_app. cbn [List.map tm_tool]. by rewrite <- app_assoc.
      * intros Hm. apply IH2. apply Forall_app. split; [done|].
        apply Forall_singleton. cbn [tm_reasons tm_score]. split; [by apply Hne|done].
    + apply (IH matches Htools).
Qed.

(** X21. [tctl find]: as long as the tests on a tool are too few to
    overflow the score, the tools listed are the tools that a search
    term mentions, in the order given and each once; every match has at
    least one reason, and its score lies between three and ten times the
    number of its reasons.  A search without a term lists nothing. *)
Theorem findToolMatches_lists_mentioning_tools (tools : list tool.Tool)
        (searchTerms : string) :
  Forall (fun t => 10 * Z.of_nat (tests (Fields searchTerms) t) < 2 ^ 63) tools ->
  List.map tm_tool (findToolMatches ToLower tools searchTerms)
  = List.filter (fun t => existsb (mentions ToLower t) (Fields searchTerms)) tools /\
  Forall (fun m => tm_reasons m <> [] /\
                   3 * Z.of_nat (length (tm_reasons m)) <= tm_score m
                   <= 10 * Z.of_nat (length (tm_reasons m)))
         (findToolMatches ToLower tools searchTerms) /\
  (Fields searchTerms = [] -> findToolMatches ToLower tools searchTerms = []).
Proof.
  intros Hsmall. unfold findToolMatches. cbv zeta.
  destruct (findToolMatches_fold (Fields searchTerms) tools [] Hsmall) as [H1 H2].
  cbv zeta in H1, H2. split; [exact H1|]. split; [by apply H2|].
  intros Hnone. apply (f_equal (@length _)) in H1.
  rewrite length_map, Hnone in H1.
  assert (List.filter (fun t => existsb (mentions ToLower t) []) tools = []) as Hf.
  { clear. by induction tools. }
  rewrite Hf in H1. rewrite Hnone. by apply nil_length_inv.
Qed.

End Facts.

Lemma findToolMatches_lists_mentioning_tools_witness :
  List.map tm_tool (findToolMatches id [sample.toolA; sample.toolB] "y b")
  = [sample.toolB].
Proof.
  refine (eq_trans (proj1 (findToolMatches_lists_mentioning_tools id
                             [sample.toolA; sample.toolB] "y b" _)) _).
  - repeat constructor.
  - vm_compute. reflexivity.
Defined.

Example find_sample :
  List.map (fun m => (tool.Name (tm_tool m), tm_score m, tm_reasons m))
           (findToolMatches id [sample.toolA; sample.toolB] "y b")
  = [("b", 13, ["name contains 'b'"; "provides 'y'"])].
Proof. vm_compute. reflexivity. Qed.

End find_facts.

(** ** Occurrences of one string in another *)

Module infix_facts.
Import strings scanner scanner_spec filepath_facts interface_facts.
Local Open Scope list_scope.

Lemma Index_prefix s sub : HasPrefix s sub = true -> Index s sub = Some 0.
Proof. intros H. destruct s; cbn [Index]; by rewrite H. Qed.

Lemma Contains_infix a p b : Contains (a +:+ p +:+ b) p = true.
Proof.
  unfold Contains. induction a as [|c a IH].
  - rewrite append_empty_l. by rewrite Index_prefix by apply HasPrefix_self_append.
  - rewrite append_cons. cbn [Index].
    destruct (HasPrefix _ p); [done|].
    by destruct (Index (a +:+ p +:+ b) p).
Qed.

Lemma rev_app_append x : forall acc,
  String.rev_app x acc = String.rev x +:+ acc.
Proof.
  unfold String.rev. induction x as [|a x IH]; intros acc; [done|].
  cbn [String.rev_app]. rewrite (IH (String a acc)), (IH (String a EmptyString)).
  by rewrite append_assoc.
Qed.

Lemma rev_append a b : String.rev (a +:+ b) = String.rev b +:+ String.rev a.
Proof.
  induction a as [|c a IH]; [by rewrite append_empty_l, append_empty_r|].
  rewrite append_cons. unfold String.rev at 1 3. cbn [String.rev_app].
  rewrite !rev_app_append, IH. by rewrite append_assoc.
Qed.

Lemma rev_rev s : String.rev (String.rev s) = s.
Proof.
  unfold String.rev. rewrite rev_app_rev_app.
  cbn [String.rev_app]. apply append_empty_r.
Qed.

Lemma take_drop n : forall s, s = takeBytes n s +:+ dropBytes n s.
Proof.
  induction n as [|n IH]; intros s; [done|].
  destruct s as [|c s]; [done|]. cbn [takeBytes dropBytes].
  by rewrite append_cons, <- IH.
Qed.

Lemma trimWith_suffix width fuel : forall s,
  exists a, s = a +:+ trimWith width fuel s.
Proof.
  induction fuel as [|fuel IH]; intros s; [by exists EmptyString|].
  cbn [trimWith]. destruct (width s) as [|w]; [by exists EmptyString|].
  destruct (IH (dropBytes (S w) s)) as [a Ha].
  exists (takeBytes (S w) s +:+ a).
  rewrite append_assoc, <- Ha. apply take_drop.
Qed.

Lemma TrimSpace_infix line :
  exists a b, line = a +:+ TrimSpace line +:+ b.
Proof.
  unfold TrimSpace, TrimRightSpace, TrimLeftSpace.
  destruct (trimWith_suffix spaceWidth (String.length line) line) as [a Ha].
  set (L := trimWith spaceWidth (String.length line) line) in *.
  destruct (trimWith_suffix spaceWidthRev (String.length L) (String.rev L)) as [x Hx].
  set (T := trimWith spaceWidthRev (String.length L) (String.rev L)) in *.
  exists a, (String.rev x).
  rewrite <- rev_append, <- Hx, rev_rev. exact Ha.
Qed.

Lemma splitGo_infix sep line s : forall cur,
  line ∈ splitGo sep cur s ->
  exists a b, String.rev cur +:+ s = a +:+ line +:+ b.
Proof.
  induction s as [|c s IH]; intros cur Hin.
  - cbn [splitGo] in Hin. apply list_elem_of_singleton in Hin as ->.
    exists EmptyString, EmptyString. by rewrite append_empty_l.
  - cbn [splitGo] in Hin. destruct (Ascii.eqb c sep).
    + apply elem_of_cons in Hin as [->|Hin].
      * exists EmptyString, (String c s). by rewrite append_empty_l.
      * destruct (IH EmptyString Hin) as (a & b & Hab).
        change (String.rev EmptyString) with EmptyString in Hab.
        rewrite append_empty_l in Hab.
        exists (String.rev cur +:+ String c a), b.
        by rewrite append_assoc, append_cons, <- Hab.
    + destruct (IH (String c cur) Hin) as (a & b & Hab).
      exists a, b. rewrite <- Hab.
      unfold String.rev. cbn [String.rev_app].
      rewrite (rev_app_append cur (String c EmptyString)).
      by rewrite append_assoc.
Qed.

(** A tag at the start of a trimmed line of a block occurs in the
    block. *)
Lemma tag_in_block doc line tag :
  line ∈ docLines doc -> HasPrefix (TrimSpace line) tag = true ->
  Contains doc tag = true.
Proof.
  intros Hin Htag. unfold docLines, SplitByte in Hin.
  destruct (splitGo_infix _ _ _ _ Hin) as (a1 & b1 & H1).
  change (String.rev EmptyString) with EmptyString in H1.
  rewrite append_empty_l in H1.
  destruct (TrimSpace_infix line) as (a2 & b2 & H2).
  apply HasPrefix_drop in Htag.
  rewrite H1, H2, Htag, !append_assoc.
  rewrite <- (append_assoc a1 a2). apply Contains_infix.
Qed.

Lemma last_omap_Some {A B} (f : A -> option B) (l : list A) (y : B) :
  last (omap f l) = Some y -> exists x, x ∈ l /\ f x = Some y.
Proof.
  intros H. assert (y ∈ omap f l) as Hin.
  { apply list_elem_of_lookup. exists (pred (length (omap f l))).
    by rewrite <- last_lookup. }
  apply list_elem_of_omap in Hin as (x & Hx & Hf). eauto.
Qed.

(** A descriptor with a name comes from a block in which [@tool ]
    occurs. *)
Lemma named_block_has_tag doc t :
  parseDocstringTags doc = Some t -> tool.Name t <> EmptyString ->
  Contains doc "@tool " = true.
Proof.
  intros Hp Hn. pose proof (parser_facts.parseDocstringTags_name doc) as H.
  rewrite Hp in H. cbn in H. injection H as H.
  destruct (last (toolNames doc)) as [X|] eqn:E; [|by rewrite H in Hn].
  apply last_omap_Some in E as (line & Hin & Hline).
  apply (tag_in_block doc line); [done|].
  unfold toolLine in Hline. by destruct (HasPrefix (TrimSpace line) "@tool ").
Qed.

End infix_facts.

(** ** The linter *)

Module linter_facts.
Import strings scanner scanner_spec linter linter_spec infix_facts.
Local Open Scope list_scope.

(** *** [checkPythonDocstring] and [extractPythonDocstring] *)

Lemma loops_agree input : forall inDocstring delim acc,
  (inDocstring = false -> acc = []) ->
  (checkLoop input inDocstring delim acc).2
  = match extractLoop input inDocstring delim acc with
    | Returned s => s
    | Broke lines => Join lines nl
    | Exhausted lines => Join lines nl
    end /\
  ((checkLoop input inDocstring delim acc).1 = false ->
   (checkLoop input inDocstring delim acc).2 = EmptyString).
Proof.
  induction input as [|line input IH]; intros inDocstring delim acc Hacc.
  - cbn [checkLoop extractLoop fst snd]. split; [done|].
    intros ->. by rewrite Hacc.
  - cbn [checkLoop extractLoop]. cbv zeta.
    destruct (HasPrefix (TrimSpace line) "#"); [by apply IH|].
    destruct inDocstring; cbn [negb].
    + destruct (Index line delim) as [idx|]; [done|]. by apply IH.
    + destruct (HasPrefix (TrimSpace line) tripleDouble
                || HasPrefix (TrimSpace line) tripleSingle).
      * destruct (Contains _ _); [done|]. by apply IH.
      * destruct (negb _); [done|]. by apply IH.
Qed.

(** The two loops on the lines of one file. *)
Lemma checkLoop_agrees (file : FileData) :
  ((extractPythonDocstring file).2 = None ->
   (checkLoop (fd_lines file) false EmptyString []).2
   = (extractPythonDocstring file).1) /\
  ((checkLoop (fd_lines file) false EmptyString []).1 = false ->
   (checkLoop (fd_lines file) false EmptyString []).2 = EmptyString).
Proof.
  destruct (loops_agree (fd_lines file) false EmptyString [] (fun _ => eq_refl))
    as [H1 H2].
  split; [|done]. rewrite H1. unfold extractPythonDocstring.
  destruct (extractLoop _ _ _ _) as [s|lines|lines]; [done|done|].
  by destruct (fd_err file).
Qed.

(** X22. The linter reads the documentation block with a loop of its
    own, [checkPythonDocstring].  On a file that can be opened it finds
    the text that [extractPythonDocstring] finds, whenever the latter
    reports no error of the reading, and it says that there is no block
    only together with the empty text. *)
Theorem checkPythonDocstring_agrees (fs : FS) (path : string) :
  match fs_open fs path with
  | inl _ => checkPythonDocstring fs path = (false, EmptyString)
  | inr file =>
      ((extractPythonDocstring file).2 = None ->
       (checkPythonDocstring fs path).2 = (extractPythonDocstring file).1) /\
      ((checkPythonDocstring fs path).1 = false ->
       (checkPythonDocstring fs path).2 = EmptyString)
  end.
Proof.
  unfold checkPythonDocstring. destruct (fs_open fs path) as [err|file]; [done|].
  apply checkLoop_agrees.
Qed.

(** *** What is added to a result *)

Lemma Errors_Add_error r file line code message :
  Errors (Add r LevelError file line code message)
  = Errors r ++ [mkMessage LevelError file line code message].
Proof. reflexivity. Qed.

Lemma Errors_addIf_error cond r file line code message :
  Errors (addIf cond LevelError file line code message r)
  = Errors r ++ (if cond then [mkMessage LevelError file line code message] else []).
Proof. destruct cond; [done|]. simpl. by rewrite app_nil_r. Qed.

Lemma Errors_addIf_warning cond r file line code message :
  Errors (addIf cond LevelWarning file line code message r) = Errors r.
Proof. by destruct cond. Qed.

Lemma Errors_addIf_info cond r file line code message :
  Errors (addIf cond LevelInfo file line code message r) = Errors r.
Proof. by destruct cond. Qed.

Lemma app_eq_self {A} (l k : list A) : l ++ k = l <-> k = [].
Proof.
  split; [|intros ->; apply app_nil_r].
  intros H. apply (f_equal (@length A)) in H. rewrite length_app in H.
  apply nil_length_inv. lia.
Qed.

Lemma nothingNew_refl code r : nothingNew code r r.
Proof. by intros m. Qed.

Lemma nothingNew_trans code r1 r2 r3 :
  nothingNew code r1 r2 -> nothingNew code r2 r3 -> nothingNew code r1 r3.
Proof. intros H12 H23 m Hm Hc. apply H12; [by apply H23|done]. Qed.

Lemma nothingNew_Add code r level file line code' message :
  code' <> code -> nothingNew code r (Add r level file line code' message).
Proof.
  intros Hne m Hm Hc. unfold Add in Hm.
  assert (m <> mkMessage level file line code' message) as Hnot.
  { intros ->. by cbn in Hc. }
  unfold messages in *.
  destruct (String.eqb level LevelError);
    [|destruct (String.eqb level LevelWarning);
      [|destruct (String.eqb level LevelInfo); [|done]]];
    cbn [Errors Warnings Info] in Hm;
    rewrite !elem_of_app in Hm; rewrite !elem_of_app;
    rewrite list_elem_of_singleton in Hm; tauto.
Qed.

Lemma nothingNew_addIf code cond r level file line code' message :
  code' <> code -> nothingNew code r (addIf cond level file line code' message r).
Proof.
  intros Hne. destruct cond; [by apply nothingNew_Add|apply nothingNew_refl].
Qed.

Lemma valid_iff_threshold policy :
  bool_decide (policy ∈ validFreshness) = true
  <-> is_Some (freshness.Thresholds !! policy).
Proof.
  rewrite bool_decide_eq_true. unfold validFreshness, freshness.Thresholds.
  rewrite !elem_of_union, !elem_of_singleton. cbn [list_to_map foldr fst snd].
  destruct (String.eqb_spec policy "daily") as [->|H1]; [split; [by eauto|tauto]|].
  destruct (String.eqb_spec policy "weekly") as [->|H2]; [split; [by eauto|tauto]|].
  destruct (String.eqb_spec policy "monthly") as [->|H3]; [split; [by eauto|tauto]|].
  destruct (String.eqb_spec policy "manual") as [->|H4]; [split; [by eauto|tauto]|].
  rewrite !lookup_insert_ne by done. rewrite lookup_empty.
  split; [tauto|by intros [? ?]].
Qed.

Section Lint.
Variable fs : FS.
Variable Rel : string -> string -> string.
Variable Abs : string -> string + string.

(** X23. [lintToolFile] with the Python scanner: code [T001], the
    missing [@tool] tag, is never reported, since the scanner yields no
    descriptor without a name; and no error is reported exactly when no
    scanner takes the file, or the scan yields a descriptor whose
    freshness policy is a name of the table of thresholds. *)
Theorem lintToolFile_errors (path root : string) (result : Result) :
  nothingNew "T001" result (lintToolFile registered fs Rel path root result) /\
  (Errors (lintToolFile registered fs Rel path root result) = Errors result <->
   GetScanner registered path = None \/
   exists t, PythonScanner_Scan fs path = (Some t, None) /\
             is_Some (freshness.Thresholds !! tool.Freshness t)).
Proof.
  unfold lintToolFile. cbv zeta.
  set (relPath := if String.eqb (Rel root path) EmptyString
                  then filepath.Base path else Rel root path).
  unfold GetScanner, registered. cbn [find CanScan PythonScanner].
  destruct (PythonScanner_CanScan path);
    [|split; [apply nothingNew_refl|split; [by left|done]]].
  change (Scan PythonScanner fs path) with (PythonScanner_Scan fs path).
  destruct (PythonScanner_Scan fs path) as [[t|] [err|]] eqn:Hscan.
  - split; [by apply nothingNew_Add|]. rewrite Errors_Add_error, app_eq_self.
    split; [done|]. by intros [?|(t' & ? & _)].
  - destruct (scan_facts.PythonScanner_Scan_Some _ _ _ Hscan) as (_ & _ & Hn).
    apply String.eqb_neq in Hn. rewrite Hn. split.
    + repeat (eapply nothingNew_trans; [|by apply nothingNew_addIf]).
      apply nothingNew_refl.
    + rewrite Errors_addIf_info, Errors_addIf_error, Errors_addIf_info,
        !Errors_addIf_warning, app_eq_self.
      destruct (bool_decide (tool.Freshness t ∈ validFreshness)) eqn:Hv.
      * apply valid_iff_threshold in Hv. cbn [negb]. split; [|done].
        intros _. right. by exists t.
      * cbn [negb]. split; [done|]. intros [?|(t' & [= <-] & Hs)]; [done|].
        apply valid_iff_threshold in Hs. congruence.
  - split; [by apply nothingNew_Add|]. rewrite Errors_Add_error, app_eq_self.
    split; [done|]. by intros [?|(t' & ? & _)].
  - split; [by apply nothingNew_Add|]. rewrite Errors_Add_error, app_eq_self.
    split; [done|]. by intros [?|(t' & ? & _)].
Qed.

Lemma Scan_Some_block path t :
  PythonScanner_Scan fs path = (Some t, None) ->
  exists content,
    checkPythonDocstring fs path = (true, content) /\
    Contains content "@tool " = true.
Proof.
  intros Hscan. unfold PythonScanner_Scan in Hscan. unfold checkPythonDocstring.
  destruct (fs_open fs path) as [err|file]; [done|].
  pose proof (checkLoop_agrees file) as Hag.
  destruct (extractPythonDocstring file) as [doc [err|]] eqn:Hex; [done|].
  destruct (String.eqb_spec doc EmptyString) as [|Hdoc]; [done|].
  destruct (parseDocstringTags doc) as [t0|] eqn:Hp; [|done].
  destruct (String.eqb_spec (tool.Name t0) EmptyString) as [|Hn]; [done|].
  destruct Hag as [H1 H2]. cbn [fst snd] in H1. specialize (H1 eq_refl).
  destruct (checkLoop (fd_lines file) false EmptyString []) as [has content].
  cbn [fst snd] in *. subst content. exists doc. split.
  - destruct has; [done|]. by specialize (H2 eq_refl).
  - by eapply named_block_has_tag.
Qed.

(** X24. [lintFileForCompatibility] and the scanner agree on Python
    files: the linter adds no error for a file exactly when the scanner
    makes a tool of it. *)
Theorem compatible_iff_scanned (path root : string) (result : Result) :
  PythonScanner_CanScan path = true ->
  Errors (lintFileForCompatibility registered fs Abs path root result)
  = Errors result
  <-> exists t, PythonScanner_Scan fs path = (Some t, None).
Proof.
  intros Hcan. unfold lintFileForCompatibility. cbv zeta.
  set (displayPath := match Abs path with inr p => p | inl _ => path end).
  unfold GetScanner, registered. cbn [find CanScan PythonScanner]. rewrite Hcan.
  change (Scan PythonScanner fs path) with (PythonScanner_Scan fs path).
  destruct (PythonScanner_Scan fs path) as [[t|] [err|]] eqn:Hscan.
  - destruct (checkPythonDocstring fs path) as [[] content]; cbn [negb].
    + rewrite Errors_Add_error, Errors_addIf_error, <- app_assoc, app_eq_self.
      split; [by destruct (negb _)|by intros [? ?]].
    + rewrite Errors_Add_error, app_eq_self. split; [done|by intros [? ?]].
  - destruct (Scan_Some_block path t Hscan) as (content & -> & Hc).
    cbn [negb]. rewrite Hc. cbn [negb addIf].
    rewrite !Errors_addIf_info, Errors_addIf_warning, !Errors_addIf_info,
      !Errors_addIf_warning.
    split; [by eauto|done].
  - destruct (checkPythonDocstring fs path) as [[] content]; cbn [negb].
    + rewrite Errors_Add_error, Errors_addIf_error, <- app_assoc, app_eq_self.
      split; [by destruct (negb _)|by intros [? ?]].
    + rewrite Errors_Add_error, app_eq_self. split; [done|by intros [? ?]].
  - destruct (checkPythonDocstring fs path) as [[] content]; cbn [negb].
    + rewrite !Errors_addIf_error, <- app_assoc, app_eq_self.
      split; [by destruct (Contains content "@tool ")|by intros [? ?]].
    + rewrite Errors_Add_error, app_eq_self. split; [done|by intros [? ?]].
Qed.

End Lint.

Lemma compatible_iff_scanned_witness :
  Errors (lintFileForCompatibility registered sample.sampleFS (fun p => inr p)
            "root/tools/a.py" "root" emptyResult) = [] /\
  Errors (lintFileForCompatibility registered sample.sampleFS (fun p => inr p)
            "root/tools/notool.py" "root" emptyResult) <> [].
Proof.
  split.
  - apply (compatible_iff_scanned sample.sampleFS (fun p => inr p)
             "root/tools/a.py" "root" emptyResult eq_refl).
    eexists. vm_compute. reflexivity.
  - intros H.
    apply (compatible_iff_scanned sample.sampleFS (fun p => inr p)
             "root/tools/notool.py" "root" emptyResult eq_refl) in H as [t Ht].
    vm_compute in Ht. discriminate.
Defined.


End linter_facts.

(** ** Where the output of a tool is looked for *)

Module output_path_more.
Import strings filepath filepath_spec filepath_facts.
Local Open Scope list_scope.

Lemma Join_app (A B : list string) :
  A <> [] -> B <> [] ->
  strings.Join (A ++ B) "/" = strings.Join A "/" +:+ "/" +:+ strings.Join B "/".
Proof.
  intros HA HB. induction A as [|x A IH]; [done|].
  destruct A as [|y A].
  - destruct B as [|b B]; [done|]. reflexivity.
  - change (strings.Join ((x :: y :: A) ++ B) "/")
      with (x +:+ "/" +:+ strings.Join ((y :: A) ++ B) "/").
    rewrite IH by done.
    change (strings.Join (x :: y :: A) "/")
      with (x +:+ "/" +:+ strings.Join (y :: A) "/").
    by rewrite !append_assoc.
Qed.

Lemma afterLastSep_noSep f : noSep f = true -> afterLastSep f = None.
Proof.
  induction f as [|c f IH]; [done|]. simpl.
  intros [Hc Hf]%andb_true_iff. rewrite (IH Hf).
  apply negb_true_iff in Hc. by rewrite Hc.
Qed.

Lemma afterLastSep_app x f :
  noSep f = true -> afterLastSep (x +:+ "/" +:+ f) = Some (S (String.length x)).
Proof.
  intros Hf. induction x as [|c x IH].
  - rewrite append_empty_l. change ("/" +:+ f) with (String "/" f).
    cbn [afterLastSep]. by rewrite afterLastSep_noSep.
  - rewrite append_cons. cbn [afterLastSep String.length]. by rewrite IH.
Qed.

Lemma takeBytes_app x f :
  takeBytes (S (String.length x)) (x +:+ "/" +:+ f) = x +:+ "/".
Proof.
  induction x as [|c x IH]; [done|].
  rewrite (append_cons c x ("/" +:+ f)), (append_cons c x "/").
  change (takeBytes (S (String.length (String c x))) (String c (x +:+ "/" +:+ f)))
    with (String c (takeBytes (S (String.length x)) (x +:+ "/" +:+ f))).
  by rewrite IH.
Qed.

(** Cleaning a rooted path given by its elements. *)
Lemma Clean_rooted elems :
  elems <> [] -> Forall (fun e => noSep e = true) elems ->
  Clean ("/" +:+ strings.Join elems "/")
  = render true (List.rev (fold_left (cleanStep true) elems [])).
Proof.
  intros Hne Hsep. rewrite Clean_unfold by done.
  change (HasPrefix ("/" +:+ strings.Join elems "/") "/") with true.
  change ("/" +:+ strings.Join elems "/")
    with (EmptyString +:+ "/" +:+ strings.Join elems "/").
  by rewrite SplitByte_sep, SplitByte_Join, fold_left_app.
Qed.

Lemma normal_first e rest :
  normal e -> HasPrefix (strings.Join (e :: rest) "/") "/" = false.
Proof.
  intros (Hne & _ & _ & Hsep). destruct e as [|c e]; [done|].
  simpl in Hsep. apply andb_true_iff in Hsep as [Hc _].
  apply negb_true_iff in Hc. rewrite Ascii.eqb_sym in Hc. unfold sep in Hc.
  destruct rest; cbn [strings.Join String.concat]; rewrite ?append_cons;
    cbn [HasPrefix]; by rewrite Hc.
Qed.

(** The directory of [/elems/file]. *)
Lemma Dir_rooted (elems : list string) (fname : string) :
  Forall normal elems -> normal fname ->
  Dir (render true (elems ++ [fname])) = render true elems.
Proof.
  intros Helems Hfname. unfold render, Dir.
  destruct elems as [|e elems].
  - change ("/" +:+ strings.Join ([] ++ [fname]) "/")
      with (EmptyString +:+ "/" +:+ fname).
    rewrite afterLastSep_app by by apply normal_noSep.
    by rewrite takeBytes_app.
  - rewrite Join_app by done.
    change (strings.Join [fname] "/") with fname.
    set (J := strings.Join (e :: elems) "/").
    rewrite <- (append_assoc "/" J ("/" +:+ fname)).
    rewrite afterLastSep_app by by apply normal_noSep.
    rewrite takeBytes_app.
    rewrite (append_assoc "/" J "/"). subst J.
    change (strings.Join (e :: elems) "/" +:+ "/")
      with (strings.Join (e :: elems) "/" +:+ "/" +:+ strings.Join [EmptyString] "/").
    rewrite <- Join_app by done.
    rewrite Clean_rooted.
    + rewrite fold_left_app, (fold_cleanStep_normal true (e :: elems)) by done.
      cbn [fold_left cleanStep String.eqb orb].
      by rewrite app_nil_r, rev_involutive.
    + done.
    + apply Forall_app. split; [|by apply Forall_singleton].
      eapply Forall_impl; [exact Helems|]. by intros x ?%normal_noSep.
Qed.

(** X25. A tool whose file is [/above/dir/file] and whose output is
    the relative path [outs]: the path whose freshness the resolver
    checks is [/above/outs], the output below the directory that holds
    the directory of the tool. *)
Theorem outputPath_in_project (t : tool.Tool) (above : list string)
        (dir fname : string) (outs : list string) :
  Forall normal above -> normal dir -> normal fname ->
  outs <> [] -> Forall normal outs ->
  tool.File t = render true (above ++ [dir; fname]) ->
  tool.Output t = strings.Join outs "/" ->
  resolver.outputPath t = render true (above ++ outs).
Proof.
  intros Habove Hdir Hfname Hne Houts Hfile Hout.
  assert (Forall normal (above ++ [dir])) as HA.
  { apply Forall_app. split; [done|]. by apply Forall_singleton. }
  assert (forall l, Forall normal l -> Forall (fun e => noSep e = true) l) as Hns.
  { intros l Hl. eapply Forall_impl; [exact Hl|]. by intros e ?%normal_noSep. }
  unfold resolver.outputPath.
  destruct outs as [|o outs]; [done|].
  unfold IsAbs. rewrite Hout, normal_first by by apply Forall_cons in Houts as [? _].
  cbn [negb]. rewrite <- Hout.
  assert (Dir (tool.File t) = "/" +:+ strings.Join (above ++ [dir]) "/") as HD.
  { rewrite Hfile.
    replace (above ++ [dir; fname]) with ((above ++ [dir]) ++ [fname])
      by by rewrite <- app_assoc.
    by rewrite Dir_rooted. }
  rewrite HD. cbn [filepath.Join String.eqb].
  destruct (String.eqb_spec ("/" +:+ strings.Join (above ++ [dir]) "/") EmptyString)
    as [E|_]; [done|].
  change (strings.Join ["/" +:+ strings.Join (above ++ [dir]) "/"; ".."; tool.Output t] "/")
    with ("/" +:+ strings.Join (above ++ [dir]) "/" +:+ "/" +:+ ".." +:+ "/" +:+ tool.Output t).
  rewrite Hout.
  change (".." +:+ "/" +:+ strings.Join (o :: outs) "/")
    with (strings.Join (".." :: o :: outs) "/").
  rewrite <- Join_app by (try done; by destruct above).
  rewrite Clean_rooted.
  - rewrite fold_left_app, (fold_cleanStep_normal true (above ++ [dir])) by done.
    rewrite app_nil_r, rev_app_distr. cbn [List.rev app fold_left].
    assert (cleanStep true (dir :: List.rev above) ".." = List.rev above) as ->.
    { unfold cleanStep. cbn [String.eqb Ascii.eqb Bool.eqb orb].
      destruct Hdir as (_ & _ & Hd & _). apply String.eqb_neq in Hd.
      by rewrite Hd. }
    change (fold_left (cleanStep true) outs (cleanStep true (List.rev above) o))
      with (fold_left (cleanStep true) (o :: outs) (List.rev above)).
    rewrite fold_cleanStep_normal by done.
    by rewrite rev_app_distr, !rev_involutive.
  - by destruct above.
  - apply Forall_app. split; [by apply Hns|].
    apply Forall_cons. split; [done|by apply Hns].
Qed.

Lemma outputPath_in_project_witness :
  resolver.outputPath
    (sample.mkSimpleTool "b" "/home/me/proj/tools/b.py" ["y"] []
                         "data/out.csv" "daily")
  = "/home/me/proj/data/out.csv".
Proof.
  apply (outputPath_in_project
           (sample.mkSimpleTool "b" "/home/me/proj/tools/b.py" ["y"] []
                                "data/out.csv" "daily")
           ["home"; "me"; "proj"] "tools" "b.py" ["data"; "out.csv"]).
  - repeat constructor; done.
  - repeat split; done.
  - repeat split; done.
  - done.
  - repeat constructor; done.
  - reflexivity.
  - reflexivity.
Defined.



End output_path_more.

(** ** The validation of [tctl sync] *)

Module sync_facts.
Import scanner scan_facts registry_spec.
Local Open Scope list_scope.

Lemma hasErrors_named tools : forall acc,
  Forall (fun t => tool.Name t <> EmptyString) tools ->
  fold_left (fun hasErrors t =>
               if String.eqb (tool.Name t) EmptyString then true else hasErrors)
            tools acc = acc.
Proof.
  induction tools as [|t tools IH]; intros acc H; [done|].
  apply Forall_cons in H as [Ht Htools]. cbn [fold_left].
  apply String.eqb_neq in Ht. rewrite Ht. by apply IH.
Qed.

(** X27. [tctl sync] validates the tools of a scan: in whatever order
    [All] hands them over, none is without a name, so the warning for a
    missing [@tool] tag is never printed and the validation ends
    without errors. *)
Theorem sync_finds_no_unnamed_tool (fs : FS) (dirs : list string)
        (registry : tool.Registry) (keys : list string) :
  ScanDirectories registered fs dirs = (Some registry, None) ->
  sync.hasErrors (tool.All keys registry) = false.
Proof.
  intros [= <-]. unfold sync.hasErrors. apply hasErrors_named.
  apply Forall_forall. intros t Ht. unfold tool.All in Ht.
  apply list_elem_of_omap in Ht as (key & _ & Hkey).
  by destruct (ScanDirectories_allTools fs dirs key t Hkey) as (-> & ? & _).
Qed.

Lemma sync_finds_no_unnamed_tool_witness :
  sync.hasErrors
    (tool.All ["a"; "b"]
       (scanDirs registered (list_to_set [".py"]) sample.sampleFS ["root"]
                 tool.NewRegistry)) = false.
Proof.
  apply (sync_finds_no_unnamed_tool sample.sampleFS ["root"] _ ["a"; "b"]).
  reflexivity.
Defined.

End sync_facts.
